(** * freeimage-py: the bitmap-to-buffer bridge, embedded in Rocq

    A shallow embedding of [freeimage/freeimage.py]: the pixel-type and
    metadata-type registries, the strided view built over decoder memory,
    the channel reordering of the read and write paths, the grey palette,
    the handle / session / cursor discipline of [read], [write],
    [read_multipage] and [read_metadata].

    The FreeImage shared library is an external collaborator: it is an
    interface ([FreeImageAPI]) the Python layer is written against.  Raw
    process memory (what numpy reads and writes through the pointers the
    library hands out) is a separate component of the state. *)

From Stdlib Require Import ZArith List Lia String Ascii Bool.
From stdpp Require Import gmap strings list fin_maps list_numbers.

Open Scope string_scope.
Open Scope list_scope.
Open Scope Z_scope.

(** ** numpy element types *)

(** The scalar dtypes the module names ([FI_TYPES.dtypes],
    [METADATA_DATATYPE.dtypes]). *)
Inductive dtype : Type :=
| uint8 | int8 | uint16 | int16 | uint32 | int32
| uint64 | int64 | float32 | float64 | complex128.

#[global] Instance dtype_eq_dec : EqDecision dtype.
Proof. solve_decision. Defined.

Definition dtype_code (d : dtype) : nat :=
  match d with
  | uint8 => 0 | int8 => 1 | uint16 => 2 | int16 => 3 | uint32 => 4
  | int32 => 5 | uint64 => 6 | int64 => 7 | float32 => 8 | float64 => 9
  | complex128 => 10
  end%nat.

Definition dtype_of_code (n : nat) : option dtype :=
  match n with
  | 0 => Some uint8 | 1 => Some int8 | 2 => Some uint16 | 3 => Some int16
  | 4 => Some uint32 | 5 => Some int32 | 6 => Some uint64 | 7 => Some int64
  | 8 => Some float32 | 9 => Some float64 | 10 => Some complex128
  | _ => None
  end%nat.

#[global] Instance dtype_countable : Countable dtype.
Proof.
  refine (inj_countable dtype_code dtype_of_code _).
  intros []; reflexivity.
Defined.

(** [dtype.itemsize] *)
Definition itemsize (d : dtype) : Z :=
  match d with
  | uint8 | int8 => 1
  | uint16 | int16 => 2
  | uint32 | int32 | float32 => 4
  | uint64 | int64 | float64 => 8
  | complex128 => 16
  end.

(** ** Python exceptions *)

Inductive exn : Type :=
| ValueError (msg : string)
| RuntimeError (msg : string)
| TypeError (msg : string)
| KeyError (key : Z)
| IndexError (msg : string).

#[global] Instance exn_eq_dec : EqDecision exn.
Proof. solve_decision. Defined.

(** The messages of the module's [raise] statements (format arguments
    left as written). *)
Definition msg_read_type := "Cannot determine type of file %s".
Definition msg_load := "Could not load file %s".
Definition msg_open_multi := "Could not open %s as multi-page image.".
Definition msg_lock_page := "Could not open %s as a multi-page image.".
Definition msg_pixel_type := "Unknown image pixel type".
Definition msg_bpp := "Cannot convert %d BPP bitmap".
Definition msg_write_type := "Cannot determine type for %s".
Definition msg_shape :=
  "Only arrays with shape = (width, height) or (width, height, nchannels) are permitted".
Definition msg_dtype := "Cannot write arrays of given type and shape.".
Definition msg_alloc := "Could not allocate image for storage".
Definition msg_palette := "Could not get image palette".
Definition msg_export := "Cannot save image of this format to this file type".
Definition msg_save := "Could not save image properly.".
Definition msg_index := "index 2 is out of bounds for axis 2".
Definition msg_fromstring := "string size must be a multiple of element size".
Definition msg_strides := "strides, if given, must be the same length as shape".
Definition msg_array_length := "Array length must be >= 0, not %d".
Definition msg_from_address := "integer expected".

(** The error kinds of the specification, and the kind each [raise] of
    the module stands for.  [KeyError] and [IndexError] are raised by
    Python itself and are none of the kinds. *)
Inductive ErrorKind : Type :=
| UnknownFileType | LoadFailed | SaveFailed | AllocationError
| UnsupportedFormat | InvalidShape | IncompatibleFormat | DecoderFault.

#[global] Instance ErrorKind_eq_dec : EqDecision ErrorKind.
Proof. solve_decision. Defined.

Definition error_kind (e : exn) : option ErrorKind :=
  match e with
  | ValueError m =>
      if bool_decide (m = msg_read_type) || bool_decide (m = msg_write_type)
      then Some UnknownFileType
      else if bool_decide (m = msg_load) || bool_decide (m = msg_open_multi)
              || bool_decide (m = msg_lock_page)
      then Some LoadFailed
      else if bool_decide (m = msg_pixel_type) || bool_decide (m = msg_bpp)
              || bool_decide (m = msg_dtype)
      then Some UnsupportedFormat
      else if bool_decide (m = msg_shape) then Some InvalidShape
      else None
  | RuntimeError m =>
      if bool_decide (m = msg_alloc) || bool_decide (m = msg_palette)
      then Some AllocationError
      else if bool_decide (m = msg_save) then Some SaveFailed
      else None
  | TypeError m =>
      if bool_decide (m = msg_export) then Some IncompatibleFormat else None
  | KeyError _ => None
  | IndexError _ => None
  end.

(** ** The pixel-type registry: [class FI_TYPES] *)

Module FI_TYPES.

Definition FIT_UNKNOWN : Z := 0.
Definition FIT_BITMAP : Z := 1.
Definition FIT_UINT16 : Z := 2.
Definition FIT_INT16 : Z := 3.
Definition FIT_UINT32 : Z := 4.
Definition FIT_INT32 : Z := 5.
Definition FIT_FLOAT : Z := 6.
Definition FIT_DOUBLE : Z := 7.
Definition FIT_COMPLEX : Z := 8.
Definition FIT_RGB16 : Z := 9.
Definition FIT_RGBA16 : Z := 10.
Definition FIT_RGBF : Z := 11.
Definition FIT_RGBAF : Z := 12.

Definition dtypes_items : list (Z * dtype) :=
  [ (FIT_BITMAP, uint8); (FIT_UINT16, uint16); (FIT_INT16, int16);
    (FIT_UINT32, uint32); (FIT_INT32, int32); (FIT_FLOAT, float32);
    (FIT_DOUBLE, float64); (FIT_COMPLEX, complex128);
    (FIT_RGB16, uint16); (FIT_RGBA16, uint16);
    (FIT_RGBF, float32); (FIT_RGBAF, float32) ].

Definition dtypes : gmap Z dtype := list_to_map dtypes_items.

Definition fi_types_items : list ((dtype * Z) * Z) :=
  [ ((uint8, 1), FIT_BITMAP); ((uint8, 3), FIT_BITMAP);
    ((uint8, 4), FIT_BITMAP); ((uint16, 1), FIT_UINT16);
    ((int16, 1), FIT_INT16); ((uint32, 1), FIT_UINT32);
    ((int32, 1), FIT_INT32); ((float32, 1), FIT_FLOAT);
    ((float64, 1), FIT_DOUBLE); ((complex128, 1), FIT_COMPLEX);
    ((uint16, 3), FIT_RGB16); ((uint16, 4), FIT_RGBA16);
    ((float32, 3), FIT_RGBF); ((float32, 4), FIT_RGBAF) ].

Definition fi_types : gmap (dtype * Z) Z := list_to_map fi_types_items.

Definition extra_dims_items : list (Z * list Z) :=
  [ (FIT_UINT16, []); (FIT_INT16, []); (FIT_UINT32, []); (FIT_INT32, []);
    (FIT_FLOAT, []); (FIT_DOUBLE, []); (FIT_COMPLEX, []);
    (FIT_RGB16, [3]); (FIT_RGBA16, [4]); (FIT_RGBF, [3]); (FIT_RGBAF, [4]) ].

Definition extra_dims : gmap Z (list Z) := list_to_map extra_dims_items.

End FI_TYPES.

(** ** Process memory *)

(** A byte is its value in [0, 256); memory maps an address to the byte
    stored there.  numpy reads and writes it through the raw pointers the
    decoder hands out ([FreeImage_GetBits], [FreeImage_GetPalette],
    [FreeImage_GetTagValue]). *)
Abbreviation byte := Z (only parsing).
Definition memory : Type := Z -> byte.

Definition poke (a : Z) (b : byte) (m : memory) : memory :=
  fun a' => if bool_decide (a' = a) then b else m a'.

(** An array element is the list of its [itemsize] bytes as they lie in
    memory. *)
Abbreviation elem := (list Z) (only parsing).

Definition load_elem (m : memory) (addr n : Z) : elem :=
  (fun i => m (addr + i)) <$> seqZ 0 n.

Fixpoint store_elem (addr : Z) (bs : elem) (m : memory) : memory :=
  match bs with
  | [] => m
  | b :: bs' => store_elem (addr + 1) bs' (poke addr b m)
  end.

(** ** Outcomes of a Python call *)

Inductive outcome (A : Type) : Type :=
| Ok (a : A)
| Raise (e : exn)
| Diverge.
Arguments Ok {A} a.
Arguments Raise {A} e.
Arguments Diverge {A}.

(** ** numpy arrays and views *)

(** An owned array: dtype, shape and the elements in logical (row-major)
    order of the index tuple. *)
Record ndarray : Type := mk_ndarray {
  a_dtype : dtype;
  a_shape : list Z;
  a_data : list elem
}.

(** What [numpy.ndarray(shape, dtype, buffer, strides, offset)] holds: a
    window on foreign memory. *)
Record view : Type := mk_view {
  v_bits : Z;
  v_byte_size : Z;
  v_offset : Z;
  v_shape : list Z;
  v_strides : list Z;
  v_dtype : dtype
}.

Definition product (shape : list Z) : Z := foldr Z.mul 1 shape.

(** All index tuples of a shape, in logical order (last axis fastest). *)
Fixpoint indices (shape : list Z) : list (list Z) :=
  match shape with
  | [] => [[]]
  | d :: ds => seqZ 0 d ≫= (fun x => cons x <$> indices ds)
  end.

Fixpoint flat_index (shape idx : list Z) : Z :=
  match shape, idx with
  | _ :: ds, i :: idx' => i * product ds + flat_index ds idx'
  | _, _ => 0
  end.

(** [array[idx]] on an owned array *)
Definition item (a : ndarray) (idx : list Z) : elem :=
  default [] (a_data a !! Z.to_nat (flat_index (a_shape a) idx)).

Fixpoint dot (idx strides : list Z) : Z :=
  match idx, strides with
  | i :: idx', s :: strides' => i * s + dot idx' strides'
  | _, _ => 0
  end.

(** The address of [array[idx]] for a view *)
Definition view_addr (v : view) (idx : list Z) : Z :=
  v_bits v + v_offset v + dot idx (v_strides v).

Definition view_get (v : view) (m : memory) (idx : list Z) : elem :=
  load_elem m (view_addr v idx) (itemsize (v_dtype v)).

(** Slice assignment into a view: the right-hand side has been evaluated
    to [vals]; element [k] goes to the [k]-th target index. *)
Definition assign (v : view) (targets : list (list Z)) (vals : list elem)
    (m : memory) : memory :=
  fold_left (fun m' '(idx, e) => store_elem (view_addr v idx) e m')
            (zip targets vals) m.

(** The index tuples of [array[:, :, c]], or the [IndexError] numpy raises
    when [c] is not a valid index of the last axis. *)
Definition channel_indices (shape : list Z) (c : Z) : outcome (list (list Z)) :=
  match shape with
  | [w; h; n] =>
      if bool_decide (0 <= c < n)
      then Ok ((fun xy => (xy ++ [c])%list) <$> indices [w; h])
      else Raise (IndexError msg_index)
  | _ => Raise (IndexError "too many indices for array")
  end.

(** [array.copy(order='k')] of a view: an owned array with the view's
    logical contents. *)
Definition view_copy (v : view) (m : memory) : ndarray :=
  {| a_dtype := v_dtype v;
     a_shape := v_shape v;
     a_data := view_get v m <$> indices (v_shape v) |}.

(** ** The decoder interface *)

(** The FreeImage entry points the module calls, over an opaque decoder
    state [W].  A null pointer is [0].  Entry points that create pixel
    memory return the new memory; [FreeImage_Save] reads it. *)
Class FreeImageAPI (W : Type) : Type := {
  FreeImage_IsLittleEndian : bool;
  FreeImage_GetFileType : string -> W -> Z;
  FreeImage_GetFIFFromFilename : string -> Z;
  FreeImage_Load : Z -> string -> Z -> memory -> W -> Z * memory * W;
  FreeImage_Unload : Z -> W -> W;
  FreeImage_AllocateT : Z -> Z -> Z -> Z -> memory -> W -> Z * memory * W;
  FreeImage_Save : Z -> Z -> string -> Z -> memory -> W -> bool * W;
  FreeImage_FIFSupportsExportBPP : Z -> Z -> bool;
  FreeImage_FIFSupportsExportType : Z -> Z -> bool;
  FreeImage_GetWidth : Z -> W -> Z;
  FreeImage_GetHeight : Z -> W -> Z;
  FreeImage_GetImageType : Z -> W -> Z;
  FreeImage_GetBPP : Z -> W -> Z;
  FreeImage_GetPitch : Z -> W -> Z;
  FreeImage_GetBits : Z -> W -> Z;
  FreeImage_GetPalette : Z -> W -> Z;
  FreeImage_OpenMultiBitmap :
    Z -> string -> bool -> bool -> bool -> Z -> W -> Z * W;
  FreeImage_GetPageCount : Z -> W -> Z;
  FreeImage_LockPage : Z -> Z -> memory -> W -> Z * memory * W;
  FreeImage_UnlockPage : Z -> Z -> bool -> W -> W;
  FreeImage_AppendPage : Z -> Z -> memory -> W -> W;
  FreeImage_CloseMultiBitmap : Z -> Z -> W -> W;
  FreeImage_FindFirstMetadata : Z -> Z -> Z -> W -> Z * Z * W;
  FreeImage_FindNextMetadata : Z -> Z -> W -> bool * Z * W;
  FreeImage_FindCloseMetadata : Z -> W -> W;
  FreeImage_GetTagKey : Z -> W -> string;
  FreeImage_GetTagType : Z -> W -> Z;
  FreeImage_GetTagLength : Z -> W -> Z;
  FreeImage_GetTagValue : Z -> W -> Z
}.

(** The calls that acquire, release or commit a decoder resource, as the
    module issues them. *)
Inductive call : Type :=
| Call_Load (ftype : Z) (filename : string) (flags : Z) (ret : Z)
| Call_Unload (bitmap : Z)
| Call_AllocateT (fi_type width height bpp : Z) (ret : Z)
| Call_Save (ftype bitmap : Z) (filename : string) (flags : Z) (ret : bool)
| Call_OpenMultiBitmap (ftype : Z) (filename : string) (ret : Z)
| Call_LockPage (multibitmap page : Z) (ret : Z)
| Call_UnlockPage (multibitmap bitmap : Z) (changed : bool)
| Call_AppendPage (multibitmap bitmap : Z)
| Call_CloseMultiBitmap (multibitmap flags : Z)
| Call_FindFirstMetadata (model bitmap : Z) (ret : Z)
| Call_FindNextMetadata (mdhandle : Z) (ret : bool)
| Call_FindCloseMetadata (mdhandle : Z).

#[global] Instance call_eq_dec : EqDecision call.
Proof. solve_decision. Defined.

(** The state a call runs in: process memory, the decoder's own state,
    and the resource calls issued so far. *)
Record state (W : Type) : Type := mk_state {
  mem : memory;
  fi : W;
  trace : list call
}.
Arguments mk_state {W} mem fi trace.
Arguments mem {W} s.
Arguments fi {W} s.
Arguments trace {W} s.

(** ** Computations: state passing with exceptions *)

Definition M (W A : Type) : Type := state W -> outcome A * state W.

Definition ret {W A} (a : A) : M W A := fun s => (Ok a, s).

Definition raise {W A} (e : exn) : M W A := fun s => (Raise e, s).

Definition bind {W A B} (c : M W A) (k : A -> M W B) : M W B :=
  fun s =>
    match c s with
    | (Ok a, s') => k a s'
    | (Raise e, s') => (Raise e, s')
    | (Diverge, s') => (Diverge, s')
    end.

Notation "x <~ c ;; k" := (bind c (fun x => k))
  (at level 100, c at next level, right associativity).
Notation "c ;;; k" := (bind c (fun _ => k))
  (at level 100, right associativity).

(** lift an outcome computed without effect *)
Definition lift {W A} (o : outcome A) : M W A := fun s => (o, s).

(** [try: body finally: fin] *)
Definition try_finally {W A} (body : M W A) (fin : M W unit) : M W A :=
  fun s =>
    match body s with
    | (Diverge, s1) => (Diverge, s1)
    | (r, s1) =>
        match fin s1 with
        | (Ok _, s2) => (r, s2)
        | (Raise e, s2) => (Raise e, s2)
        | (Diverge, s2) => (Diverge, s2)
        end
    end.

(** [try: body except: handler; raise] *)
Definition try_except_reraise {W A} (body : M W A) (handler : M W unit)
    : M W A :=
  fun s =>
    match body s with
    | (Raise e, s1) =>
        match handler s1 with
        | (Ok _, s2) => (Raise e, s2)
        | (Raise e', s2) => (Raise e', s2)
        | (Diverge, s2) => (Diverge, s2)
        end
    | (r, s1) => (r, s1)
    end.

Definition get_fi {W} : M W W := fun s => (Ok (fi s), s).
Definition get_mem {W} : M W memory := fun s => (Ok (mem s), s).
Definition set_mem {W} (m : memory) : M W unit :=
  fun s => (Ok tt, mk_state m (fi s) (trace s)).

(** ** Raw encodings *)

(** The bytes of an unsigned [n]-byte integer in host order. *)
Definition encode_uint (little_endian : bool) (n v : Z) : list Z :=
  let bs := (fun i => (v / 256 ^ i) mod 256) <$> seqZ 0 n in
  if little_endian then bs else reverse bs.

(** The unsigned integer a list of bytes stands for, host order. *)
Definition decode_uint (little_endian : bool) (bs : list Z) : Z :=
  foldr (fun b acc => b + 256 * acc) 0
        (if little_endian then bs else reverse bs).

Definition decode_int (little_endian : bool) (bs : list Z) : Z :=
  let u := decode_uint little_endian bs in
  let bits := 8 * Z.of_nat (length bs) in
  if bool_decide (u < 2 ^ (bits - 1)) then u else u - 2 ^ bits.

(** [numpy.arange(start, stop, step)] for a positive step *)
Definition arange (start stop step : Z) : list Z :=
  (fun k => start + k * step) <$> seqZ 0 ((stop - start + step - 1) / step).

(** [_GREY_PALETTE]: 4-byte quads of 0,v,v,v from 0,0,0,0 to
    0,255,255,255 *)
Definition _GREY_PALETTE : list Z := arange 0 0x01000000 0x00010101.

(** The raw data of a [uint32] array ([array.ctypes.data]) *)
Definition uint32_data (little_endian : bool) (xs : list Z) : list Z :=
  concat (encode_uint little_endian 4 <$> xs).

(** [ctypes.memmove(dst, src, count)] where [src] points at [bytes] *)
Definition memmove (dst : Z) (bytes : list Z) (count : Z) (m : memory)
    : memory :=
  store_elem dst (take (Z.to_nat count) bytes) m.

(** ** The metadata registries: [METADATA_MODELS], [METADATA_DATATYPE] *)

Module METADATA_MODELS.
(** [(name[5:], number)] for each [FIMD_] attribute *)
Definition models : list (string * Z) :=
  [ ("COMMENTS", 0); ("EXIF_MAIN", 1); ("EXIF_EXIF", 2); ("EXIF_GPS", 3);
    ("EXIF_MAKERNOTE", 4); ("EXIF_INTEROP", 5); ("IPTC", 6); ("XMP", 7);
    ("GEOTIFF", 8); ("ANIMATION", 9) ].
End METADATA_MODELS.

(** A registered value layout: a scalar dtype or a record of named
    scalar fields. *)
Inductive layout : Type :=
| Plain (d : dtype)
| Fields (fs : list (string * dtype)).

Module METADATA_DATATYPE.

Definition FIDT_BYTE : Z := 1.
Definition FIDT_ASCII : Z := 2.
Definition FIDT_SHORT : Z := 3.
Definition FIDT_LONG : Z := 4.
Definition FIDT_RATIONAL : Z := 5.
Definition FIDT_SBYTE : Z := 6.
Definition FIDT_UNDEFINED : Z := 7.
Definition FIDT_SSHORT : Z := 8.
Definition FIDT_SLONG : Z := 9.
Definition FIDT_SRATIONAL : Z := 10.
Definition FIDT_FLOAT : Z := 11.
Definition FIDT_DOUBLE : Z := 12.
Definition FIDT_IFD : Z := 13.
Definition FIDT_PALETTE : Z := 14.
Definition FIDT_LONG8 : Z := 16.
Definition FIDT_SLONG8 : Z := 17.
Definition FIDT_IFD8 : Z := 18.

Definition dtypes_items : list (Z * layout) :=
  [ (FIDT_BYTE, Plain uint8);
    (FIDT_SHORT, Plain uint16);
    (FIDT_LONG, Plain uint32);
    (FIDT_RATIONAL,
      Fields [("numerator", uint32); ("denominator", uint32)]);
    (FIDT_SBYTE, Plain int8);
    (FIDT_UNDEFINED, Plain uint8);
    (FIDT_SSHORT, Plain int16);
    (FIDT_SLONG, Plain int32);
    (FIDT_SRATIONAL,
      Fields [("numerator", int32); ("denominator", int32)]);
    (FIDT_FLOAT, Plain float32);
    (FIDT_DOUBLE, Plain float64);
    (FIDT_IFD, Plain uint32);
    (FIDT_PALETTE,
      Fields [("R", uint8); ("G", uint8); ("B", uint8); ("A", uint8)]);
    (FIDT_LONG8, Plain uint64);
    (FIDT_SLONG8, Plain int64);
    (FIDT_IFD8, Plain uint64) ].

Definition dtypes : gmap Z layout := list_to_map dtypes_items.

End METADATA_DATATYPE.

(** A decoded element: an integer, a float kept as its bit pattern, or a
    record of named integer fields. *)
Inductive scalar : Type :=
| SInt (z : Z)
| SFloat (bits : Z)
| SRecord (fields : list (string * Z)).

(** A decoded tag value *)
Inductive tagval : Type :=
| Text (s : string)
| Scalar (x : scalar)
| Sequence (xs : list scalar).

Definition is_signed (d : dtype) : bool :=
  match d with
  | int8 | int16 | int32 | int64 => true
  | _ => false
  end.

Definition is_float (d : dtype) : bool :=
  match d with
  | float32 | float64 | complex128 => true
  | _ => false
  end.

(** The number a scalar's bytes stand for (the bit pattern for floats). *)
Definition decode_num (little_endian : bool) (d : dtype) (bs : list Z) : Z :=
  if is_signed d then decode_int little_endian bs
  else decode_uint little_endian bs.

Fixpoint decode_fields (little_endian : bool) (fs : list (string * dtype))
    (bs : list Z) : list (string * Z) :=
  match fs with
  | [] => []
  | (name, d) :: fs' =>
      let n := Z.to_nat (itemsize d) in
      (name, decode_num little_endian d (take n bs))
        :: decode_fields little_endian fs' (drop n bs)
  end.

Definition layout_itemsize (l : layout) : Z :=
  match l with
  | Plain d => itemsize d
  | Fields fs => foldr (fun '(_, d) acc => itemsize d + acc) 0 fs
  end.

Definition decode_scalar (little_endian : bool) (l : layout) (bs : list Z)
    : scalar :=
  match l with
  | Plain d =>
      if is_float d then SFloat (decode_uint little_endian bs)
      else SInt (decode_num little_endian d bs)
  | Fields fs => SRecord (decode_fields little_endian fs bs)
  end.

(** [numpy.fromstring(bytes, dtype=l)] *)
Definition fromstring (little_endian : bool) (bs : list Z) (l : layout)
    : outcome (list scalar) :=
  let sz := Z.to_nat (layout_itemsize l) in
  if bool_decide ((length bs mod sz)%nat = 0%nat) then
    Ok ((fun k => decode_scalar little_endian l (take sz (drop (k * sz) bs)))
          <$> seq 0 (length bs / sz))
  else Raise (ValueError msg_fromstring).

(** [.value] of a ctypes char array: the bytes before the first NUL *)
Fixpoint c_string_value (bs : list Z) : list Z :=
  match bs with
  | [] => []
  | b :: bs' => if bool_decide (b = 0) then [] else b :: c_string_value bs'
  end.

(** [asstr]: bytes to text, one character per byte *)
Definition asstr (bs : list Z) : string :=
  foldr (fun b s => String (ascii_of_N (Z.to_N b)) s) EmptyString bs.

(** ** The module's functions *)

Section Bridge.

Context {W : Type} {api : FreeImageAPI W}.

Definition log (c : call) : M W unit :=
  fun s => (Ok tt, mk_state (mem s) (fi s) (trace s ++ [c])).

(** *** The decoder calls, as the module issues them *)

Definition call_Load (ftype : Z) (filename : string) (flags : Z) : M W Z :=
  fun s =>
    let '(b, m', d') := FreeImage_Load ftype filename flags (mem s) (fi s) in
    (Ok b, mk_state m' d' (trace s ++ [Call_Load ftype filename flags b])).

Definition call_Unload (bitmap : Z) : M W unit :=
  fun s =>
    (Ok tt, mk_state (mem s) (FreeImage_Unload bitmap (fi s))
                     (trace s ++ [Call_Unload bitmap])).

Definition call_AllocateT (fi_type width height bpp : Z) : M W Z :=
  fun s =>
    let '(b, m', d') :=
      FreeImage_AllocateT fi_type width height bpp (mem s) (fi s) in
    (Ok b, mk_state m' d'
             (trace s ++ [Call_AllocateT fi_type width height bpp b])).

Definition call_Save (ftype bitmap : Z) (filename : string) (flags : Z)
    : M W bool :=
  fun s =>
    let '(res, d') :=
      FreeImage_Save ftype bitmap filename flags (mem s) (fi s) in
    (Ok res, mk_state (mem s) d'
               (trace s ++ [Call_Save ftype bitmap filename flags res])).

Definition call_OpenMultiBitmap (ftype : Z) (filename : string)
    (create_new read_only keep_cache_in_memory : bool) (flags : Z) : M W Z :=
  fun s =>
    let '(mb, d') :=
      FreeImage_OpenMultiBitmap ftype filename create_new read_only
                                keep_cache_in_memory flags (fi s) in
    (Ok mb, mk_state (mem s) d'
              (trace s ++ [Call_OpenMultiBitmap ftype filename mb])).

Definition call_LockPage (multibitmap page : Z) : M W Z :=
  fun s =>
    let '(b, m', d') := FreeImage_LockPage multibitmap page (mem s) (fi s) in
    (Ok b, mk_state m' d' (trace s ++ [Call_LockPage multibitmap page b])).

Definition call_UnlockPage (multibitmap bitmap : Z) (changed : bool)
    : M W unit :=
  fun s =>
    (Ok tt, mk_state (mem s)
              (FreeImage_UnlockPage multibitmap bitmap changed (fi s))
              (trace s ++ [Call_UnlockPage multibitmap bitmap changed])).

Definition call_AppendPage (multibitmap bitmap : Z) : M W unit :=
  fun s =>
    (Ok tt, mk_state (mem s)
              (FreeImage_AppendPage multibitmap bitmap (mem s) (fi s))
              (trace s ++ [Call_AppendPage multibitmap bitmap])).

Definition call_CloseMultiBitmap (multibitmap flags : Z) : M W unit :=
  fun s =>
    (Ok tt, mk_state (mem s)
              (FreeImage_CloseMultiBitmap multibitmap flags (fi s))
              (trace s ++ [Call_CloseMultiBitmap multibitmap flags])).

Definition call_FindFirstMetadata (model bitmap tag : Z) : M W (Z * Z) :=
  fun s =>
    let '(mdhandle, tag', d') :=
      FreeImage_FindFirstMetadata model bitmap tag (fi s) in
    (Ok (mdhandle, tag'),
     mk_state (mem s) d'
       (trace s ++ [Call_FindFirstMetadata model bitmap mdhandle])).

Definition call_FindNextMetadata (mdhandle tag : Z) : M W (bool * Z) :=
  fun s =>
    let '(more, tag', d') := FreeImage_FindNextMetadata mdhandle tag (fi s) in
    (Ok (more, tag'),
     mk_state (mem s) d' (trace s ++ [Call_FindNextMetadata mdhandle more])).

Definition call_FindCloseMetadata (mdhandle : Z) : M W unit :=
  fun s =>
    (Ok tt, mk_state (mem s) (FreeImage_FindCloseMetadata mdhandle (fi s))
              (trace s ++ [Call_FindCloseMetadata mdhandle])).

(** *** [FI_TYPES.get_type_and_shape] *)

Definition get_type_and_shape (bitmap : Z) (d : W)
    : outcome (dtype * list Z) :=
  let w := FreeImage_GetWidth bitmap d in
  let h := FreeImage_GetHeight bitmap d in
  let fi_type := FreeImage_GetImageType bitmap d in
  if bool_decide (fi_type = 0) then Raise (ValueError msg_pixel_type)
  else
    match FI_TYPES.dtypes !! fi_type with
    | None => Raise (KeyError fi_type)
    | Some dt =>
        if bool_decide (fi_type = FI_TYPES.FIT_BITMAP) then
          let bpp := FreeImage_GetBPP bitmap d in
          if bool_decide (bpp = 8) then Ok (dt, [w; h])
          else if bool_decide (bpp = 24) then Ok (dt, [w; h; 3])
          else if bool_decide (bpp = 32) then Ok (dt, [w; h; 4])
          else Raise (ValueError msg_bpp)
        else
          match FI_TYPES.extra_dims !! fi_type with
          | None => Raise (KeyError fi_type)
          | Some extra => Ok (dt, ([w; h] ++ extra)%list)
          end
    end.

(** *** [_wrap_bitmap_bits_in_array] *)

(** The view [numpy.ndarray] builds over the bits of the bitmap.  Two
    refusals on the way are no part of this definition: [from_address]
    raises TypeError for the [None] that ctypes returns when
    [FreeImage_GetBits] is null (a bitmap loaded without pixels), and
    numpy raises ValueError for a view that does not fit its buffer of
    [height * pitch] bytes (no row, or a pitch shorter than a row).  The
    definition gives the view where one is built. *)
Definition _wrap_bitmap_bits_in_array (bitmap : Z) (shape : list Z)
    (dt : dtype) (d : W) : outcome view :=
  let pitch := FreeImage_GetPitch bitmap d in
  match shape !! 1%nat with
  | None => Raise (IndexError "tuple index out of range")
  | Some height =>
      let byte_size := height * pitch in
      let itemsize := itemsize dt in
      let strides :=
        match shape with
        | [_; _; nchannels] => [nchannels * itemsize; - pitch; itemsize]
        | _ => [itemsize; - pitch]
        end in
      let bits := FreeImage_GetBits bitmap d in
      if bool_decide (length strides = length shape) then
        Ok {| v_bits := bits; v_byte_size := byte_size;
              v_offset := pitch * (height - 1);
              v_shape := shape; v_strides := strides; v_dtype := dt |}
      else Raise (ValueError msg_strides)
  end.

(** *** [_array_from_bitmap] *)

(** The red/blue exchange of the read path, done through the view on the
    decoder's memory: [b = array[:, :, 0].copy()],
    [array[:, :, 0] = array[:, :, 2]], [array[:, :, 2] = b]. *)
Definition swap_channels_0_2 (array : view) : M W unit :=
  i0 <~ lift (channel_indices (v_shape array) 0);;
  m <~ get_mem;;
  let b := view_get array m <$> i0 in
  i2 <~ lift (channel_indices (v_shape array) 2);;
  let c2 := view_get array m <$> i2 in
  set_mem (assign array i0 c2 m);;;
  m' <~ get_mem;;
  set_mem (assign array i2 b m').

Definition _array_from_bitmap (bitmap : Z) : M W ndarray :=
  d <~ get_fi;;
  ts <~ lift (get_type_and_shape bitmap d);;
  let '(dt, shape) := ts in
  array <~ lift (_wrap_bitmap_bits_in_array bitmap shape dt d);;
  (if bool_decide (length shape = 3%nat) && FreeImage_IsLittleEndian
      && bool_decide (dt = uint8)
   then swap_channels_0_2 array
   else ret tt);;;
  m <~ get_mem;;
  ret (view_copy array m).

(** *** [_process_bitmap], [read] *)

Definition _process_bitmap {A} (filename : string) (flags : Z)
    (process_func : Z -> M W A) : M W A :=
  d <~ get_fi;;
  let ftype := FreeImage_GetFileType filename d in
  if bool_decide (ftype = -1) then raise (ValueError msg_read_type)
  else
    bitmap <~ call_Load ftype filename flags;;
    if bool_decide (bitmap = 0) then raise (ValueError msg_load)
    else try_finally (process_func bitmap) (call_Unload bitmap).

Definition read (filename : string) (flags : Z) : M W ndarray :=
  _process_bitmap filename flags _array_from_bitmap.

(** *** [_process_multipage], [read_multipage] *)

Fixpoint pages_loop {A} (multibitmap : Z) (process_func : Z -> M W A)
    (pages : list Z) (out : list A) : M W (list A) :=
  match pages with
  | [] => ret out
  | i :: rest =>
      bitmap <~ call_LockPage multibitmap i;;
      if bool_decide (bitmap = 0) then raise (ValueError msg_lock_page)
      else
        r <~ try_finally (process_func bitmap)
                         (call_UnlockPage multibitmap bitmap false);;
        pages_loop multibitmap process_func rest (out ++ [r])
  end.

Definition _process_multipage {A} (filename : string) (flags : Z)
    (process_func : Z -> M W A) : M W (list A) :=
  d <~ get_fi;;
  let ftype := FreeImage_GetFileType filename d in
  if bool_decide (ftype = -1) then raise (ValueError msg_read_type)
  else
    multibitmap <~ call_OpenMultiBitmap ftype filename false true true flags;;
    if bool_decide (multibitmap = 0)
    then raise (ValueError msg_open_multi)
    else
      try_finally
        (d' <~ get_fi;;
         let pages := FreeImage_GetPageCount multibitmap d' in
         pages_loop multibitmap process_func (seqZ 0 pages) [])
        (call_CloseMultiBitmap multibitmap 0).

Definition read_multipage (filename : string) (flags : Z)
    : M W (list ndarray) :=
  _process_multipage filename flags _array_from_bitmap.

(** *** [_read_metadata] *)

(** The decoding of the current tag (the body of the [while] loop up
    to the dictionary store).  [ctypes.c_char * byte_size] refuses a
    negative length, and [from_address] refuses the [None] that ctypes
    returns for a null value pointer; both come before the test of the
    tag type. *)
Definition decode_tag (tag : Z) (d : W) (m : memory)
    : outcome (string * tagval) :=
  let tag_name := FreeImage_GetTagKey tag d in
  let tag_type := FreeImage_GetTagType tag d in
  let byte_size := FreeImage_GetTagLength tag d in
  if bool_decide (byte_size < 0) then Raise (ValueError msg_array_length)
  else
    let value := FreeImage_GetTagValue tag d in
    if bool_decide (value = 0) then Raise (TypeError msg_from_address)
    else
      let tag_str := load_elem m value byte_size in
      if bool_decide (tag_type = METADATA_DATATYPE.FIDT_ASCII) then
        Ok (tag_name, Text (asstr (c_string_value tag_str)))
      else
        match METADATA_DATATYPE.dtypes !! tag_type with
        | None => Raise (KeyError tag_type)
        | Some l =>
            match fromstring FreeImage_IsLittleEndian tag_str l with
            | Ok [x] => Ok (tag_name, Scalar x)
            | Ok xs => Ok (tag_name, Sequence xs)
            | Raise e => Raise e
            | Diverge => Diverge
            end
        end.

(** [while more: ...]; [fuel] bounds the number of iterations. *)
Fixpoint tags_loop (fuel : nat) (model_name : string) (mdhandle tag : Z)
    (metadata : gmap (string * string) tagval)
    : M W (Z * gmap (string * string) tagval) :=
  match fuel with
  | O => lift Diverge
  | S fuel' =>
      d <~ get_fi;;
      m <~ get_mem;;
      kv <~ lift (decode_tag tag d m);;
      let metadata' := <[(model_name, kv.1) := kv.2]> metadata in
      r <~ call_FindNextMetadata mdhandle tag;;
      if r.1 then tags_loop fuel' model_name mdhandle r.2 metadata'
      else ret (r.2, metadata')
  end.

Fixpoint models_loop (fuel : nat) (bitmap : Z) (models : list (string * Z))
    (tag : Z) (metadata : gmap (string * string) tagval)
    : M W (gmap (string * string) tagval) :=
  match models with
  | [] => ret metadata
  | (model_name, number) :: rest =>
      r <~ call_FindFirstMetadata number bitmap tag;;
      let mdhandle := r.1 in
      if bool_decide (mdhandle = 0)
      then models_loop fuel bitmap rest r.2 metadata
      else
        r' <~ tags_loop fuel model_name mdhandle r.2 metadata;;
        call_FindCloseMetadata mdhandle;;;
        models_loop fuel bitmap rest r'.1 r'.2
  end.

Definition _read_metadata (fuel : nat) (bitmap : Z)
    : M W (gmap (string * string) tagval) :=
  models_loop fuel bitmap METADATA_MODELS.models 0 ∅.

(** [read_metadata]; [IO_FLAGS.FIF_LOAD_NOPIXELS] is [0x8000]. *)
Definition FIF_LOAD_NOPIXELS : Z := 0x8000.

Definition read_metadata (fuel : nat) (filename : string)
    : M W (gmap (string * string) tagval) :=
  _process_bitmap filename FIF_LOAD_NOPIXELS (_read_metadata fuel).

Definition read_multipage_metadata (fuel : nat) (filename : string)
    : M W (list (gmap (string * string) tagval)) :=
  _process_multipage filename FIF_LOAD_NOPIXELS (_read_metadata fuel).

(** *** [_array_to_bitmap] *)

(** [nchannels]: 1 for a 2-D shape, [shape[2]] for a 3-D shape; no other
    rank is permitted. *)
Definition nchannels_of (shape : list Z) : option Z :=
  match shape with
  | [_; _] => Some 1
  | [_; _; n] => Some n
  | _ => None
  end.

Definition copy_into_bitmap (wrapped_array : view) (array : ndarray)
    : M W unit :=
  let shape := a_shape array in
  if bool_decide (length shape = 3%nat) && FreeImage_IsLittleEndian
     && bool_decide (a_dtype array = uint8)
  then
    s2 <~ lift (channel_indices shape 2);;
    d0 <~ lift (channel_indices (v_shape wrapped_array) 0);;
    m <~ get_mem;;
    set_mem (assign wrapped_array d0 (item array <$> s2) m);;;
    s1 <~ lift (channel_indices shape 1);;
    d1 <~ lift (channel_indices (v_shape wrapped_array) 1);;
    m <~ get_mem;;
    set_mem (assign wrapped_array d1 (item array <$> s1) m);;;
    s0 <~ lift (channel_indices shape 0);;
    d2 <~ lift (channel_indices (v_shape wrapped_array) 2);;
    m <~ get_mem;;
    set_mem (assign wrapped_array d2 (item array <$> s0) m);;;
    if bool_decide (shape !! 2%nat = Some 4) then
      s3 <~ lift (channel_indices shape 3);;
      d3 <~ lift (channel_indices (v_shape wrapped_array) 3);;
      m <~ get_mem;;
      set_mem (assign wrapped_array d3 (item array <$> s3) m)
    else ret tt
  else
    m <~ get_mem;;
    set_mem (assign wrapped_array (indices (v_shape wrapped_array))
                    (a_data array) m).

Definition install_palette (bitmap : Z) : M W unit :=
  d <~ get_fi;;
  let palette := FreeImage_GetPalette bitmap d in
  if bool_decide (palette = 0) then raise (RuntimeError msg_palette)
  else
    m <~ get_mem;;
    set_mem (memmove palette
               (uint32_data FreeImage_IsLittleEndian _GREY_PALETTE) 1024 m).

(** The body of the [try:] of [_array_to_bitmap]: wrap the new bitmap,
    copy the array into it, install the palette. *)
Definition fill_bitmap (array : ndarray) (bitmap fi_type : Z) : M W (Z * Z) :=
  let shape := a_shape array in
  let dt := a_dtype array in
  d <~ get_fi;;
  wrapped_array <~ lift (_wrap_bitmap_bits_in_array bitmap shape dt d);;
  copy_into_bitmap wrapped_array array;;;
  (if bool_decide (length shape = 2%nat) && bool_decide (dt = uint8)
   then install_palette bitmap
   else ret tt);;;
  ret (bitmap, fi_type).

Definition _array_to_bitmap (array : ndarray) : M W (Z * Z) :=
  let shape := a_shape array in
  let dt := a_dtype array in
  match nchannels_of shape with
  | None => raise (ValueError msg_shape)
  | Some nchannels =>
      match FI_TYPES.fi_types !! (dt, nchannels) with
      | None => raise (ValueError msg_dtype)
      | Some fi_type =>
          let bpp := 8 * itemsize dt * nchannels in
          let width := default 0 (shape !! 0%nat) in
          let height := default 0 (shape !! 1%nat) in
          bitmap <~ call_AllocateT fi_type width height bpp;;
          if bool_decide (bitmap = 0)
          then raise (RuntimeError msg_alloc)
          else
            try_except_reraise (fill_bitmap array bitmap fi_type)
                               (call_Unload bitmap)
      end
  end.

(** *** [write], [write_multipage] *)

Definition write (array : ndarray) (filename : string) (flags : Z)
    : M W unit :=
  let ftype := FreeImage_GetFIFFromFilename filename in
  if bool_decide (ftype = -1) then raise (ValueError msg_write_type)
  else
    bt <~ _array_to_bitmap array;;
    let '(bitmap, fi_type) := bt in
    try_finally
      (d <~ get_fi;;
       let can_write :=
         if bool_decide (fi_type = FI_TYPES.FIT_BITMAP)
         then FreeImage_FIFSupportsExportBPP ftype
                (FreeImage_GetBPP bitmap d)
         else FreeImage_FIFSupportsExportType ftype fi_type in
       if negb can_write then raise (TypeError msg_export)
       else
         res <~ call_Save ftype bitmap filename flags;;
         if negb res then raise (RuntimeError msg_save) else ret tt)
      (call_Unload bitmap).

Fixpoint append_loop (multibitmap : Z) (arrays : list ndarray) : M W unit :=
  match arrays with
  | [] => ret tt
  | array :: rest =>
      bt <~ _array_to_bitmap array;;
      call_AppendPage multibitmap bt.1;;;
      append_loop multibitmap rest
  end.

Definition write_multipage (arrays : list ndarray) (filename : string)
    (flags : Z) : M W unit :=
  let ftype := FreeImage_GetFIFFromFilename filename in
  if bool_decide (ftype = -1) then raise (ValueError msg_read_type)
  else
    multibitmap <~ call_OpenMultiBitmap ftype filename true false true 0;;
    if bool_decide (multibitmap = 0)
    then raise (ValueError "Could not open %s for writing multi-page image.")
    else
      try_finally (append_loop multibitmap arrays)
                  (call_CloseMultiBitmap multibitmap flags).

End Bridge.

(** ** Loading the library: [load_freeimage] *)

(** What importing the module can raise while it looks for the shared
    library. *)
Inductive import_exn : Type :=
| ImportRuntimeError (msg : string)
| ImportNameError (name : string)
| ImportIndexError (msg : string).

(** The calls [load_freeimage] makes on the loader and on the library. *)
Inductive loader_call : Type :=
| Call_LoadLibrary (lib : string)
| Call_SetOutputMessage.

Definition nl : string := String "010"%char EmptyString.

(** The separator the failure message is joined with: the adjacent
    string literals before [.join] are one literal. *)
Definition msg_load_errors : string :=
  "One or more FreeImage libraries were found, but "
  +:+ "could not be loaded due to the following errors:" +:+ nl
  +:+ nl +:+ nl.

Section Loader.

(** A loaded library, and [loader.LoadLibrary]: the library, or the
    [args] of the exception raised. *)
Variable library : Type.
Variable LoadLibrary : string -> library + list string.

(** [for lib in possible_freeimage_libs: try: ... break except: ...] *)
Fixpoint try_libs (libs : list string) (errors : list (string * list string))
    (calls : list loader_call)
    : option library * list (string * list string) * list loader_call :=
  match libs with
  | [] => (None, errors, calls)
  | lib :: rest =>
      let calls' := calls ++ [Call_LoadLibrary lib] in
      match LoadLibrary lib with
      | inl freeimage => (Some freeimage, errors, calls')
      | inr e_value => try_libs rest (errors ++ [(lib, e_value)]) calls'
      end
  end.

(** ['%s:\n%s' % (l, str(e.args[0])) for l, e in errors] *)
Fixpoint err_txt (errors : list (string * list string))
    : import_exn + list string :=
  match errors with
  | [] => inr []
  | (l, args) :: rest =>
      match args with
      | [] => inl (ImportIndexError "tuple index out of range")
      | a :: _ =>
          match err_txt rest with
          | inl e => inl e
          | inr lines => inr ((l +:+ ":" +:+ nl +:+ a) :: lines)
          end
      end
  end.

Definition load_freeimage (possible_freeimage_libs : list string)
    : (import_exn + library) * list loader_call :=
  let '(freeimage, errors, calls) := try_libs possible_freeimage_libs [] [] in
  match freeimage with
  | None =>
      match errors with
      | _ :: _ =>
          match err_txt errors with
          | inl e => (inl e, calls)
          | inr lines =>
              (inl (ImportRuntimeError (String.concat msg_load_errors lines)),
               calls)
          end
      | [] => (inl (ImportNameError "lib_dirs"), calls)
      end
  | Some freeimage => (inr freeimage, calls ++ [Call_SetOutputMessage])
  end.

(** a candidate [LoadLibrary] raises on *)
Definition fails (lib : string) : Prop :=
  exists args, LoadLibrary lib = inr args.

End Loader.

Arguments try_libs {library} LoadLibrary libs errors calls.
Arguments load_freeimage {library} LoadLibrary possible_freeimage_libs.
Arguments fails {library} LoadLibrary lib.

(** ** A reference decoder

    A small in-memory implementation of the interface: bitmaps are
    headers with a pixel region in process memory, files are kept on a
    simulated disk without loss, tags are records.  It is the instance at
    which the theorems below are exercised. *)

Module Ref.

Record header : Type := mk_header {
  h_type : Z; h_width : Z; h_height : Z; h_bpp : Z;
  h_bits : Z; h_palette : Z
}.

Record tag : Type := mk_tag {
  t_key : string; t_type : Z; t_length : Z; t_value : Z
}.

(** A stored image: its header, the memory its pixels were taken from,
    and the tag pointers of each metadata model. *)
Record image : Type := mk_image {
  i_header : header;
  i_pixels : memory;
  i_tags : list (Z * list Z)
}.

Record world : Type := mk_world {
  disk : list (string * (Z * list image));
  live : list (Z * (header * list (Z * list Z)));
  next : Z;
  sessions : list (Z * list image);
  tags : list (Z * tag);
  cursors : list (Z * list Z)
}.

Fixpoint assoc {K V : Type} `{EqDecision K} (k : K) (l : list (K * V))
    : option V :=
  match l with
  | [] => None
  | (k', v) :: l' => if decide (k = k') then Some v else assoc k l'
  end.

Definition remove {K V : Type} `{EqDecision K} (k : K) (l : list (K * V))
    : list (K * V) :=
  filter (fun kv => kv.1 <> k) l.

(** FreeImage's [CalculatePitch]: the line rounded up to 4 bytes *)
Definition pitch_of (hd : header) : Z :=
  (h_width hd * h_bpp hd + 31) / 32 * 4.

Definition bits_of (b : Z) : Z := b * 2 ^ 32 + 1024.
Definition palette_of (b bpp : Z) : Z :=
  if bool_decide (bpp <= 8) then b * 2 ^ 32 else 0.

Definition relocate (hd : header) (b : Z) : header :=
  mk_header (h_type hd) (h_width hd) (h_height hd) (h_bpp hd)
            (bits_of b) (palette_of b (h_bpp hd)).

(** copy the pixel region of a stored image to the region of [hd'] *)
Definition blit (img : image) (hd' : header) (m : memory) : memory :=
  fun a =>
    if bool_decide (h_bits hd' <= a < h_bits hd' + pitch_of hd' * h_height hd')
    then i_pixels img (a - h_bits hd' + h_bits (i_header img))
    else m a.

Definition with_live (d : world) l n : world :=
  mk_world (disk d) l n (sessions d) (tags d) (cursors d).

(** the next handle; never null *)
Definition fresh (d : world) : Z := Z.max 1 (next d).

Definition open_image (img : image) (m : memory) (d : world)
    : Z * memory * world :=
  let b := fresh d in
  let hd' := relocate (i_header img) b in
  (b, blit img hd' m, with_live d ((b, (hd', i_tags img)) :: live d) (b + 1)).

Definition GetFileType (filename : string) (d : world) : Z :=
  match assoc filename (disk d) with
  | Some (ft, _) => ft
  | None => -1
  end.

Fixpoint ends_with (suffix s : string) : bool :=
  if String.eqb suffix s then true
  else match s with
       | EmptyString => false
       | String _ s' => ends_with suffix s'
       end.

Definition GetFIFFromFilename (filename : string) : Z :=
  if ends_with ".png" filename then 13
  else if ends_with ".tif" filename then 18
  else -1.

Definition Load (ftype : Z) (filename : string) (flags : Z) (m : memory)
    (d : world) : Z * memory * world :=
  match assoc filename (disk d) with
  | Some (_, img :: _) => open_image img m d
  | _ => (0, m, d)
  end.

Definition Unload (b : Z) (d : world) : world :=
  with_live d (remove b (live d)) (next d).

Definition AllocateT (t w h bpp : Z) (m : memory) (d : world)
    : Z * memory * world :=
  if bool_decide (0 < w) && bool_decide (0 < h)
  then
    let b := fresh d in
    let hd := mk_header t w h bpp (bits_of b) (palette_of b bpp) in
    (b,
     (fun a => if bool_decide (h_bits hd <= a < h_bits hd + pitch_of hd * h)
               then 0 else m a),
     with_live d ((b, (hd, [])) :: live d) (b + 1))
  else (0, m, d).

Definition Save (ftype b : Z) (filename : string) (flags : Z) (m : memory)
    (d : world) : bool * world :=
  match assoc b (live d) with
  | Some (hd, ts) =>
      (true,
       mk_world ((filename, (ftype, [mk_image hd m ts])) :: disk d)
                (live d) (next d) (sessions d) (tags d) (cursors d)
               )
  | None => (false, d)
  end.

Definition SupportsExportBPP (ftype bpp : Z) : bool :=
  bool_decide (bpp = 8) || bool_decide (bpp = 24) || bool_decide (bpp = 32).

Definition SupportsExportType (ftype t : Z) : bool :=
  bool_decide (ftype = 18).

Definition hfield (f : header -> Z) (b : Z) (d : world) : Z :=
  match assoc b (live d) with
  | Some (hd, _) => f hd
  | None => 0
  end.

Definition OpenMultiBitmap (ftype : Z) (filename : string)
    (create_new read_only keep_cache : bool) (flags : Z) (d : world)
    : Z * world :=
  let pages :=
    if create_new then Some []
    else match assoc filename (disk d) with
         | Some (_, imgs) => Some imgs
         | None => None
         end in
  match pages with
  | Some imgs =>
      (fresh d,
       mk_world (disk d) (live d) (fresh d + 1)
                ((fresh d, imgs) :: sessions d) (tags d) (cursors d)
               )
  | None => (0, d)
  end.

Definition GetPageCount (mb : Z) (d : world) : Z :=
  match assoc mb (sessions d) with
  | Some imgs => Z.of_nat (length imgs)
  | None => 0
  end.

Definition LockPage (mb i : Z) (m : memory) (d : world)
    : Z * memory * world :=
  match assoc mb (sessions d) with
  | Some imgs =>
      match imgs !! Z.to_nat i with
      | Some img => open_image img m d
      | None => (0, m, d)
      end
  | None => (0, m, d)
  end.

Definition UnlockPage (mb b : Z) (changed : bool) (d : world) : world :=
  Unload b d.

Definition AppendPage (mb b : Z) (m : memory) (d : world) : world :=
  match assoc mb (sessions d), assoc b (live d) with
  | Some imgs, Some (hd, ts) =>
      mk_world (disk d) (live d) (next d)
               ((mb, (imgs ++ [mk_image hd m ts])%list) :: remove mb (sessions d))
               (tags d) (cursors d)
  | _, _ => d
  end.

Definition CloseMultiBitmap (mb flags : Z) (d : world) : world :=
  mk_world (disk d) (live d) (next d) (remove mb (sessions d)) (tags d)
           (cursors d).

Definition with_cursors (d : world) cs n : world :=
  mk_world (disk d) (live d) n (sessions d) (tags d) cs.

Definition FindFirstMetadata (model b tag : Z) (d : world) : Z * Z * world :=
  match assoc b (live d) with
  | Some (_, ts) =>
      match assoc model ts with
      | Some (t :: rest) =>
          (fresh d, t,
           with_cursors d ((fresh d, rest) :: cursors d) (fresh d + 1))
      | _ => (0, tag, d)
      end
  | None => (0, tag, d)
  end.

Definition FindNextMetadata (mdhandle tag : Z) (d : world)
    : bool * Z * world :=
  match assoc mdhandle (cursors d) with
  | Some (t :: rest) =>
      (true, t,
       with_cursors d ((mdhandle, rest) :: remove mdhandle (cursors d)) (next d))
  | _ => (false, tag, d)
  end.

Definition FindCloseMetadata (mdhandle : Z) (d : world) : world :=
  with_cursors d (remove mdhandle (cursors d)) (next d).

Definition tfield {A} (f : tag -> A) (dflt : A) (t : Z) (d : world) : A :=
  match assoc t (tags d) with
  | Some tg => f tg
  | None => dflt
  end.

(** The decoder of a little-endian or a big-endian runtime. *)
Definition api (le : bool) : FreeImageAPI world := {|
  FreeImage_IsLittleEndian := le;
  FreeImage_GetFileType := GetFileType;
  FreeImage_GetFIFFromFilename := GetFIFFromFilename;
  FreeImage_Load := Load;
  FreeImage_Unload := Unload;
  FreeImage_AllocateT := AllocateT;
  FreeImage_Save := Save;
  FreeImage_FIFSupportsExportBPP := SupportsExportBPP;
  FreeImage_FIFSupportsExportType := SupportsExportType;
  FreeImage_GetWidth := hfield h_width;
  FreeImage_GetHeight := hfield h_height;
  FreeImage_GetImageType := hfield h_type;
  FreeImage_GetBPP := hfield h_bpp;
  FreeImage_GetPitch := hfield pitch_of;
  FreeImage_GetBits := hfield h_bits;
  FreeImage_GetPalette := hfield h_palette;
  FreeImage_OpenMultiBitmap := OpenMultiBitmap;
  FreeImage_GetPageCount := GetPageCount;
  FreeImage_LockPage := LockPage;
  FreeImage_UnlockPage := UnlockPage;
  FreeImage_AppendPage := AppendPage;
  FreeImage_CloseMultiBitmap := CloseMultiBitmap;
  FreeImage_FindFirstMetadata := FindFirstMetadata;
  FreeImage_FindNextMetadata := FindNextMetadata;
  FreeImage_FindCloseMetadata := FindCloseMetadata;
  FreeImage_GetTagKey := tfield t_key "";
  FreeImage_GetTagType := tfield t_type 0;
  FreeImage_GetTagLength := tfield t_length 0;
  FreeImage_GetTagValue := tfield t_value 0
|}.

Definition empty_world : world := mk_world [] [] 1 [] [] [].

Definition zero_memory : memory := fun _ => 0.

Definition start (d : world) (m : memory) : state world := mk_state m d [].

End Ref.

(** ** Concrete scenarios on the reference decoder *)

Module Scenario.

(** A 2x2 RGB file: stored bottom-up, blue first, rows padded to 8
    bytes. *)
Definition rgb_pixels : memory :=
  store_elem 5000 [6; 5; 4; 12; 11; 10; 0; 0; 3; 2; 1; 9; 8; 7; 0; 0]
             Ref.zero_memory.

Definition rgb_image : Ref.image :=
  Ref.mk_image (Ref.mk_header 1 2 2 24 5000 0) rgb_pixels [].

(** a page the bridge cannot convert: a 16-bit-per-pixel bitmap *)
Definition odd_image : Ref.image :=
  Ref.mk_image (Ref.mk_header 1 2 2 16 5000 0) rgb_pixels [].

(** a file whose EXIF_MAIN model holds one tag of type code 0
    (FreeImage's FIDT_NOTYPE) *)
Definition mystery_image : Ref.image :=
  Ref.mk_image (Ref.mk_header 1 2 2 8 5000 0) rgb_pixels [(1, [100])].

(** a file with an ASCII, a rational and two SHORT tags *)
Definition tagged_image : Ref.image :=
  Ref.mk_image (Ref.mk_header 1 2 2 8 5000 0) rgb_pixels
               [(0, [101]); (1, [102; 103; 104])].

Definition tags0 : list (Z * Ref.tag) :=
  [ (100, Ref.mk_tag "Mystery" 0 2 7000);
    (101, Ref.mk_tag "Artist" 2 5 7100);
    (102, Ref.mk_tag "XResolution" 5 8 7200);
    (103, Ref.mk_tag "Orientation" 3 2 7300);
    (104, Ref.mk_tag "BitsPerSample" 3 6 7400) ].

Definition disk0 : list (string * (Z * list Ref.image)) :=
  [ ("rgb.png", (13, [rgb_image]));
    ("stack.tif", (18, [rgb_image; odd_image; rgb_image]));
    ("mystery.tif", (18, [mystery_image]));
    ("tagged.tif", (18, [tagged_image])) ].

Definition world0 : Ref.world := Ref.mk_world disk0 [] 1 [] tags0 [].

(** "Zach" and its terminator, 72/1, 1, and (8, 8, 8) *)
Definition memory0 : memory :=
  store_elem 7100 [90; 97; 99; 104; 0]
    (store_elem 7200 [72; 0; 0; 0; 1; 0; 0; 0]
       (store_elem 7300 [1; 0]
          (store_elem 7400 [8; 0; 8; 0; 8; 0] Ref.zero_memory))).

Definition s0 : state Ref.world := Ref.start world0 memory0.

(** two signed tags, an SLONG and an SRATIONAL, a SHORT tag whose value
    pointer is null and one whose length is negative *)
Definition signed_tags : list (Z * Ref.tag) :=
  [ (105, Ref.mk_tag "Offset" 9 4 7500);
    (106, Ref.mk_tag "Bias" 10 8 7600);
    (107, Ref.mk_tag "Empty" 3 2 0);
    (108, Ref.mk_tag "Short" 3 (-2) 7700) ].

Definition world_signed : Ref.world :=
  Ref.mk_world disk0 [] 1 [] signed_tags [].

(** -2, and -1/3 *)
Definition memory_signed : memory :=
  store_elem 7500 [254; 255; 255; 255]
    (store_elem 7600 [255; 255; 255; 255; 3; 0; 0; 0] Ref.zero_memory).

(** [s0] after [FreeImage_Load] of the RGB file: bitmap 1 is live *)
Definition s_rgb : state Ref.world :=
  (call_Load (api := Ref.api true) 13 "rgb.png" 0 s0).2.

Definition grey_2x2 : ndarray :=
  mk_ndarray uint8 [2; 2] [[1]; [2]; [3]; [4]].

Definition grey_2x2x1 : ndarray :=
  mk_ndarray uint8 [2; 2; 1] [[1]; [2]; [3]; [4]].

Definition rgb_2x2 : ndarray :=
  mk_ndarray uint8 [2; 2; 3]
    [[1]; [2]; [3]; [4]; [5]; [6]; [7]; [8]; [9]; [10]; [11]; [12]].

Definition u16_2x2x1 : ndarray :=
  mk_ndarray uint16 [2; 2; 1] [[1; 0]; [2; 0]; [3; 0]; [4; 0]].

Definition i8_2x2 : ndarray :=
  mk_ndarray int8 [2; 2] [[1]; [2]; [3]; [4]].

(** [s0] after [FreeImage_Load] of the tagged file with
    [FIF_LOAD_NOPIXELS]: bitmap 1 is live *)
Definition s_tagged : state Ref.world :=
  (call_Load (api := Ref.api true) 18 "tagged.tif" FIF_LOAD_NOPIXELS s0).2.

(** a loader that finds no loadable library *)
Definition no_library (lib : string) : unit + list string :=
  inr ["cannot open shared object file"].

(** a library directory with a broken first candidate *)
Definition second_loads (lib : string) : Z + list string :=
  if String.eqb lib "b.so" then inl 7 else inr ["bad ELF header"].

End Scenario.

(** ** Vocabulary of the properties *)

(** A computation that issues no resource call, leaves the decoder state
    alone and terminates. *)
Definition keeps_resources {W A} (c : M W A) : Prop :=
  forall s, trace (c s).2 = trace s /\ fi (c s).2 = fi s /\ (c s).1 <> Diverge.

(** The decoder resources a sequence of calls leaves outstanding: a
    non-null result of an acquiring call is held until the matching
    releasing call. *)
Inductive resource : Type :=
| RBitmap (bitmap : Z)
| RSession (multibitmap : Z)
| RPage (multibitmap bitmap : Z)
| RCursor (mdhandle : Z).

#[global] Instance resource_eq_dec : EqDecision resource.
Proof. solve_decision. Defined.

Fixpoint remove_one (r : resource) (held : list resource) : list resource :=
  match held with
  | [] => []
  | r' :: held' => if decide (r = r') then held' else r' :: remove_one r held'
  end.

Definition acquire (handle : Z) (r : resource) (held : list resource)
    : list resource :=
  if bool_decide (handle = 0) then held else r :: held.

Definition step (held : list resource) (c : call) : list resource :=
  match c with
  | Call_Load _ _ _ b => acquire b (RBitmap b) held
  | Call_AllocateT _ _ _ _ b => acquire b (RBitmap b) held
  | Call_Unload b => remove_one (RBitmap b) held
  | Call_OpenMultiBitmap _ _ mb => acquire mb (RSession mb) held
  | Call_CloseMultiBitmap mb _ => remove_one (RSession mb) held
  | Call_LockPage mb _ b => acquire b (RPage mb b) held
  | Call_UnlockPage mb b _ => remove_one (RPage mb b) held
  | Call_FindFirstMetadata _ _ h => acquire h (RCursor h) held
  | Call_FindCloseMetadata h => remove_one (RCursor h) held
  | Call_Save _ _ _ _ _ => held
  | Call_AppendPage _ _ => held
  | Call_FindNextMetadata _ _ => held
  end.

Definition outstanding (events : list call) : list resource :=
  fold_left step events [].

(** A page-processing function that terminates and whose own calls
    leave the set of held resources as it found it. *)
Definition balanced {W A} (process_func : Z -> M W A) : Prop :=
  forall b s,
    (process_func b s).1 <> Diverge /\
    exists events,
      trace (process_func b s).2 = trace s ++ events /\
      forall held, fold_left step events held = held.

(** An index tuple within a shape. *)
Definition in_range (idx shape : list Z) : Prop :=
  Forall2 (fun i d => 0 <= i < d) idx shape.

(** Two elements of a view whose bytes do not overlap; a list of index
    tuples whose elements are pairwise apart; values of the view's
    element size. *)
Definition apart (v : view) (idx idx' : list Z) : Prop :=
  view_addr v idx + itemsize (v_dtype v) <= view_addr v idx' \/
  view_addr v idx' + itemsize (v_dtype v) <= view_addr v idx.

Definition separated (v : view) (l : list (list Z)) : Prop :=
  forall i j t t', i <> j -> l !! i = Some t -> l !! j = Some t' -> apart v t t'.

Definition sized (v : view) (vals : list (list Z)) : Prop :=
  Forall (fun e => Z.of_nat (length e) = itemsize (v_dtype v)) vals.

(** The red/blue exchange on a channel index. *)
Definition swap02 (c : Z) : Z :=
  if bool_decide (c = 0) then 2 else if bool_decide (c = 2) then 0 else c.

(** The index tuples of channel [c]. *)
Definition channel (w h c : Z) : list (list Z) :=
  (fun xy => xy ++ [c]) <$> indices [w; h].

(** Memory after the exchange of channels 0 and 2 through a view:
    [array[:, :, 0] = array[:, :, 2]] then [array[:, :, 2] = b], with
    both right-hand sides read from [m]. *)
Definition exchanged (v : view) (w h : Z) (m : memory) : memory :=
  assign v (channel w h 2) (view_get v m <$> channel w h 0)
    (assign v (channel w h 0) (view_get v m <$> channel w h 2) m).

(** The integer [v] has the bytes [bs], lowest first, as its base-256
    digits. *)
Definition digits (v : Z) (bs : list Z) : Prop :=
  forall (i : nat) (b : Z),
    bs !! i = Some b -> (v / 256 ^ Z.of_nat i) mod 256 = b.

(** The numbers a scalar type holds; for a float, its bit patterns. *)
Definition fits (d : dtype) (v : Z) : Prop :=
  match d with
  | uint8 => 0 <= v < 2 ^ 8
  | int8 => - 2 ^ 7 <= v < 2 ^ 7
  | uint16 => 0 <= v < 2 ^ 16
  | int16 => - 2 ^ 15 <= v < 2 ^ 15
  | uint32 => 0 <= v < 2 ^ 32
  | int32 => - 2 ^ 31 <= v < 2 ^ 31
  | uint64 => 0 <= v < 2 ^ 64
  | int64 => - 2 ^ 63 <= v < 2 ^ 63
  | float32 => 0 <= v < 2 ^ 32
  | float64 => 0 <= v < 2 ^ 64
  | complex128 => 0 <= v < 2 ^ 128
  end.

(** The bytes [bs], in host order, are those of the number [v] of type
    [d]: two's complement for the signed types. *)
Definition denotes (little_endian : bool) (d : dtype) (bs : list Z) (v : Z)
    : Prop :=
  fits d v /\ digits v (if little_endian then bs else reverse bs).

(** The bytes [bs] are those of the record [r] of fields [fs], one field
    after the other. *)
Fixpoint fields_denote (little_endian : bool) (fs : list (string * dtype))
    (bs : list Z) (r : list (string * Z)) : Prop :=
  match fs, r with
  | [], [] => True
  | (f, d) :: fs', (f', v) :: r' =>
      f' = f /\
      denotes little_endian d (take (Z.to_nat (itemsize d)) bs) v /\
      fields_denote little_endian fs' (drop (Z.to_nat (itemsize d)) bs) r'
  | _, _ => False
  end.

(** The bytes [bs] are those of the element [x] of layout [l]. *)
Definition element_denotes (little_endian : bool) (l : layout) (bs : list Z)
    (x : scalar) : Prop :=
  match l, x with
  | Plain d, SInt v =>
      d <> float32 /\ d <> float64 /\ d <> complex128 /\
      denotes little_endian d bs v
  | Plain d, SFloat v =>
      (d = float32 \/ d = float64 \/ d = complex128) /\
      denotes little_endian d bs v
  | Fields fs, SRecord r => fields_denote little_endian fs bs r
  | _, _ => False
  end.

(** What numpy guarantees of any array: non-negative dimensions, as many
    elements as the shape says, each of the dtype's size. *)
Definition well_formed (a : ndarray) : Prop :=
  Forall (fun d => 0 <= d) (a_shape a) /\
  length (a_data a) = Z.to_nat (product (a_shape a)) /\
  Forall (fun e => Z.of_nat (length e) = itemsize (a_dtype a)) (a_data a).

Section DecoderContracts.

Context {W : Type} {api : FreeImageAPI W}.

(** A handle returned by [FreeImage_AllocateT] describes a bitmap of the
    requested type and size whose pitch covers a row, and whose palette
    buffer, if any, lies outside its pixel rows. *)
Definition allocation_law : Prop :=
  forall t w h bpp m d b m' d',
    FreeImage_AllocateT t w h bpp m d = (b, m', d') -> b <> 0 ->
    FreeImage_GetImageType b d' = t /\
    FreeImage_GetWidth b d' = w /\
    FreeImage_GetHeight b d' = h /\
    FreeImage_GetBPP b d' = bpp /\
    w * bpp <= 8 * FreeImage_GetPitch b d' /\
    (FreeImage_GetPalette b d' <> 0 ->
     FreeImage_GetPalette b d' + 1024 <= FreeImage_GetBits b d' \/
     FreeImage_GetBits b d' + FreeImage_GetPitch b d' * h
       <= FreeImage_GetPalette b d').

(** No lossy compression: a bitmap saved under [filename] with [flags]
    and then unloaded is found again by a load of that file with default
    flags, as a bitmap of the same type, size and depth whose pixel rows
    hold the bytes the saved bitmap held. *)
Definition lossless (filename : string) (flags : Z) : Prop :=
  forall b m d d1,
    FreeImage_Save (FreeImage_GetFIFFromFilename filename) b filename flags m d
      = (true, d1) ->
    let d2 := FreeImage_Unload b d1 in
    let ftype := FreeImage_GetFileType filename d2 in
    ftype <> -1 /\
    forall b' m' d3,
      FreeImage_Load ftype filename 0 m d2 = (b', m', d3) ->
      b' <> 0 /\
      FreeImage_GetImageType b' d3 = FreeImage_GetImageType b d /\
      FreeImage_GetWidth b' d3 = FreeImage_GetWidth b d /\
      FreeImage_GetHeight b' d3 = FreeImage_GetHeight b d /\
      FreeImage_GetBPP b' d3 = FreeImage_GetBPP b d /\
      FreeImage_GetWidth b d * FreeImage_GetBPP b d
        <= 8 * FreeImage_GetPitch b' d3 /\
      forall y i,
        0 <= y < FreeImage_GetHeight b d -> 0 <= i ->
        8 * i < FreeImage_GetWidth b d * FreeImage_GetBPP b d ->
        m' (FreeImage_GetBits b' d3 + y * FreeImage_GetPitch b' d3 + i)
        = m (FreeImage_GetBits b d + y * FreeImage_GetPitch b d + i).

End DecoderContracts.

(** The views [_wrap_bitmap_bits_in_array] builds for a 3-D and for a
    2-D shape. *)
Definition view3 (base P w h n : Z) (dt : dtype) : view :=
  {| v_bits := base; v_byte_size := h * P; v_offset := P * (h - 1);
     v_shape := [w; h; n];
     v_strides := [n * itemsize dt; - P; itemsize dt];
     v_dtype := dt |}.

Definition view2 (base P w h : Z) (dt : dtype) : view :=
  {| v_bits := base; v_byte_size := h * P; v_offset := P * (h - 1);
     v_shape := [w; h];
     v_strides := [itemsize dt; - P];
     v_dtype := dt |}.

(** Memory after the channel-reordering copy of the write path:
    [wrapped_array[:, :, 0] = array[:, :, 2]], [... 1] = [... 1],
    [... 2] = [... 0] and, for four channels, [... 3] = [... 3]. *)
Definition reordered (v : view) (array : ndarray) (w h n : Z) (m : memory)
    : memory :=
  let m0 := assign v (channel w h 0) (item array <$> channel w h 2) m in
  let m1 := assign v (channel w h 1) (item array <$> channel w h 1) m0 in
  let m2 := assign v (channel w h 2) (item array <$> channel w h 0) m1 in
  if bool_decide (n = 4)
  then assign v (channel w h 3) (item array <$> channel w h 3) m2
  else m2.

(** The shapes [read] hands back: no channel axis for one channel. *)
Definition canonical (shape : list Z) : Prop :=
  (exists w h, shape = [w; h]) \/ (exists w h n, shape = [w; h; n] /\ n <> 1).

(** The index whose element the reordering puts at [idx]: channels 0 and
    2 exchanged where the code reorders (3-D, little-endian, uint8). *)
Definition reorder_index (little_endian : bool) (dt : dtype) (idx : list Z)
    : list Z :=
  match idx with
  | [x; y; c] =>
      if little_endian && bool_decide (dt = uint8) then [x; y; swap02 c]
      else idx
  | _ => idx
  end.

(** A computation that terminates and whose calls leave the set of held
    resources as it found it, from every state. *)
Definition leak_free {W A} (c : M W A) : Prop :=
  forall s,
    (c s).1 <> Diverge /\
    exists events,
      trace (c s).2 = trace s ++ events /\
      forall held, fold_left step events held = held.

(** The bitmaps appended to session [mb], in order. *)
Definition appended (mb : Z) (events : list call) : list Z :=
  omap (fun c => match c with
                 | Call_AppendPage mb' b =>
                     if bool_decide (mb' = mb) then Some b else None
                 | _ => None
                 end) events.

(** The calls of a multi-page read that processes the pages [pages]
    through the handles [handles]: each page locked, then unlocked. *)
Definition page_calls (mb : Z) (pages handles : list Z) : list call :=
  zip pages handles ≫=
    (fun ib => [Call_LockPage mb ib.1 ib.2; Call_UnlockPage mb ib.2 false]).

(** Every key of [md] names one of [names]. *)
Definition keyed_by (names : list string)
    (md : gmap (string * string) tagval) : Prop :=
  forall model key v, md !! (model, key) = Some v -> model ∈ names.

Arguments swap_channels_0_2 : simpl never.
Arguments copy_into_bitmap : simpl never.
Arguments install_palette : simpl never.
Arguments fill_bitmap : simpl never.
Arguments _array_from_bitmap : simpl never.
Arguments _array_to_bitmap : simpl never.
Arguments _process_bitmap : simpl never.
Arguments _process_multipage : simpl never.
Arguments pages_loop : simpl never.
Arguments tags_loop : simpl never.
Arguments models_loop : simpl never.
Arguments write : simpl never.
Arguments read : simpl never.

(** * Properties *)

(** ** Registry facts *)

Lemma fi_types_keys_NoDup : NoDup (FI_TYPES.fi_types_items.*1).
Proof. apply (bool_decide_unpack _). vm_compute. exact I. Qed.

Lemma fi_types_lookup_Some (dt : dtype) (n t : Z) :
  FI_TYPES.fi_types !! (dt, n) = Some t <->
  ((dt, n), t) ∈ FI_TYPES.fi_types_items.
Proof.
  unfold FI_TYPES.fi_types. symmetry.
  apply elem_of_list_to_map, fi_types_keys_NoDup.
Qed.

Lemma fi_types_lookup_None (dt : dtype) (n : Z) :
  FI_TYPES.fi_types !! (dt, n) = None <->
  (dt, n) ∉ FI_TYPES.fi_types_items.*1.
Proof. unfold FI_TYPES.fi_types. symmetry. apply not_elem_of_list_to_map. Qed.

(** Every registered pair has 1, 3 or 4 channels, and the registered
    pixel type maps back to the pair's dtype. *)
Lemma fi_types_registered (dt : dtype) (n t : Z) :
  FI_TYPES.fi_types !! (dt, n) = Some t ->
  (n = 1 \/ n = 3 \/ n = 4) /\ FI_TYPES.dtypes !! t = Some dt /\ t <> 0 /\
  (t = FI_TYPES.FIT_BITMAP -> dt = uint8) /\
  (t <> FI_TYPES.FIT_BITMAP ->
     dt <> uint8 /\
     FI_TYPES.extra_dims !! t = Some (if bool_decide (n = 1) then [] else [n])).
Proof.
  intros H. apply fi_types_lookup_Some in H.
  unfold FI_TYPES.fi_types_items in H.
  repeat (apply elem_of_cons in H as [H|H];
          [ injection H as -> -> ->; vm_compute; intuition congruence | ]).
  by apply elem_of_nil in H.
Qed.

(** ** Memory *)

Lemma length_load_elem (m : memory) (addr n : Z) :
  length (load_elem m addr n) = Z.to_nat n.
Proof. unfold load_elem. by rewrite length_fmap, length_seqZ. Qed.

Lemma poke_eq (a b : Z) (m : memory) : poke a b m a = b.
Proof. unfold poke. by rewrite bool_decide_eq_true_2. Qed.

Lemma poke_ne (a b : Z) (m : memory) (x : Z) : x <> a -> poke a b m x = m x.
Proof. intros. unfold poke. by rewrite bool_decide_eq_false_2. Qed.

Lemma store_elem_out (bs : list Z) :
  forall (a : Z) (m : memory) (x : Z),
    (x < a \/ a + Z.of_nat (length bs) <= x) -> store_elem a bs m x = m x.
Proof.
  induction bs as [|b bs IH]; intros a m x Hx; cbn in *; [done|].
  rewrite IH by lia. apply poke_ne. lia.
Qed.

Lemma store_elem_in (bs : list Z) :
  forall (a : Z) (m : memory) (k : nat) (b : Z),
    bs !! k = Some b -> store_elem a bs m (a + Z.of_nat k) = b.
Proof.
  induction bs as [|b0 bs IH]; intros a m k b Hk; [done|].
  destruct k as [|k]; cbn [store_elem].
  - injection Hk as ->. rewrite store_elem_out by lia.
    replace (a + Z.of_nat 0) with a by lia. apply poke_eq.
  - replace (a + Z.of_nat (S k)) with (a + 1 + Z.of_nat k) by lia.
    by apply IH.
Qed.

Lemma lookup_load_elem (m : memory) (a n : Z) (i : nat) :
  Z.of_nat i < n -> load_elem m a n !! i = Some (m (a + Z.of_nat i)).
Proof.
  intros Hi. unfold load_elem. rewrite list_lookup_fmap.
  rewrite lookup_seqZ_lt by done. cbn. do 3 f_equal. 
Qed.

Lemma load_elem_ext (m m' : memory) (a n : Z) :
  (forall x, a <= x < a + n -> m x = m' x) ->
  load_elem m a n = load_elem m' a n.
Proof.
  intros H. unfold load_elem. apply list_fmap_ext.
  intros i x Hx. apply lookup_seqZ in Hx as [-> Hi]. apply H. lia.
Qed.

Lemma load_store_other (a : Z) (bs : list Z) (m : memory) (a' n : Z) :
  (a' + n <= a \/ a + Z.of_nat (length bs) <= a') ->
  load_elem (store_elem a bs m) a' n = load_elem m a' n.
Proof.
  intros H. apply load_elem_ext. intros x Hx. apply store_elem_out. lia.
Qed.

Lemma load_store_sub (a : Z) (bs : list Z) (m : memory) (k n : nat) :
  (k + n <= length bs)%nat ->
  load_elem (store_elem a bs m) (a + Z.of_nat k) (Z.of_nat n)
  = take n (drop k bs).
Proof.
  intros Hkn. apply list_eq. intros i.
  destruct (decide (i < n)%nat) as [Hi|Hi].
  - rewrite lookup_load_elem by lia.
    rewrite lookup_take_lt by done. rewrite lookup_drop.
    destruct (lookup_lt_is_Some_2 bs (k + i)%nat) as [b Hb]; [lia|].
    rewrite Hb. f_equal.
    replace (a + Z.of_nat k + Z.of_nat i) with (a + Z.of_nat (k + i)) by lia.
    by apply store_elem_in.
  - rewrite lookup_ge_None_2, lookup_ge_None_2; [done| |].
    + rewrite length_take, length_drop. lia.
    + rewrite length_load_elem. lia.
Qed.

Lemma load_store_same (a : Z) (bs : list Z) (m : memory) :
  load_elem (store_elem a bs m) a (Z.of_nat (length bs)) = bs.
Proof.
  pose proof (load_store_sub a bs m 0 (length bs)) as H.
  replace (a + Z.of_nat 0) with a in H by lia.
  rewrite H by lia. by rewrite drop_0, firstn_all.
Qed.

(** ** Index tuples *)

Lemma elem_of_indices (shape : list Z) :
  forall idx, idx ∈ indices shape <-> in_range idx shape.
Proof.
  unfold in_range.
  induction shape as [|d ds IH]; intros idx; cbn.
  - rewrite list_elem_of_singleton. split.
    + intros ->. constructor.
    + intros H. by inversion H.
  - rewrite list_elem_of_bind. split.
    + intros (x & Hidx & Hx). apply list_elem_of_fmap in Hidx as (t & -> & Ht).
      apply elem_of_seqZ in Hx. constructor; [lia|]. by apply IH.
    + intros H. inversion H as [|x ? t ? Hx Ht]; subst.
      exists x. split.
      * apply list_elem_of_fmap. exists t. split; [done|]. by apply IH.
      * apply elem_of_seqZ. lia.
Qed.

Lemma bind_seqZ_blocks (P : Z) (d : nat) :
  0 <= P ->
  seqZ 0 (Z.of_nat d) ≫= (fun x => (fun k => x * P + k) <$> seqZ 0 P)
  = seqZ 0 (Z.of_nat d * P).
Proof.
  intros HP. induction d as [|d IH].
  - reflexivity.
  - rewrite seqZ_S, bind_app, IH. cbn [mbind list_bind]. rewrite app_nil_r.
    replace (Z.of_nat (S d) * P) with (Z.of_nat d * P + P) by lia.
    rewrite seqZ_app by lia. f_equal.
    replace (0 + Z.of_nat d * P) with (Z.of_nat d * P + 0) by lia.
    rewrite <- (fmap_add_seqZ (Z.of_nat d * P) 0 P).
    apply list_fmap_ext. intros. lia.
Qed.

Lemma fmap_bind {A B C : Type} (g : B -> C) (f : A -> list B) (l : list A) :
  g <$> (l ≫= f) = l ≫= (fun x => g <$> f x).
Proof.
  induction l as [|x l IH]; [done|].
  by rewrite !bind_cons, fmap_app, IH.
Qed.

Lemma product_nonneg (shape : list Z) :
  Forall (fun d => 0 <= d) shape -> 0 <= product shape.
Proof.
  induction 1 as [|d ds Hd _ IH]; cbn; [lia|]. unfold product in IH. nia.
Qed.

Lemma flat_indices (shape : list Z) :
  Forall (fun d => 0 <= d) shape ->
  flat_index shape <$> indices shape = seqZ 0 (product shape).
Proof.
  induction 1 as [|d ds Hd Hds IH].
  - reflexivity.
  - cbn [indices]. rewrite fmap_bind.
    change (product (d :: ds)) with (d * product ds).
    rewrite <- (Z2Nat.id d Hd) at 2.
    rewrite <- (bind_seqZ_blocks (product ds) (Z.to_nat d))
      by by apply product_nonneg.
    rewrite Z2Nat.id by done.
    apply list_bind_ext; [|done]. intros x.
    rewrite <- IH, <- !list_fmap_compose. reflexivity.
Qed.

Lemma item_indices (a : ndarray) :
  Forall (fun d => 0 <= d) (a_shape a) ->
  length (a_data a) = Z.to_nat (product (a_shape a)) ->
  item a <$> indices (a_shape a) = a_data a.
Proof.
  intros Hshape Hlen.
  assert (Hcomp : item a <$> indices (a_shape a)
                  = (fun k => default [] (a_data a !! Z.to_nat k))
                      <$> (flat_index (a_shape a) <$> indices (a_shape a))).
  { by rewrite <- list_fmap_compose. }
  rewrite Hcomp, flat_indices by done.
  apply list_eq. intros i. rewrite list_lookup_fmap.
  destruct (decide (i < length (a_data a))%nat) as [Hi|Hi].
  - rewrite lookup_seqZ_lt by lia. cbn. rewrite Z.add_0_l, Nat2Z.id.
    destruct (lookup_lt_is_Some_2 (a_data a) i Hi) as [e He].
    by rewrite He.
  - rewrite lookup_seqZ_ge by lia. cbn. symmetry.
    apply lookup_ge_None_2. lia.
Qed.

(** ** Slice assignment *)

Lemma assign_cons (v : view) t ts e es (m : memory) :
  assign v (t :: ts) (e :: es) m
  = assign v ts es (store_elem (view_addr v t) e m).
Proof. reflexivity. Qed.

Lemma assign_frame (v : view) (targets : list (list Z)) :
  forall (vals : list (list Z)) (m : memory) (a n : Z),
    sized v vals ->
    (forall t, t ∈ targets ->
               a + n <= view_addr v t \/
               view_addr v t + itemsize (v_dtype v) <= a) ->
    load_elem (assign v targets vals m) a n = load_elem m a n.
Proof.
  induction targets as [|t ts IH]; intros vals m a n Hsz Hfar; [done|].
  destruct vals as [|e es]; [done|].
  rewrite assign_cons. apply Forall_cons in Hsz as [He Hes].
  rewrite IH; [|done|].
  - apply load_store_other. rewrite He. apply Hfar. left.
  - intros t' Ht'. apply Hfar. by right.
Qed.

Lemma assign_get (v : view) (targets : list (list Z)) :
  forall (vals : list (list Z)) (m : memory) (k : nat) idx e,
    sized v vals -> separated v targets ->
    targets !! k = Some idx -> vals !! k = Some e ->
    view_get v (assign v targets vals m) idx = e.
Proof.
  induction targets as [|t ts IH]; intros vals m k idx e Hsz Hsep Hk He;
    [done|].
  destruct vals as [|e0 es]; [done|].
  rewrite assign_cons. pose proof Hsz as Hsz'.
  apply Forall_cons in Hsz' as [He0 Hes].
  destruct k as [|k]; cbn in Hk, He.
  - injection Hk as ->. injection He as ->. unfold view_get.
    rewrite assign_frame; [|done|].
    + rewrite <- He0. apply load_store_same.
    + intros t' Ht'. apply list_elem_of_lookup in Ht' as [j Hj].
      destruct (Hsep 0%nat (S j) idx t') as [H|H]; [done|done|done| |];
        [by left|by right].
  - apply (IH es _ k); try done.
    intros i j t1 t2 Hij Hi Hj. by apply (Hsep (S i) (S j)); [lia| |].
Qed.

Lemma assign_get_all (v : view) (targets vals : list (list Z)) (m : memory) :
  sized v vals -> separated v targets -> length targets = length vals ->
  view_get v (assign v targets vals m) <$> targets = vals.
Proof.
  intros Hsz Hsep Hlen. apply list_eq. intros k.
  rewrite list_lookup_fmap.
  destruct (targets !! k) as [idx|] eqn:Hk; cbn.
  - destruct (lookup_lt_is_Some_2 vals k) as [e He].
    { rewrite <- Hlen. by apply lookup_lt_Some in Hk. }
    rewrite He. f_equal. by apply (assign_get v targets vals m k).
  - symmetry. apply lookup_ge_None_2. rewrite <- Hlen.
    by apply lookup_ge_None_1.
Qed.

Lemma view_get_frame (v : view) (targets vals : list (list Z)) (m : memory)
    (idx : list Z) :
  sized v vals ->
  (forall t, t ∈ targets -> apart v idx t) ->
  view_get v (assign v targets vals m) idx = view_get v m idx.
Proof.
  intros Hsz Hfar. unfold view_get. apply assign_frame; [done|].
  intros t Ht. destruct (Hfar t Ht); [by left|by right].
Qed.

Lemma sized_view_get (v : view) (m : memory) (l : list (list Z)) :
  0 <= itemsize (v_dtype v) -> sized v (view_get v m <$> l).
Proof.
  intros Hs. apply Forall_fmap, Forall_forall. intros idx _. cbn.
  unfold view_get. rewrite length_load_elem. lia.
Qed.

Lemma itemsize_pos (d : dtype) : 0 < itemsize d.
Proof. destruct d; cbn; lia. Qed.

(** ** Addresses of a wrapped view *)

Lemma NoDup_indices (shape : list Z) :
  Forall (fun d => 0 <= d) shape -> NoDup (indices shape).
Proof.
  intros H. apply (NoDup_fmap_1 (flat_index shape)).
  rewrite flat_indices by done. apply NoDup_seqZ.
Qed.

(** Two different in-range elements of a 3-D view never overlap when the
    pitch covers a row. *)
Lemma apart_3d (v : view) (base P w h n : Z) (x y c x' y' c' : Z) :
  v_bits v = base -> v_offset v = P * (h - 1) ->
  v_strides v = [n * itemsize (v_dtype v); - P; itemsize (v_dtype v)] ->
  w * n * itemsize (v_dtype v) <= P ->
  0 <= x < w -> 0 <= y < h -> 0 <= c < n ->
  0 <= x' < w -> 0 <= y' < h -> 0 <= c' < n ->
  [x; y; c] <> [x'; y'; c'] ->
  apart v [x; y; c] [x'; y'; c'].
Proof.
  intros Hb Ho Hs HP Hx Hy Hc Hx' Hy' Hc' Hne.
  pose proof (itemsize_pos (v_dtype v)) as Hpos.
  unfold apart, view_addr. rewrite Hb, Ho, Hs. cbn [dot].
  set (s := itemsize (v_dtype v)) in *.
  set (q := x * n + c). set (q' := x' * n + c').
  assert (Hq : 0 <= q < w * n) by (unfold q; nia).
  assert (Hq' : 0 <= q' < w * n) by (unfold q'; nia).
  assert (Hu : x * (n * s) + c * s = q * s) by (unfold q; lia).
  assert (Hu' : x' * (n * s) + c' * s = q' * s) by (unfold q'; lia).
  assert (Hqs : q * s + s <= P) by nia.
  assert (Hqs' : q' * s + s <= P) by nia.
  destruct (Z.lt_trichotomy y y') as [Hlt|[Heq|Hgt]].
  - right. assert ((y' - y) * P >= P) by nia. nia.
  - subst y'. assert (Hqq : q <> q').
    { unfold q, q'. intros Heq. apply Hne.
      assert (x = x') by nia. subst x'. assert (c = c') by lia. by subst. }
    destruct (Z.lt_trichotomy q q') as [H|[H|H]]; [|done|].
    + left. nia.
    + right. nia.
  - left. assert ((y - y') * P >= P) by nia. nia.
Qed.

Lemma apart_2d (v : view) (base P w h : Z) (x y x' y' : Z) :
  v_bits v = base -> v_offset v = P * (h - 1) ->
  v_strides v = [itemsize (v_dtype v); - P] ->
  w * itemsize (v_dtype v) <= P ->
  0 <= x < w -> 0 <= y < h -> 0 <= x' < w -> 0 <= y' < h ->
  [x; y] <> [x'; y'] ->
  apart v [x; y] [x'; y'].
Proof.
  intros Hb Ho Hs HP Hx Hy Hx' Hy' Hne.
  pose proof (itemsize_pos (v_dtype v)) as Hpos.
  unfold apart, view_addr. rewrite Hb, Ho, Hs. cbn [dot].
  set (s := itemsize (v_dtype v)) in *.
  assert (Hqs : x * s + s <= P) by nia.
  assert (Hqs' : x' * s + s <= P) by nia.
  destruct (Z.lt_trichotomy y y') as [Hlt|[Heq|Hgt]].
  - right. assert ((y' - y) * P >= P) by nia. nia.
  - subst y'. assert (Hqq : x <> x') by congruence.
    destruct (Z.lt_trichotomy x x') as [H|[H|H]]; [|done|].
    + left. nia.
    + right. nia.
  - left. assert ((y - y') * P >= P) by nia. nia.
Qed.

Lemma lookup_indices_flat (shape idx : list Z) :
  in_range idx shape ->
  indices shape !! Z.to_nat (flat_index shape idx) = Some idx.
Proof.
  intros Hin.
  assert (Hnn : Forall (fun d => 0 <= d) shape).
  { unfold in_range in Hin. induction Hin; constructor; [lia|done]. }
  apply elem_of_indices, list_elem_of_lookup in Hin as [k Hk].
  assert (Hf : (flat_index shape <$> indices shape) !! k
               = Some (flat_index shape idx)).
  { by rewrite list_lookup_fmap, Hk. }
  rewrite flat_indices in Hf by done.
  apply lookup_seqZ in Hf as [-> _]. by rewrite Z.add_0_l, Nat2Z.id.
Qed.

Lemma in_range_3 (x y c w h n : Z) :
  in_range [x; y; c] [w; h; n] <-> 0 <= x < w /\ 0 <= y < h /\ 0 <= c < n.
Proof.
  unfold in_range. rewrite !Forall2_cons. split.
  - intros (? & ? & ? & _). done.
  - intros (? & ? & ?). repeat split; try lia. constructor.
Qed.

Lemma in_range_2 (x y w h : Z) :
  in_range [x; y] [w; h] <-> 0 <= x < w /\ 0 <= y < h.
Proof.
  unfold in_range. rewrite !Forall2_cons. split.
  - intros (? & ? & _). done.
  - intros (? & ?). repeat split; try lia. constructor.
Qed.

Lemma in_range_2_inv (t : list Z) (w h : Z) :
  in_range t [w; h] -> exists x y, t = [x; y] /\ 0 <= x < w /\ 0 <= y < h.
Proof.
  intros H. unfold in_range in H.
  apply Forall2_cons_inv_r in H as (x & t1 & Hx & H & ->).
  apply Forall2_cons_inv_r in H as (y & t2 & Hy & H & ->).
  apply Forall2_nil_inv_r in H as ->. by exists x, y.
Qed.

Lemma in_range_3_inv (t : list Z) (w h n : Z) :
  in_range t [w; h; n] ->
  exists x y c, t = [x; y; c] /\ 0 <= x < w /\ 0 <= y < h /\ 0 <= c < n.
Proof.
  intros H. unfold in_range in H.
  apply Forall2_cons_inv_r in H as (x & t1 & Hx & H & ->).
  apply Forall2_cons_inv_r in H as (y & t2 & Hy & H & ->).
  apply Forall2_cons_inv_r in H as (c & t3 & Hc & H & ->).
  apply Forall2_nil_inv_r in H as ->. by exists x, y, c.
Qed.

Lemma channel_indices_ok (w h n c : Z) :
  0 <= c < n -> channel_indices [w; h; n] c = Ok (channel w h c).
Proof.
  intros Hc. unfold channel_indices. by rewrite bool_decide_eq_true_2.
Qed.

Lemma lookup_channel (w h c : Z) (k : nat) (t : list Z) :
  channel w h c !! k = Some t <->
  exists x y, t = [x; y; c] /\ indices [w; h] !! k = Some [x; y].
Proof.
  unfold channel. rewrite list_lookup_fmap. split.
  - destruct (indices [w; h] !! k) as [xy|] eqn:Hk; [|done]. cbn.
    intros [= <-].
    assert (Hin : xy ∈ indices [w; h]) by (apply list_elem_of_lookup; eauto).
    apply elem_of_indices, in_range_2_inv in Hin as (x & y & -> & _).
    by exists x, y.
  - intros (x & y & -> & ->). reflexivity.
Qed.

Section Wrapped.

(** A view as [_wrap_bitmap_bits_in_array] builds it for a 3-D shape
    whose pitch covers a row. *)
Variables (v : view) (base P w h n : Z).
Hypothesis Hbits : v_bits v = base.
Hypothesis Hoffset : v_offset v = P * (h - 1).
Hypothesis Hstrides :
  v_strides v = [n * itemsize (v_dtype v); - P; itemsize (v_dtype v)].
Hypothesis Hpitch : w * n * itemsize (v_dtype v) <= P.

Lemma separated_channel (c : Z) :
  0 <= c < n -> separated v (channel w h c).
Proof.
  intros Hc i j t t' Hij Hi Hj.
  apply lookup_channel in Hi as (x & y & -> & Hi).
  apply lookup_channel in Hj as (x' & y' & -> & Hj).
  assert (Hin : in_range [x; y] [w; h]).
  { apply elem_of_indices, list_elem_of_lookup. eauto. }
  assert (Hin' : in_range [x'; y'] [w; h]).
  { apply elem_of_indices, list_elem_of_lookup. eauto. }
  apply in_range_2 in Hin as [? ?]. apply in_range_2 in Hin' as [? ?].
  eapply apart_3d; eauto.
  intros [= -> ->]. apply Hij.
  assert (Hnd : NoDup (indices [w; h])).
  { apply NoDup_indices. repeat constructor; lia. }
  by eapply NoDup_lookup.
Qed.

Lemma apart_channel (x y c c' : Z) (t : list Z) :
  0 <= x < w -> 0 <= y < h -> 0 <= c < n -> 0 <= c' < n -> c <> c' ->
  t ∈ channel w h c' -> apart v [x; y; c] t.
Proof.
  intros Hx Hy Hc Hc' Hne Ht.
  apply list_elem_of_lookup in Ht as [k Hk].
  apply lookup_channel in Hk as (x' & y' & -> & Hk).
  assert (Hin' : in_range [x'; y'] [w; h]).
  { apply elem_of_indices, list_elem_of_lookup. eauto. }
  apply in_range_2 in Hin' as [? ?].
  eapply apart_3d; eauto. congruence.
Qed.

Lemma separated_indices_3d : separated v (indices [w; h; n]).
Proof.
  intros i j t t' Hij Hi Hj.
  assert (Hin : in_range t [w; h; n]).
  { apply elem_of_indices, list_elem_of_lookup. eauto. }
  assert (Hin' : in_range t' [w; h; n]).
  { apply elem_of_indices, list_elem_of_lookup. eauto. }
  apply in_range_3_inv in Hin as (x & y & c & -> & ? & ? & ?).
  apply in_range_3_inv in Hin' as (x' & y' & c' & -> & ? & ? & ?).
  eapply apart_3d; eauto.
  intros Heq. apply Hij.
  assert (Hnd : NoDup (indices [w; h; n])).
  { apply NoDup_indices. repeat constructor; lia. }
  rewrite Heq in Hi. by eapply NoDup_lookup.
Qed.

Lemma exchanged_get (m : memory) (x y c : Z) :
  3 <= n -> 0 <= x < w -> 0 <= y < h -> 0 <= c < n ->
  view_get v (exchanged v w h m) [x; y; c] = view_get v m [x; y; swap02 c].
Proof.
  intros Hn Hx Hy Hc. unfold exchanged.
  pose proof (itemsize_pos (v_dtype v)) as Hpos.
  assert (Hxy : in_range [x; y] [w; h]) by by apply in_range_2.
  apply elem_of_indices, list_elem_of_lookup in Hxy as [k Hk].
  assert (Hk0 : channel w h 0 !! k = Some [x; y; 0]).
  { apply lookup_channel. eauto. }
  assert (Hk2 : channel w h 2 !! k = Some [x; y; 2]).
  { apply lookup_channel. eauto. }
  unfold swap02. case_bool_decide as H0; [|case_bool_decide as H2].
  - subst c. rewrite view_get_frame.
    + eapply assign_get; eauto.
      * apply sized_view_get. lia.
      * apply separated_channel. lia.
      * by rewrite list_lookup_fmap, Hk2.
    + apply sized_view_get. lia.
    + intros t Ht. eapply (apart_channel x y 0 2); eauto; lia.
  - subst c. eapply assign_get; eauto.
    + apply sized_view_get. lia.
    + apply separated_channel. lia.
    + by rewrite list_lookup_fmap, Hk0.
  - rewrite !view_get_frame; try (apply sized_view_get; lia); try done.
    + intros t Ht. eapply (apart_channel x y c 0); eauto; lia.
    + intros t Ht. eapply (apart_channel x y c 2); eauto; lia.
Qed.

End Wrapped.

(** ** Running computations *)

Ltac unfold_run :=
  unfold bind, ret, raise, lift, get_fi, get_mem, set_mem, log,
    try_finally, try_except_reraise, call_Load, call_Unload, call_AllocateT,
    call_Save, call_OpenMultiBitmap, call_LockPage, call_UnlockPage,
    call_AppendPage, call_CloseMultiBitmap, call_FindFirstMetadata,
    call_FindNextMetadata, call_FindCloseMetadata in *.

Ltac run := unfold_run; cbn [mem fi trace fst snd] in *.

Section Frames.

Context {W : Type} {api : FreeImageAPI W}.

Lemma channel_indices_terminates (shape : list Z) (c : Z) :
  channel_indices shape c <> Diverge.
Proof.
  unfold channel_indices. repeat case_match; done.
Qed.

Lemma get_type_and_shape_terminates (bitmap : Z) (d : W) :
  get_type_and_shape bitmap d <> Diverge.
Proof.
  unfold get_type_and_shape. repeat case_match; done.
Qed.

Lemma wrap_terminates (bitmap : Z) (shape : list Z) (dt : dtype) (d : W) :
  _wrap_bitmap_bits_in_array bitmap shape dt d <> Diverge.
Proof.
  unfold _wrap_bitmap_bits_in_array. repeat case_match; done.
Qed.

Lemma swap_channels_keeps (array : view) :
  keeps_resources (W:=W) (swap_channels_0_2 array).
Proof.
  intros s. unfold swap_channels_0_2. run.
  pose proof (channel_indices_terminates (v_shape array) 0).
  pose proof (channel_indices_terminates (v_shape array) 2).
  destruct (channel_indices (v_shape array) 0); cbn; try done.
  destruct (channel_indices (v_shape array) 2); cbn; done.
Qed.

Lemma array_from_bitmap_keeps (bitmap : Z) :
  keeps_resources (W:=W) (_array_from_bitmap bitmap).
Proof.
  intros s. unfold _array_from_bitmap. run.
  pose proof (get_type_and_shape_terminates bitmap (fi s)).
  destruct (get_type_and_shape bitmap (fi s)) as [[dt shape]| |];
    cbn; try done.
  pose proof (wrap_terminates bitmap shape dt (fi s)).
  destruct (_wrap_bitmap_bits_in_array bitmap shape dt (fi s));
    cbn; try done.
  destruct (_ && _ && _).
  - pose proof (swap_channels_keeps a s) as (Ht & Hf & Hd).
    destruct (swap_channels_0_2 a s) as [[] s1]; cbn in *; done.
  - cbn. done.
Qed.

(** [_process_bitmap] releases the handle it was given as its last
    call, whatever [process_func] does. *)
Lemma process_bitmap_unloads {A} (filename : string) (flags : Z)
    (process_func : Z -> M W A) (s : state W) (b : Z) m' d' :
  FreeImage_GetFileType filename (fi s) <> -1 ->
  FreeImage_Load (FreeImage_GetFileType filename (fi s)) filename flags
                 (mem s) (fi s) = (b, m', d') ->
  b <> 0 ->
  let s1 := mk_state m' d'
              (trace s ++ [Call_Load (FreeImage_GetFileType filename (fi s))
                                     filename flags b]) in
  let r := process_func b s1 in
  r.1 <> Diverge ->
  _process_bitmap filename flags process_func s =
    (r.1, mk_state (mem r.2) (FreeImage_Unload b (fi r.2))
                   (trace r.2 ++ [Call_Unload b])).
Proof.
  intros Hft Hload Hb s1 r Hr. unfold _process_bitmap. run.
  rewrite bool_decide_eq_false_2 by done. rewrite Hload. cbn.
  rewrite bool_decide_eq_false_2 by done.
  fold s1. fold r. destruct r as [[] s2]; cbn in *; congruence.
Qed.

End Frames.

(** ** The view over decoder memory *)

Section ViewLayout.

Context {W : Type} {api : FreeImageAPI W}.

(** C3: every view [_wrap_bitmap_bits_in_array] builds over a bitmap
    with height [h], row pitch [P] and element size [s] starts
    [P * (h - 1)] bytes after the base address, so logical row 0 is the
    last stored scanline and logical row [h - 1] lies at the base; its
    strides are [(n * s, -P, s)] for a shape with a channel axis of
    length [n] and [(s, -P)] for a 2-D shape. *)
Theorem wrap_view_layout (bitmap : Z) (dt : dtype) (d : W) (w h n : Z) :
  let P := FreeImage_GetPitch bitmap d in
  let base := FreeImage_GetBits bitmap d in
  let s := itemsize dt in
  (forall v,
      _wrap_bitmap_bits_in_array bitmap [w; h; n] dt d = Ok v ->
      v_bits v = base /\ v_offset v = P * (h - 1) /\
      v_strides v = [n * s; - P; s] /\
      v_shape v = [w; h; n] /\ v_dtype v = dt /\ v_byte_size v = h * P /\
      (forall x y c,
          view_addr v [x; y; c] = base + P * (h - 1 - y) + x * (n * s) + c * s) /\
      view_addr v [0; 0; 0] = base + P * (h - 1) /\
      view_addr v [0; h - 1; 0] = base + 0) /\
  (forall v,
      _wrap_bitmap_bits_in_array bitmap [w; h] dt d = Ok v ->
      v_bits v = base /\ v_offset v = P * (h - 1) /\
      v_strides v = [s; - P] /\
      v_shape v = [w; h] /\ v_dtype v = dt /\ v_byte_size v = h * P /\
      (forall x y, view_addr v [x; y] = base + P * (h - 1 - y) + x * s) /\
      view_addr v [0; 0] = base + P * (h - 1) /\
      view_addr v [0; h - 1] = base + 0).
Proof.
  intros P base s. split.
  - intros v Hv. injection Hv as <-. cbn.
    repeat split; try reflexivity; intros; unfold view_addr; cbn; lia.
  - intros v Hv. injection Hv as <-. cbn.
    repeat split; try reflexivity; intros; unfold view_addr; cbn; lia.
Qed.

End ViewLayout.

(** ** The read path *)

Arguments exchanged : simpl never.
Arguments reordered : simpl never.
Arguments assign : simpl never.
Arguments channel : simpl never.
Arguments indices : simpl never.

Lemma load_elem_1 (m : memory) (a : Z) : load_elem m a 1 = [m a].
Proof.
  unfold load_elem. change (seqZ 0 1) with [0]. cbn [fmap list_fmap].
  by rewrite Z.add_0_r.
Qed.

Lemma item_view_copy (v : view) (m : memory) (idx : list Z) :
  in_range idx (v_shape v) -> item (view_copy v m) idx = view_get v m idx.
Proof.
  intros Hin. unfold item, view_copy. cbn [a_data a_shape].
  by rewrite list_lookup_fmap, lookup_indices_flat.
Qed.

Lemma extra_dims_shapes (t : Z) (l : list Z) :
  FI_TYPES.extra_dims !! t = Some l -> l = [] \/ l = [3] \/ l = [4].
Proof.
  intros H. unfold FI_TYPES.extra_dims in H.
  apply elem_of_list_to_map_2 in H.
  unfold FI_TYPES.extra_dims_items in H.
  repeat (apply elem_of_cons in H as [H|H];
          [ injection H as -> ->; auto | ]).
  by apply elem_of_nil in H.
Qed.

Section ReadPath.

Context {W : Type} {api : FreeImageAPI W}.

Lemma get_type_and_shape_bitmap (bitmap : Z) (d : W) (n : Z) :
  FreeImage_GetImageType bitmap d = FI_TYPES.FIT_BITMAP ->
  FreeImage_GetBPP bitmap d = 8 * n ->
  n = 3 \/ n = 4 ->
  get_type_and_shape bitmap d
  = Ok (uint8, [FreeImage_GetWidth bitmap d; FreeImage_GetHeight bitmap d; n]).
Proof.
  intros Ht Hbpp Hn. unfold get_type_and_shape. rewrite Ht, Hbpp.
  destruct Hn as [-> | ->]; reflexivity.
Qed.

Lemma swap_channels_run (v : view) (w h n : Z) (s : state W) :
  v_shape v = [w; h; n] -> 3 <= n ->
  swap_channels_0_2 v s
  = (Ok tt, mk_state (exchanged v w h (mem s)) (fi s) (trace s)).
Proof.
  intros Hshape Hn. unfold swap_channels_0_2. rewrite Hshape.
  rewrite !channel_indices_ok by lia. reflexivity.
Qed.

(** C4: the array the read path returns for an 8-bit bitmap with 3 or
    4 channels whose pitch covers a row.  It has dtype uint8 and shape
    (width, height, n); on a little-endian runtime its channel 0 is the
    store's channel 2, its channel 2 the store's channel 0, and channels
    1 and 3 are the store's; on a big-endian runtime every channel is the
    store's own.  The store's channel [c] of pixel (x, y) is the byte at
    [base + pitch * (height - 1 - y) + x * n + c] when the handle is
    handed out.  For any other element type or a 2-D shape the array
    returned is the plain copy of the view and memory is left as it
    was. *)
Theorem read_channel_order (bitmap : Z) (s : state W) :
  let d := fi s in
  let w := FreeImage_GetWidth bitmap d in
  let h := FreeImage_GetHeight bitmap d in
  let P := FreeImage_GetPitch bitmap d in
  let base := FreeImage_GetBits bitmap d in
  (forall n a s',
      FreeImage_GetImageType bitmap d = FI_TYPES.FIT_BITMAP ->
      FreeImage_GetBPP bitmap d = 8 * n ->
      n = 3 \/ n = 4 ->
      w * n <= P ->
      _array_from_bitmap bitmap s = (Ok a, s') ->
      a_dtype a = uint8 /\ a_shape a = [w; h; n] /\
      forall x y c, 0 <= x < w -> 0 <= y < h -> 0 <= c < n ->
        item a [x; y; c]
        = [mem s (base + P * (h - 1 - y) + x * n
                  + (if FreeImage_IsLittleEndian then swap02 c else c))]) /\
  (forall dt shape a s',
      get_type_and_shape bitmap d = Ok (dt, shape) ->
      dt <> uint8 \/ length shape <> 3%nat ->
      _array_from_bitmap bitmap s = (Ok a, s') ->
      s' = s /\ a_dtype a = dt /\ a_shape a = shape /\
      exists v,
        _wrap_bitmap_bits_in_array bitmap shape dt d = Ok v /\
        a = view_copy v (mem s) /\
        forall idx, in_range idx shape ->
                    item a idx = view_get v (mem s) idx).
Proof.
  intros d w h P base. split.
  - intros n a s' Ht Hbpp Hn HP Hrun.
    pose proof (get_type_and_shape_bitmap bitmap d n Ht Hbpp Hn) as Hts.
    fold w h in Hts.
    set (v := view3 base P w h n uint8).
    assert (Hwrap : _wrap_bitmap_bits_in_array bitmap [w; h; n] uint8 d = Ok v)
      by reflexivity.
    assert (Hbits : v_bits v = base) by reflexivity.
    assert (Hoff : v_offset v = P * (h - 1)) by reflexivity.
    assert (Hstr : v_strides v = [n * 1; - P; 1]) by reflexivity.
    assert (Hshape : v_shape v = [w; h; n]) by reflexivity.
    assert (Hdt : v_dtype v = uint8) by reflexivity.
    assert (Haddr : forall x y c,
               view_addr v [x; y; c]
               = base + P * (h - 1 - y) + x * (n * itemsize uint8)
                 + c * itemsize uint8).
    { intros x y c. unfold view_addr. cbn. lia. }
    assert (Hget : forall m x y c,
               view_get v m [x; y; c] = [m (base + P * (h - 1 - y) + x * n + c)]).
    { intros m x y c. unfold view_get. rewrite Hdt. cbn [itemsize].
      rewrite load_elem_1, Haddr. cbn [itemsize]. do 2 f_equal. lia. }
    revert Hrun. unfold _array_from_bitmap. run. fold d. rewrite Hts.
    cbn -[_wrap_bitmap_bits_in_array]. rewrite Hwrap.
    rewrite bool_decide_eq_true_2 by done.
    rewrite (bool_decide_eq_true_2 (uint8 = uint8)) by done.
    rewrite andb_true_r, andb_true_l.
    destruct FreeImage_IsLittleEndian.
    + rewrite (swap_channels_run v w h n s Hshape) by lia. cbn.
      intros Hrun. injection Hrun as <- <-. cbn. split; [done|].
      split; [done|]. intros x y c Hx Hy Hc.
      rewrite item_view_copy by (rewrite Hshape; by apply in_range_3).
      assert (Hstr' : v_strides v
                      = [n * itemsize (v_dtype v); - P; itemsize (v_dtype v)])
        by (rewrite Hdt; exact Hstr).
      assert (HP' : w * n * itemsize (v_dtype v) <= P)
        by (rewrite Hdt; cbn; lia).
      rewrite (exchanged_get v base P w h n Hbits Hoff Hstr' HP' (mem s) x y c)
        by lia.
      apply Hget.
    + cbn. intros Hrun. injection Hrun as <- <-. cbn. split; [done|].
      split; [done|]. intros x y c Hx Hy Hc.
      rewrite item_view_copy by (rewrite Hshape; by apply in_range_3).
      apply Hget.
  - intros dt shape a s' Hts Hother Hrun.
    assert (Hshape : exists w' h' rest, shape = w' :: h' :: rest /\
                                        (rest = [] \/ exists k, rest = [k])).
    { unfold get_type_and_shape in Hts.
      repeat case_match; simplify_eq;
        try (eexists _, _, _; split; [reflexivity|]; eauto).
      match goal with
      | H : FI_TYPES.extra_dims !! _ = Some _ |- _ =>
          destruct (extra_dims_shapes _ _ H) as [-> | [-> | ->]]; eauto
      end. }
    destruct Hshape as (w' & h' & rest & -> & Hrest).
    assert (Hwrap : exists v,
               _wrap_bitmap_bits_in_array bitmap (w' :: h' :: rest) dt d = Ok v /\
               v_shape v = w' :: h' :: rest /\ v_dtype v = dt).
    { destruct Hrest as [-> | [k ->]]; eexists; repeat split; reflexivity. }
    destruct Hwrap as (v & Hwrap & Hvs & Hvd).
    assert (Hrun0 : _array_from_bitmap bitmap s
                    = (Ok (view_copy v (mem s)), s)).
    { unfold _array_from_bitmap. run. fold d. rewrite Hts.
      cbn -[_wrap_bitmap_bits_in_array]. rewrite Hwrap.
      assert (Hcond : bool_decide (length (w' :: h' :: rest) = 3%nat)
                      && FreeImage_IsLittleEndian && bool_decide (dt = uint8)
                      = false).
      { destruct Hother as [Hdt | Hlen].
        - rewrite (bool_decide_eq_false_2 (dt = uint8)) by done.
          by rewrite andb_false_r.
        - by rewrite (bool_decide_eq_false_2 _ Hlen). }
      cbn [length] in Hcond. rewrite Hcond. cbn. by destruct s. }
    rewrite Hrun0 in Hrun. injection Hrun as <- <-.
    split; [done|]. split; [done|]. split; [done|].
    exists v. split; [done|]. split; [done|].
    intros idx Hin. apply item_view_copy. by rewrite Hvs.
Qed.

End ReadPath.

(** ** The write path and the handle discipline *)

Section WritePath.

Context {W : Type} {api : FreeImageAPI W}.

Lemma copy_into_bitmap_keeps (wrapped_array : view) (array : ndarray) :
  keeps_resources (W:=W) (copy_into_bitmap wrapped_array array).
Proof.
  intros s. unfold copy_into_bitmap. run.
  destruct (_ && _ && _); [|cbn; done].
  repeat match goal with
  | |- context [channel_indices ?sh ?c] =>
      pose proof (channel_indices_terminates sh c);
      destruct (channel_indices sh c); cbn; try done
  end;
  case_bool_decide; cbn; done.
Qed.

Lemma install_palette_keeps (bitmap : Z) :
  keeps_resources (W:=W) (install_palette bitmap).
Proof.
  intros s. unfold install_palette. run.
  destruct (bool_decide _); cbn; done.
Qed.

Lemma fill_bitmap_keeps (array : ndarray) (bitmap fi_type : Z) :
  keeps_resources (W:=W) (fill_bitmap array bitmap fi_type).
Proof.
  intros s. unfold fill_bitmap. run.
  pose proof (wrap_terminates bitmap (a_shape array) (a_dtype array) (fi s)).
  destruct (_wrap_bitmap_bits_in_array _ _ _ _) as [v| |]; cbn; try done.
  pose proof (copy_into_bitmap_keeps v array s) as (Ht & Hf & Hd).
  destruct (copy_into_bitmap v array s) as [[] s1]; cbn in *; try done.
  destruct (_ && _); cbn.
  - pose proof (install_palette_keeps bitmap s1) as (Ht' & Hf' & Hd').
    destruct (install_palette bitmap s1) as [[] s2]; cbn in *;
      repeat split; congruence.
  - done.
Qed.

Lemma fill_bitmap_result (array : ndarray) (bitmap fi_type : Z) s a s' :
  fill_bitmap array bitmap fi_type s = (Ok a, s') -> a = (bitmap, fi_type).
Proof.
  unfold fill_bitmap. run. intros H.
  repeat case_match; simplify_eq; done.
Qed.

(** [_array_to_bitmap] once the registry lookup has succeeded. *)
Lemma array_to_bitmap_unfold (array : ndarray) (n t : Z) (s : state W) :
  nchannels_of (a_shape array) = Some n ->
  FI_TYPES.fi_types !! (a_dtype array, n) = Some t ->
  _array_to_bitmap array s =
    (bitmap <~ call_AllocateT t (default 0 (a_shape array !! 0%nat))
                 (default 0 (a_shape array !! 1%nat))
                 (8 * itemsize (a_dtype array) * n);;
     if bool_decide (bitmap = 0) then raise (RuntimeError msg_alloc)
     else try_except_reraise (fill_bitmap array bitmap t)
                             (call_Unload bitmap)) s.
Proof.
  intros Hn Ht. unfold _array_to_bitmap. rewrite Hn, Ht. reflexivity.
Qed.

(** After a successful allocation [_array_to_bitmap] either returns the
    handle, still held, or has released it before raising. *)
Lemma array_to_bitmap_allocated (array : ndarray) (n t : Z) (s : state W)
    (b : Z) m' d' :
  nchannels_of (a_shape array) = Some n ->
  FI_TYPES.fi_types !! (a_dtype array, n) = Some t ->
  let w := default 0 (a_shape array !! 0%nat) in
  let h := default 0 (a_shape array !! 1%nat) in
  let bpp := 8 * itemsize (a_dtype array) * n in
  FreeImage_AllocateT t w h bpp (mem s) (fi s) = (b, m', d') ->
  b <> 0 ->
  let s1 := mk_state m' d' (trace s ++ [Call_AllocateT t w h bpp b]) in
  let r := fill_bitmap array b t s1 in
  _array_to_bitmap array s =
    match r.1 with
    | Ok _ => (Ok (b, t), r.2)
    | Raise e =>
        (Raise e, mk_state (mem r.2) (FreeImage_Unload b d')
                           (trace s ++ [Call_AllocateT t w h bpp b;
                                        Call_Unload b]))
    | Diverge => (Diverge, r.2)
    end /\
  fi r.2 = d' /\ trace r.2 = trace s ++ [Call_AllocateT t w h bpp b] /\
  r.1 <> Diverge.
Proof.
  intros Hn Ht w h bpp Halloc Hb s1 r.
  pose proof (fill_bitmap_keeps array b t s1) as (Htr & Hfi & Hd).
  fold r in Htr, Hfi, Hd. cbn in Htr, Hfi.
  split; [|done].
  rewrite (array_to_bitmap_unfold array n t s Hn Ht). run.
  fold w h bpp. rewrite Halloc. cbn.
  rewrite bool_decide_eq_false_2 by done.
  fold s1. fold r.
  pose proof (fill_bitmap_result array b t s1) as Hres. fold r in Hres.
  destruct r as [[a| |] s2]; cbn in *; try done.
  - by rewrite (Hres a s2 eq_refl).
  - rewrite Htr, Hfi, <- app_assoc. done.
Qed.

End WritePath.

Lemma count_occ_unload (b : Z) (pre : list call) :
  (forall c, In c pre -> c <> Call_Unload b) ->
  count_occ call_eq_dec (pre ++ [Call_Unload b]) (Call_Unload b) = 1%nat.
Proof.
  intros Hpre. rewrite count_occ_app.
  rewrite (proj1 (count_occ_not_In call_eq_dec pre (Call_Unload b))).
  - cbn [count_occ].
    destruct (call_eq_dec (Call_Unload b) (Call_Unload b)); [reflexivity|done].
  - intros Hin. by apply (Hpre _ Hin).
Qed.

Section HandleDiscipline.

Context {W : Type} {api : FreeImageAPI W}.

(** C2: whenever the decoder hands out a bitmap handle to [read] (the
    load returns non-null) or to [write] (the allocation returns
    non-null), the call ends, with a result or with an exception, and
    the calls it has issued by then contain exactly one
    [FreeImage_Unload] of that handle, as the last call; the error, if
    any, is returned with that final state. *)
Theorem handle_released_exactly_once :
  (forall (filename : string) (flags : Z) (s : state W) (b : Z) m' d',
      let ftype := FreeImage_GetFileType filename (fi s) in
      ftype <> -1 ->
      FreeImage_Load ftype filename flags (mem s) (fi s) = (b, m', d') ->
      b <> 0 ->
      exists r s' events,
        read filename flags s = (r, s') /\ r <> Diverge /\
        trace s' = trace s ++ events /\
        events = [Call_Load ftype filename flags b; Call_Unload b] /\
        count_occ call_eq_dec events (Call_Unload b) = 1%nat /\
        fi s' = FreeImage_Unload b d') /\
  (forall (array : ndarray) (filename : string) (flags : Z) (s : state W)
          (n t b : Z) m' d',
      let ftype := FreeImage_GetFIFFromFilename filename in
      let w := default 0 (a_shape array !! 0%nat) in
      let h := default 0 (a_shape array !! 1%nat) in
      let bpp := 8 * itemsize (a_dtype array) * n in
      ftype <> -1 ->
      nchannels_of (a_shape array) = Some n ->
      FI_TYPES.fi_types !! (a_dtype array, n) = Some t ->
      FreeImage_AllocateT t w h bpp (mem s) (fi s) = (b, m', d') ->
      b <> 0 ->
      exists r s' events saves,
        write array filename flags s = (r, s') /\ r <> Diverge /\
        trace s' = trace s ++ events /\
        events = Call_AllocateT t w h bpp b :: saves ++ [Call_Unload b] /\
        (saves = [] \/
         exists res, saves = [Call_Save ftype b filename flags res]) /\
        count_occ call_eq_dec events (Call_Unload b) = 1%nat).
Proof.
  split.
  - intros filename flags s b m' d' ftype Hft Hload Hb.
    unfold read.
    set (s1 := mk_state m' d'
                 (trace s ++ [Call_Load ftype filename flags b])).
    pose proof (array_from_bitmap_keeps b s1) as (Ht & Hf & Hd).
    rewrite (process_bitmap_unloads filename flags _array_from_bitmap
               s b m' d' Hft Hload Hb Hd).
    fold ftype. fold s1.
    eexists _, _, _. split; [reflexivity|]. cbn in *.
    split; [done|]. rewrite Ht, Hf, <- app_assoc. cbn.
    split; [reflexivity|]. split; [reflexivity|]. split; [|reflexivity].
    apply (count_occ_unload b [_]). intros c [<-|[]]; done.
  - intros array filename flags s n t b m' d' ftype w h bpp
           Hft Hn Ht Halloc Hb.
    destruct (array_to_bitmap_allocated array n t s b m' d' Hn Ht Halloc Hb)
      as (Hrun & Hfi & Htr & Hd).
    fold w h bpp in Hrun, Htr.
    unfold write. fold ftype. rewrite bool_decide_eq_false_2 by done.
    unfold bind at 1. rewrite Hrun.
    destruct (fill_bitmap array b t _) as [[a| |] s2]; cbn [fst snd] in *;
      [|clear Hrun|done].
    + run.
      destruct (negb _).
      * cbn. eexists _, _, _, []. split; [reflexivity|].
        split; [done|]. cbn. rewrite Htr, <- app_assoc. cbn.
        split; [reflexivity|]. split; [reflexivity|]. split; [by left|].
        apply (count_occ_unload b [_]). intros c [<-|[]]; done.
      * cbn. destruct (FreeImage_Save _ _ _ _ _ _) as [res dsave].
        destruct res; cbn;
          (eexists _, _, _, [Call_Save ftype b filename flags _];
           split; [reflexivity|]; split; [done|];
           split; [cbn; rewrite Htr, <- !app_assoc; reflexivity|];
           split; [reflexivity|]; split; [right; by eexists|];
           apply (count_occ_unload b [_; _]); intros c [<-|[<-|[]]]; done).
    + eexists _, _, _, []. split; [reflexivity|]. split; [done|].
      cbn. split; [reflexivity|]. split; [reflexivity|]. split; [by left|].
      apply (count_occ_unload b [_]). intros c [<-|[]]; done.
Qed.

(** C5: an array (of rank 2 or 3) whose (dtype, channel count) pair is
    not in the registry table makes [_array_to_bitmap], and [write] for
    any file name with a known type, raise the [ValueError] of the
    UnsupportedFormat kind, with the state untouched: no handle is
    allocated, no pixel is converted, nothing is saved.  The lookup is
    exact: a pair is accepted only if it is literally an entry of the
    table. *)
Theorem unregistered_pair_is_unsupported (array : ndarray) (n : Z)
    (s : state W) :
  nchannels_of (a_shape array) = Some n ->
  (a_dtype array, n) ∉ FI_TYPES.fi_types_items.*1 ->
  _array_to_bitmap array s = (Raise (ValueError msg_dtype), s) /\
  (forall filename flags,
      FreeImage_GetFIFFromFilename filename <> -1 ->
      write array filename flags s = (Raise (ValueError msg_dtype), s)) /\
  error_kind (ValueError msg_dtype) = Some UnsupportedFormat /\
  (forall dt k t, FI_TYPES.fi_types !! (dt, k) = Some t <->
                  ((dt, k), t) ∈ FI_TYPES.fi_types_items).
Proof.
  intros Hn Habs. apply fi_types_lookup_None in Habs.
  assert (Hrun : _array_to_bitmap array s = (Raise (ValueError msg_dtype), s)).
  { unfold _array_to_bitmap. rewrite Hn, Habs. reflexivity. }
  split; [exact Hrun|]. split; [|split; [reflexivity|]].
  - intros filename flags Hft. unfold write.
    rewrite bool_decide_eq_false_2 by done.
    unfold bind. by rewrite Hrun.
  - intros. apply fi_types_lookup_Some.
Qed.

(** C10: on a little-endian runtime, writing a 3-D [uint8] array of
    shape (width, height, 1) to a file name of known type, when the
    allocation returns a handle, neither succeeds nor fails with one of
    the specification's error kinds: the pair (uint8, 1) is registered,
    the bitmap is allocated, the copy indexes channel 2 and raises
    [IndexError] before a single pixel is written, and the handle is
    released before the error propagates. *)
Theorem single_channel_axis_index_error (w h : Z) (data : list (list Z))
    (filename : string) (flags : Z) (s : state W) (b : Z) m' d' :
  let array := mk_ndarray uint8 [w; h; 1] data in
  FreeImage_IsLittleEndian = true ->
  FreeImage_GetFIFFromFilename filename <> -1 ->
  FreeImage_AllocateT FI_TYPES.FIT_BITMAP w h 8 (mem s) (fi s) = (b, m', d') ->
  b <> 0 ->
  FI_TYPES.fi_types !! (uint8, 1) = Some FI_TYPES.FIT_BITMAP /\
  write array filename flags s =
    (Raise (IndexError msg_index),
     mk_state m' (FreeImage_Unload b d')
       (trace s ++ [Call_AllocateT FI_TYPES.FIT_BITMAP w h 8 b;
                    Call_Unload b])) /\
  error_kind (IndexError msg_index) = None.
Proof.
  intros array Hle Hft Halloc Hb. split; [reflexivity|].
  split; [|reflexivity].
  destruct (array_to_bitmap_allocated array 1 FI_TYPES.FIT_BITMAP s b m' d'
              eq_refl eq_refl Halloc Hb) as (Hrun & _).
  unfold write. rewrite bool_decide_eq_false_2 by done.
  unfold bind at 1. rewrite Hrun. clear Hrun.
  unfold fill_bitmap, copy_into_bitmap. run. cbn.
  rewrite Hle. cbn. reflexivity.
Qed.

End HandleDiscipline.

(** ** The grey palette *)

Lemma grey_palette_length : length _GREY_PALETTE = 256%nat.
Proof. reflexivity. Qed.

Lemma grey_palette_entries :
  Forall (fun v =>
            _GREY_PALETTE !! Z.to_nat v
              = Some (0 * 2 ^ 24 + v * 2 ^ 16 + v * 2 ^ 8 + v) /\
            encode_uint false 4 (0 * 2 ^ 24 + v * 2 ^ 16 + v * 2 ^ 8 + v)
              = [0; v; v; v] /\
            encode_uint true 4 (0 * 2 ^ 24 + v * 2 ^ 16 + v * 2 ^ 8 + v)
              = [v; v; v; 0])
         (seqZ 0 256).
Proof. refine (bool_decide_unpack _ _). vm_compute. exact I. Qed.

Lemma grey_palette_bytes (le : bool) :
  length (uint32_data le _GREY_PALETTE) = 1024%nat /\
  Forall (fun v =>
            take 4 (drop (Z.to_nat (4 * v))
                         (take (Z.to_nat 1024) (uint32_data le _GREY_PALETTE)))
            = encode_uint le 4 (0 * 2 ^ 24 + v * 2 ^ 16 + v * 2 ^ 8 + v))
         (seqZ 0 256).
Proof.
  split; [by destruct le|].
  destruct le; refine (bool_decide_unpack _ _); vm_compute; exact I.
Qed.

Section Palette.

Context {W : Type} {api : FreeImageAPI W}.

(** [fill_bitmap] on a 2-D [uint8] array: plain copy, then the palette. *)
Lemma fill_bitmap_grey (array : ndarray) (w h : Z) (b t : Z) (s : state W) :
  a_dtype array = uint8 -> a_shape array = [w; h] ->
  exists v,
    _wrap_bitmap_bits_in_array b [w; h] uint8 (fi s) = Ok v /\
    let m1 := assign v (indices [w; h]) (a_data array) (mem s) in
    let pal := FreeImage_GetPalette b (fi s) in
    fill_bitmap array b t s =
      if bool_decide (pal = 0)
      then (Raise (RuntimeError msg_palette), mk_state m1 (fi s) (trace s))
      else (Ok (b, t),
            mk_state (memmove pal
                        (uint32_data FreeImage_IsLittleEndian _GREY_PALETTE)
                        1024 m1)
                     (fi s) (trace s)).
Proof.
  intros Hdt Hshape. eexists. split; [reflexivity|]. intros m1 pal.
  unfold fill_bitmap, copy_into_bitmap, install_palette.
  rewrite Hdt, Hshape. run. cbn -[indices memmove]. fold pal.
  repeat case_bool_decide; try done; cbn -[indices memmove];
    rewrite ?bool_decide_eq_true_2, ?bool_decide_eq_false_2 by done;
    reflexivity.
Qed.

(** C6, as the code has it: after [_array_to_bitmap] has returned the
    bitmap of a 2-D (width, height) [uint8] array, the bitmap has a
    palette buffer and the 256 four-byte entries there are the quads
    (0, v, v, v): entry [v] is the 32-bit value [0x00vvvvvv] in host byte
    order.  The install step is run for 2-D [uint8] arrays only: for any
    other array [fill_bitmap] is the copy alone.  When the decoder reports
    no palette buffer for a 2-D [uint8] array, [_array_to_bitmap] releases
    the bitmap and raises the [RuntimeError] of the AllocationError
    kind. *)
Theorem grey_palette_installed :
  (forall (array : ndarray) (w h b t : Z) (s s' : state W),
      a_dtype array = uint8 -> a_shape array = [w; h] ->
      _array_to_bitmap array s = (Ok (b, t), s') ->
      let pal := FreeImage_GetPalette b (fi s') in
      pal <> 0 /\
      forall v, 0 <= v <= 255 ->
        let quad := 0 * 2 ^ 24 + v * 2 ^ 16 + v * 2 ^ 8 + v in
        _GREY_PALETTE !! Z.to_nat v = Some quad /\
        encode_uint false 4 quad = [0; v; v; v] /\
        load_elem (mem s') (pal + 4 * v) 4
          = encode_uint FreeImage_IsLittleEndian 4 quad) /\
  (forall (array : ndarray) (b t : Z) (s : state W),
      ~ (length (a_shape array) = 2%nat /\ a_dtype array = uint8) ->
      fill_bitmap array b t s
      = (d <~ get_fi;;
         wrapped_array <~
           lift (_wrap_bitmap_bits_in_array b (a_shape array) (a_dtype array) d);;
         copy_into_bitmap wrapped_array array;;;
         ret (b, t)) s) /\
  (forall (array : ndarray) (w h b : Z) (s : state W) m' d',
      a_dtype array = uint8 -> a_shape array = [w; h] ->
      FreeImage_AllocateT FI_TYPES.FIT_BITMAP w h 8 (mem s) (fi s)
        = (b, m', d') ->
      b <> 0 ->
      FreeImage_GetPalette b d' = 0 ->
      exists s',
        _array_to_bitmap array s = (Raise (RuntimeError msg_palette), s') /\
        trace s' = trace s ++ [Call_AllocateT FI_TYPES.FIT_BITMAP w h 8 b;
                               Call_Unload b] /\
        error_kind (RuntimeError msg_palette) = Some AllocationError).
Proof.
  split; [|split].
  - intros array w h b t s s' Hdt Hshape Hrun pal.
    assert (Hn : nchannels_of (a_shape array) = Some 1) by by rewrite Hshape.
    assert (Ht : FI_TYPES.fi_types !! (a_dtype array, 1)
                 = Some FI_TYPES.FIT_BITMAP) by by rewrite Hdt.
    rewrite (array_to_bitmap_unfold array 1 _ s Hn Ht) in Hrun.
    revert Hrun. run.
    destruct (FreeImage_AllocateT _ _ _ _ _ _) as [[b0 m0] d0].
    cbn [fst snd]. case_bool_decide as Hb0; [done|].
    set (s1 := mk_state m0 d0 _).
    destruct (fill_bitmap_grey array w h b0 FI_TYPES.FIT_BITMAP s1 Hdt Hshape)
      as (v & _ & Hfill).
    rewrite Hfill. cbn [fi mem trace s1].
    case_bool_decide as Hpal; [done|].
    intros [= <- <- <-]. subst pal. cbn [fi mem]. split; [done|].
    intros v0 Hv0.
    assert (Hin : v0 ∈ seqZ 0 256) by (apply elem_of_seqZ; lia).
    pose proof (proj1 (Forall_forall _ _) grey_palette_entries v0 Hin)
      as (He1 & He2 & _).
    split; [exact He1|]. split; [exact He2|].
    destruct (grey_palette_bytes FreeImage_IsLittleEndian) as [Hlen Hbytes].
    pose proof (proj1 (Forall_forall _ _) Hbytes v0 Hin) as Hv. cbn beta in Hv.
    unfold memmove.
    replace (4 * v0) with (Z.of_nat (Z.to_nat (4 * v0))) at 1 by lia.
    change 4 with (Z.of_nat 4) at 2.
    rewrite load_store_sub; [exact Hv|].
    rewrite length_take, Hlen. lia.
  - intros array b t s Hnot. unfold fill_bitmap.
    assert (Hcond : bool_decide (length (a_shape array) = 2%nat)
                    && bool_decide (a_dtype array = uint8) = false).
    { apply andb_false_iff.
      destruct (decide (length (a_shape array) = 2%nat)) as [Hl|Hl].
      - right. apply bool_decide_eq_false_2. intros Hd. by apply Hnot.
      - left. by apply bool_decide_eq_false_2. }
    rewrite Hcond. run.
    destruct (_wrap_bitmap_bits_in_array _ _ _ _); reflexivity.
  - intros array w h b s m' d' Hdt Hshape Halloc Hb Hpal.
    assert (Hn : nchannels_of (a_shape array) = Some 1) by by rewrite Hshape.
    assert (Ht : FI_TYPES.fi_types !! (a_dtype array, 1)
                 = Some FI_TYPES.FIT_BITMAP) by by rewrite Hdt.
    assert (Halloc' :
              FreeImage_AllocateT FI_TYPES.FIT_BITMAP
                (default 0 (a_shape array !! 0%nat))
                (default 0 (a_shape array !! 1%nat))
                (8 * itemsize (a_dtype array) * 1) (mem s) (fi s)
              = (b, m', d')) by by rewrite Hshape, Hdt.
    destruct (array_to_bitmap_allocated array 1 _ s b m' d' Hn Ht Halloc' Hb)
      as (Hrun & _).
    rewrite Hshape, Hdt in Hrun. cbn [lookup list_lookup default itemsize] in Hrun.
    change (8 * 1 * 1) with 8 in Hrun.
    set (s1 := mk_state m' d' _) in Hrun.
    destruct (fill_bitmap_grey array w h b FI_TYPES.FIT_BITMAP s1 Hdt Hshape)
      as (v & _ & Hfill).
    rewrite Hfill in Hrun. cbn [fi mem trace s1] in Hrun.
    rewrite Hpal, bool_decide_eq_true_2 in Hrun by done.
    cbn in Hrun. eexists. split; [exact Hrun|]. split; reflexivity.
Qed.

End Palette.

(** ** Round trip: views across a save and a load *)

Lemma load_elem_shift (m m' : memory) (a a' n : Z) :
  (forall j, 0 <= j < n -> m' (a' + j) = m (a + j)) ->
  load_elem m' a' n = load_elem m a n.
Proof.
  intros H. unfold load_elem. apply list_fmap_ext.
  intros i j Hj. apply lookup_seqZ in Hj as [-> Hi]. apply H. lia.
Qed.

Lemma view3_addr (base P w h n : Z) (dt : dtype) (x y c : Z) :
  view_addr (view3 base P w h n dt) [x; y; c]
  = base + (h - 1 - y) * P + (x * n + c) * itemsize dt.
Proof. unfold view_addr. cbn. lia. Qed.

Lemma view2_addr (base P w h : Z) (dt : dtype) (x y : Z) :
  view_addr (view2 base P w h dt) [x; y]
  = base + (h - 1 - y) * P + x * itemsize dt.
Proof. unfold view_addr. cbn. lia. Qed.

Section Transfer.

Variables (m m' : memory) (base P base' P' w h : Z) (dt : dtype).

Lemma transfer3 (n x y c : Z) :
  (forall r i, 0 <= r < h -> 0 <= i -> i < w * n * itemsize dt ->
               m' (base' + r * P' + i) = m (base + r * P + i)) ->
  0 <= x < w -> 0 <= y < h -> 0 <= c < n ->
  view_get (view3 base' P' w h n dt) m' [x; y; c]
  = view_get (view3 base P w h n dt) m [x; y; c].
Proof.
  intros Hrows Hx Hy Hc. unfold view_get. cbn [v_dtype view3].
  rewrite !view3_addr. pose proof (itemsize_pos dt) as Hs.
  apply load_elem_shift. intros j Hj.
  assert (Hq : 0 <= x * n + c /\ x * n + c + 1 <= w * n) by nia.
  rewrite <- !(Z.add_assoc (_ + _ * _)). apply Hrows; [lia|nia|nia].
Qed.

Lemma transfer2 (x y : Z) :
  (forall r i, 0 <= r < h -> 0 <= i -> i < w * itemsize dt ->
               m' (base' + r * P' + i) = m (base + r * P + i)) ->
  0 <= x < w -> 0 <= y < h ->
  view_get (view2 base' P' w h dt) m' [x; y]
  = view_get (view2 base P w h dt) m [x; y].
Proof.
  intros Hrows Hx Hy. unfold view_get. cbn [v_dtype view2].
  rewrite !view2_addr. pose proof (itemsize_pos dt) as Hs.
  apply load_elem_shift. intros j Hj.
  rewrite <- !(Z.add_assoc (_ + _ * _)). apply Hrows; [lia|nia|nia].
Qed.

End Transfer.

(** ** Round trip: what the write path leaves in the bitmap *)

Lemma item_sized (a : ndarray) (idx : list Z) :
  well_formed a -> in_range idx (a_shape a) ->
  Z.of_nat (length (item a idx)) = itemsize (a_dtype a) /\
  a_data a !! Z.to_nat (flat_index (a_shape a) idx) = Some (item a idx).
Proof.
  intros (Hnn & Hlen & Hsz) Hin.
  pose proof (lookup_indices_flat _ _ Hin) as Hk.
  apply lookup_lt_Some in Hk.
  assert (Hli : length (indices (a_shape a)) = length (a_data a)).
  { rewrite <- (length_fmap (flat_index (a_shape a))), flat_indices by done.
    rewrite length_seqZ. lia. }
  rewrite Hli in Hk.
  destruct (lookup_lt_is_Some_2 _ _ Hk) as [e He].
  unfold item. rewrite He. cbn. split; [|done].
  by apply (proj1 (Forall_lookup _ _) Hsz _ _ He).
Qed.

Lemma length_indices (shape : list Z) :
  Forall (fun d => 0 <= d) shape ->
  length (indices shape) = Z.to_nat (product shape).
Proof.
  intros H.
  rewrite <- (length_fmap (flat_index shape)), flat_indices by done.
  by rewrite length_seqZ.
Qed.

Lemma separated_indices_2d (v : view) (base P w h : Z) :
  v_bits v = base -> v_offset v = P * (h - 1) ->
  v_strides v = [itemsize (v_dtype v); - P] ->
  w * itemsize (v_dtype v) <= P ->
  separated v (indices [w; h]).
Proof.
  intros Hb Ho Hs HP i j t t' Hij Hi Hj.
  assert (Hin : in_range t [w; h]).
  { apply elem_of_indices, list_elem_of_lookup. eauto. }
  assert (Hin' : in_range t' [w; h]).
  { apply elem_of_indices, list_elem_of_lookup. eauto. }
  apply in_range_2_inv in Hin as (x & y & -> & ? & ?).
  apply in_range_2_inv in Hin' as (x' & y' & -> & ? & ?).
  eapply apart_2d; eauto.
  intros Heq. apply Hij.
  assert (Hnd : NoDup (indices [w; h])).
  { apply NoDup_indices. repeat constructor; lia. }
  rewrite Heq in Hi. by eapply NoDup_lookup.
Qed.

(** After [wrapped_array[:] = array] every element of the view is the
    array's. *)
Lemma plain_copy_get (v : view) (a : ndarray) (m : memory) (idx : list Z) :
  well_formed a -> v_dtype v = a_dtype a -> v_shape v = a_shape a ->
  separated v (indices (a_shape a)) ->
  in_range idx (a_shape a) ->
  view_get v (assign v (indices (v_shape v)) (a_data a) m) idx = item a idx.
Proof.
  intros Hwf Hdt Hshape Hsep Hin. rewrite Hshape.
  destruct (item_sized a idx Hwf Hin) as [_ Hitem].
  eapply assign_get; eauto.
  - unfold sized. rewrite Hdt. apply Hwf.
  - by apply lookup_indices_flat.
Qed.


Section WriteReorder.

Variables (base P w h n : Z) (dt : dtype) (a : ndarray).
Hypothesis Hpitch : w * n * itemsize dt <= P.
Hypothesis Hwf : well_formed a.
Hypothesis Hdt : a_dtype a = dt.
Hypothesis Hshape : a_shape a = [w; h; n].

Let v := view3 base P w h n dt.

Lemma sized_channel_items (c : Z) :
  0 <= c < n -> sized v (item a <$> channel w h c).
Proof.
  intros Hc. apply Forall_fmap, Forall_forall. intros t Ht. cbn.
  apply list_elem_of_lookup in Ht as [k Hk].
  apply lookup_channel in Hk as (x & y & -> & Hk).
  assert (Hin : in_range [x; y] [w; h]).
  { apply elem_of_indices, list_elem_of_lookup. eauto. }
  apply in_range_2 in Hin as [? ?].
  rewrite <- Hdt. apply item_sized; [done|].
  rewrite Hshape. by apply in_range_3.
Qed.

Lemma assign_channel_get (m : memory) (c c' x y : Z) :
  0 <= c < n -> 0 <= c' < n -> 0 <= x < w -> 0 <= y < h ->
  view_get v (assign v (channel w h c) (item a <$> channel w h c') m) [x; y; c]
  = item a [x; y; c'].
Proof.
  intros Hc Hc' Hx Hy.
  assert (Hxy : in_range [x; y] [w; h]) by by apply in_range_2.
  apply elem_of_indices, list_elem_of_lookup in Hxy as [k Hk].
  eapply (assign_get v _ _ m k).
  - by apply sized_channel_items.
  - by apply (separated_channel v base P w h n).
  - apply lookup_channel. eauto.
  - rewrite list_lookup_fmap.
    assert (Hk' : channel w h c' !! k = Some [x; y; c']).
    { apply lookup_channel. eauto. }
    by rewrite Hk'.
Qed.

Lemma assign_channel_frame (m : memory) (c c' c'' x y : Z) :
  0 <= c < n -> 0 <= c' < n -> 0 <= c'' < n -> c'' <> c ->
  0 <= x < w -> 0 <= y < h ->
  view_get v (assign v (channel w h c) (item a <$> channel w h c') m)
           [x; y; c'']
  = view_get v m [x; y; c''].
Proof.
  intros Hc Hc' Hc'' Hne Hx Hy. apply view_get_frame.
  - by apply sized_channel_items.
  - intros t Ht.
    by apply (apart_channel v base P w h n eq_refl eq_refl eq_refl Hpitch
                x y c'' c t).
Qed.

Lemma reordered_get (m : memory) (x y c : Z) :
  n = 3 \/ n = 4 -> 0 <= x < w -> 0 <= y < h -> 0 <= c < n ->
  view_get v (reordered v a w h n m) [x; y; c] = item a [x; y; swap02 c].
Proof.
  intros Hn Hx Hy Hc. unfold reordered.
  assert (Hcases : c = 0 \/ c = 1 \/ c = 2 \/ (c = 3 /\ n = 4)) by lia.
  case_bool_decide as H4.
  - destruct Hcases as [-> | [-> | [-> | [-> _]]]].
    + change (swap02 0) with 2.
      rewrite !assign_channel_frame by lia. apply assign_channel_get; lia.
    + change (swap02 1) with 1.
      rewrite !assign_channel_frame by lia. apply assign_channel_get; lia.
    + change (swap02 2) with 0.
      rewrite !assign_channel_frame by lia. apply assign_channel_get; lia.
    + change (swap02 3) with 3. apply assign_channel_get; lia.
  - destruct Hcases as [-> | [-> | [-> | [-> ?]]]]; [| | |done].
    + change (swap02 0) with 2.
      rewrite !assign_channel_frame by lia. apply assign_channel_get; lia.
    + change (swap02 1) with 1.
      rewrite !assign_channel_frame by lia. apply assign_channel_get; lia.
    + change (swap02 2) with 0. apply assign_channel_get; lia.
Qed.

End WriteReorder.

(** ** Round trip: running [write] and [read] *)

Lemma swap02_involutive (c : Z) : swap02 (swap02 c) = c.
Proof. unfold swap02. repeat case_bool_decide; lia. Qed.

Lemma swap02_range (c n : Z) : 3 <= n -> 0 <= c < n -> 0 <= swap02 c < n.
Proof. unfold swap02. repeat case_bool_decide; lia. Qed.

Section RoundTripRuns.

Context {W : Type} {api : FreeImageAPI W}.

Lemma wrap_3d (b w h n : Z) (dt : dtype) (d : W) :
  _wrap_bitmap_bits_in_array b [w; h; n] dt d
  = Ok (view3 (FreeImage_GetBits b d) (FreeImage_GetPitch b d) w h n dt).
Proof. reflexivity. Qed.

Lemma wrap_2d (b w h : Z) (dt : dtype) (d : W) :
  _wrap_bitmap_bits_in_array b [w; h] dt d
  = Ok (view2 (FreeImage_GetBits b d) (FreeImage_GetPitch b d) w h dt).
Proof. reflexivity. Qed.

Lemma copy_swap_run (v : view) (a : ndarray) (w h n : Z) (s : state W) :
  FreeImage_IsLittleEndian = true -> a_dtype a = uint8 ->
  a_shape a = [w; h; n] -> n = 3 \/ n = 4 -> v_shape v = [w; h; n] ->
  copy_into_bitmap v a s
  = (Ok tt, mk_state (reordered v a w h n (mem s)) (fi s) (trace s)).
Proof.
  intros Hle Hdt Hshape Hn Hv. unfold copy_into_bitmap, reordered.
  rewrite Hle, Hdt, Hshape, Hv. cbn [length].
  rewrite !bool_decide_eq_true_2 by done. cbn [andb].
  destruct Hn as [-> | ->]; run; rewrite !channel_indices_ok by lia;
    cbn -[assign channel]; reflexivity.
Qed.

Lemma copy_plain_run (v : view) (a : ndarray) (s : state W) :
  bool_decide (length (a_shape a) = 3%nat) && FreeImage_IsLittleEndian
    && bool_decide (a_dtype a = uint8) = false ->
  copy_into_bitmap v a s
  = (Ok tt, mk_state (assign v (indices (v_shape v)) (a_data a) (mem s))
                     (fi s) (trace s)).
Proof.
  intros Hcond. unfold copy_into_bitmap. rewrite Hcond. reflexivity.
Qed.

Lemma array_from_bitmap_3d (b : Z) (s : state W) (dt : dtype) (w h n : Z) :
  get_type_and_shape b (fi s) = Ok (dt, [w; h; n]) -> 3 <= n ->
  let v := view3 (FreeImage_GetBits b (fi s)) (FreeImage_GetPitch b (fi s))
                 w h n dt in
  _array_from_bitmap b s
  = if FreeImage_IsLittleEndian && bool_decide (dt = uint8)
    then (Ok (view_copy v (exchanged v w h (mem s))),
          mk_state (exchanged v w h (mem s)) (fi s) (trace s))
    else (Ok (view_copy v (mem s)), s).
Proof.
  intros Hts Hn v. unfold _array_from_bitmap. run. rewrite Hts.
  cbn -[_wrap_bitmap_bits_in_array]. rewrite wrap_3d. fold v.
  rewrite bool_decide_eq_true_2 by done. cbn [andb].
  destruct (FreeImage_IsLittleEndian && bool_decide (dt = uint8)).
  - rewrite (swap_channels_run v w h n s eq_refl Hn). reflexivity.
  - by destruct s.
Qed.

Lemma array_from_bitmap_2d (b : Z) (s : state W) (dt : dtype) (w h : Z) :
  get_type_and_shape b (fi s) = Ok (dt, [w; h]) ->
  _array_from_bitmap b s
  = (Ok (view_copy (view2 (FreeImage_GetBits b (fi s))
                          (FreeImage_GetPitch b (fi s)) w h dt) (mem s)), s).
Proof.
  intros Hts. unfold _array_from_bitmap. run. rewrite Hts.
  cbn -[_wrap_bitmap_bits_in_array]. rewrite wrap_2d.
  rewrite bool_decide_eq_false_2 by done. cbn. by destruct s.
Qed.

(** The pixel type a registered pair is written as reads back as the
    pair's dtype and, for a canonical shape, as the same shape. *)
Lemma get_type_and_shape_registered (b : Z) (d : W) (dt : dtype) (n t : Z) :
  FI_TYPES.fi_types !! (dt, n) = Some t ->
  FreeImage_GetImageType b d = t ->
  FreeImage_GetBPP b d = 8 * itemsize dt * n ->
  get_type_and_shape b d
  = Ok (dt, [FreeImage_GetWidth b d; FreeImage_GetHeight b d]
              ++ (if bool_decide (n = 1) then [] else [n])).
Proof.
  intros Hreg Ht Hbpp.
  destruct (fi_types_registered dt n t Hreg)
    as (Hn & Hdt & Ht0 & Hbm & Hnbm).
  unfold get_type_and_shape. rewrite Ht, Hbpp, Hdt.
  rewrite bool_decide_eq_false_2 by done.
  destruct (decide (t = FI_TYPES.FIT_BITMAP)) as [Hb|Hb].
  - rewrite (bool_decide_eq_true_2 _ Hb), (Hbm Hb). cbn [itemsize].
    destruct Hn as [-> | [-> | ->]]; reflexivity.
  - rewrite (bool_decide_eq_false_2 _ Hb).
    destruct (Hnbm Hb) as [_ ->]. reflexivity.
Qed.

Lemma write_ok_inv (array : ndarray) (filename : string) (flags : Z)
    (s s1 : state W) :
  write array filename flags s = (Ok tt, s1) ->
  exists n t b m0 d0 sA dS,
    let ftype := FreeImage_GetFIFFromFilename filename in
    let w := default 0 (a_shape array !! 0%nat) in
    let h := default 0 (a_shape array !! 1%nat) in
    let bpp := 8 * itemsize (a_dtype array) * n in
    ftype <> -1 /\
    nchannels_of (a_shape array) = Some n /\
    FI_TYPES.fi_types !! (a_dtype array, n) = Some t /\
    FreeImage_AllocateT t w h bpp (mem s) (fi s) = (b, m0, d0) /\
    b <> 0 /\
    fill_bitmap array b t
      (mk_state m0 d0 (trace s ++ [Call_AllocateT t w h bpp b]))
      = (Ok (b, t), sA) /\
    fi sA = d0 /\
    FreeImage_Save ftype b filename flags (mem sA) d0 = (true, dS) /\
    mem s1 = mem sA /\ fi s1 = FreeImage_Unload b dS.
Proof.
  unfold write. case_bool_decide as Hft; [done|].
  unfold bind at 1.
  destruct (_array_to_bitmap array s) as [[[b t]| |] sA] eqn:Harr; try done.
  intros Hrest.
  unfold _array_to_bitmap in Harr.
  destruct (nchannels_of (a_shape array)) as [n|] eqn:Hn; [|done].
  destruct (FI_TYPES.fi_types !! (a_dtype array, n)) as [t0|] eqn:Ht; [|done].
  revert Harr. unfold bind at 1. unfold call_AllocateT.
  destruct (FreeImage_AllocateT _ _ _ _ _ _) as [[b0 m0] d0] eqn:Halloc.
  destruct (decide (b0 = 0)) as [Hb0|Hb0].
  { by rewrite (bool_decide_eq_true_2 _ Hb0). }
  rewrite (bool_decide_eq_false_2 _ Hb0).
  unfold try_except_reraise.
  pose proof (fill_bitmap_keeps array b0 t0
                (mk_state m0 d0
                   (trace s ++ [Call_AllocateT t0
                      (default 0 (a_shape array !! 0%nat))
                      (default 0 (a_shape array !! 1%nat))
                      (8 * itemsize (a_dtype array) * n) b0])))
    as (_ & Hfi & _).
  destruct (fill_bitmap array b0 t0 _) as [[r| |] sF] eqn:Hfill; try done.
  intros [= -> ->].
  pose proof (fill_bitmap_result _ _ _ _ _ _ Hfill) as [= -> ->].
  cbn in Hfi.
  revert Hrest. unfold try_finally, bind, get_fi, call_Save, call_Unload,
    raise, ret. cbn [fst snd].
  destruct (negb _); [done|].
  destruct (FreeImage_Save _ _ _ _ _ _) as [res dS] eqn:Hsave.
  destruct res; cbn; [|done].
  intros [= <-]. cbn. rewrite Hfi in Hsave.
  exists n, t0, b0, m0, d0, sA, dS. cbn zeta. repeat split; done.
Qed.

End RoundTripRuns.

Lemma palette_frame (base P w h pal : Z) (dt : dtype) (m : memory)
    (bytes : list Z) (x y : Z) :
  pal + 1024 <= base \/ base + P * h <= pal ->
  w * itemsize dt <= P -> 0 <= x < w -> 0 <= y < h ->
  view_get (view2 base P w h dt) (memmove pal bytes 1024 m) [x; y]
  = view_get (view2 base P w h dt) m [x; y].
Proof.
  intros Hpal HP Hx Hy. unfold view_get, memmove. cbn [v_dtype view2].
  pose proof (itemsize_pos dt) as Hs.
  apply load_store_other. rewrite view2_addr, length_take.
  assert (Hrow : x * itemsize dt + itemsize dt <= P) by nia.
  assert (Hlo : 0 <= (h - 1 - y) * P) by nia.
  assert (Hhi : (h - 1 - y) * P + P <= P * h) by nia.
  lia.
Qed.

Section RoundTrip.

Context {W : Type} {api : FreeImageAPI W}.

Lemma fill_bitmap_unfold (array : ndarray) (b t : Z) (s : state W) (v : view) :
  _wrap_bitmap_bits_in_array b (a_shape array) (a_dtype array) (fi s) = Ok v ->
  fill_bitmap array b t s
  = match copy_into_bitmap v array s with
    | (Ok _, s1) =>
        match (if bool_decide (length (a_shape array) = 2%nat)
                  && bool_decide (a_dtype array = uint8)
               then install_palette b else ret tt) s1 with
        | (Ok _, s2) => (Ok (b, t), s2)
        | (Raise e, s2) => (Raise e, s2)
        | (Diverge, s2) => (Diverge, s2)
        end
    | (Raise e, s1) => (Raise e, s1)
    | (Diverge, s1) => (Diverge, s1)
    end.
Proof.
  intros Hwrap. unfold fill_bitmap. run. rewrite Hwrap.
  destruct (copy_into_bitmap v array s) as [[] s1]; reflexivity.
Qed.

(** What [fill_bitmap] leaves in the bitmap of a canonical array: at
    every index the array's element, channels 0 and 2 exchanged where
    the write path reorders. *)
Lemma fill_bitmap_written (array : ndarray) (b t n : Z) (s sA : state W) :
  well_formed array -> canonical (a_shape array) ->
  nchannels_of (a_shape array) = Some n -> n = 1 \/ n = 3 \/ n = 4 ->
  let w := default 0 (a_shape array !! 0%nat) in
  let h := default 0 (a_shape array !! 1%nat) in
  let base := FreeImage_GetBits b (fi s) in
  let P := FreeImage_GetPitch b (fi s) in
  let pal := FreeImage_GetPalette b (fi s) in
  w * n * itemsize (a_dtype array) <= P ->
  (pal <> 0 -> pal + 1024 <= base \/ base + P * h <= pal) ->
  fill_bitmap array b t s = (Ok (b, t), sA) ->
  exists v,
    _wrap_bitmap_bits_in_array b (a_shape array) (a_dtype array) (fi s) = Ok v /\
    forall idx, in_range idx (a_shape array) ->
      view_get v (mem sA) idx
      = item array (reorder_index FreeImage_IsLittleEndian (a_dtype array) idx).
Proof.
  intros Hwf Hcan Hn Hn134 w h base P pal HP Hpal Hfill.
  destruct Hcan as [(w0 & h0 & Hshape) | (w0 & h0 & n0 & Hshape & Hn0)].
  - (* 2-D *)
    rewrite Hshape in Hn. injection Hn as <-.
    subst w h. rewrite Hshape in *. cbn [lookup list_lookup default] in *.
    unfold id in *.
    rewrite wrap_2d. fold base P. eexists. split; [reflexivity|].
    set (v := view2 base P w0 h0 (a_dtype array)).
    assert (Hsep : separated v (indices [w0; h0])).
    { apply (separated_indices_2d v base P w0 h0); try reflexivity.
      cbn [v_dtype v view2]. lia. }
    assert (Hcopy : forall m idx, in_range idx [w0; h0] ->
               view_get v (assign v (indices [w0; h0]) (a_data array) m) idx
               = item array idx).
    { intros m idx Hin.
      apply (plain_copy_get v array m idx Hwf eq_refl);
        [by rewrite Hshape|by rewrite Hshape|by rewrite Hshape]. }
    assert (Hwrap : _wrap_bitmap_bits_in_array b (a_shape array)
                      (a_dtype array) (fi s) = Ok v)
      by (rewrite Hshape; apply wrap_2d).
    rewrite (fill_bitmap_unfold array b t s v Hwrap) in Hfill.
    rewrite copy_plain_run in Hfill by (rewrite Hshape; reflexivity).
    rewrite Hshape in Hfill. cbn [v_shape v view2 length] in Hfill.
    rewrite (bool_decide_eq_true_2 (2%nat = 2%nat)) in Hfill by done.
    cbn [andb] in Hfill. intros idx Hin.
    apply in_range_2_inv in Hin as (x & y & -> & Hx & Hy).
    cbn [reorder_index].
    destruct (decide (a_dtype array = uint8)) as [Hu8|Hu8].
    + rewrite (bool_decide_eq_true_2 _ Hu8) in Hfill.
      revert Hfill. unfold install_palette. run. fold pal.
      destruct (decide (pal = 0)) as [Hp0|Hp0].
      * by rewrite (bool_decide_eq_true_2 _ Hp0).
      * rewrite (bool_decide_eq_false_2 _ Hp0). cbn. intros [= <-].
        cbn [mem]. unfold v.
        rewrite palette_frame;
          [apply Hcopy; by apply in_range_2 | by apply Hpal | lia
          | done | done].
    + rewrite (bool_decide_eq_false_2 _ Hu8) in Hfill.
      revert Hfill. run. intros [= <-]. cbn [mem].
      apply Hcopy. by apply in_range_2.
  - (* 3-D *)
    rewrite Hshape in Hn. injection Hn as <-.
    assert (Hn34 : n0 = 3 \/ n0 = 4) by lia.
    subst w h. rewrite Hshape in *. cbn [lookup list_lookup default] in *.
    unfold id in *.
    rewrite wrap_3d. fold base P. eexists. split; [reflexivity|].
    set (v := view3 base P w0 h0 n0 (a_dtype array)).
    assert (Hwrap : _wrap_bitmap_bits_in_array b (a_shape array)
                      (a_dtype array) (fi s) = Ok v)
      by (rewrite Hshape; apply wrap_3d).
    rewrite (fill_bitmap_unfold array b t s v Hwrap) in Hfill.
    rewrite Hshape in Hfill. cbn [length] in Hfill.
    rewrite (bool_decide_eq_false_2 (3%nat = 2%nat)) in Hfill by done.
    cbn [andb] in Hfill. revert Hfill.
    destruct (FreeImage_IsLittleEndian && bool_decide (a_dtype array = uint8))
      eqn:Hswap.
    + apply andb_true_iff in Hswap as [Hle Hu8].
      apply bool_decide_eq_true_1 in Hu8.
      rewrite (copy_swap_run v array w0 h0 n0 _ Hle Hu8 Hshape Hn34 eq_refl).
      run. intros [= <-] idx Hin. cbn [mem].
      apply in_range_3_inv in Hin as (x & y & c & -> & Hx & Hy & Hc).
      cbn [reorder_index]. rewrite Hle, (bool_decide_eq_true_2 _ Hu8).
      cbn [andb]. unfold v.
      apply (reordered_get base P w0 h0 n0 (a_dtype array) array);
        try done; lia.
    + rewrite copy_plain_run.
      2:{ rewrite Hshape. cbn [length].
          rewrite bool_decide_eq_true_2 by done. cbn [andb]. exact Hswap. }
      run. intros [= <-] idx Hin. cbn [mem v_shape v view3].
      assert (Hreo : reorder_index FreeImage_IsLittleEndian (a_dtype array) idx
                     = idx).
      { unfold reorder_index. rewrite Hswap. by repeat case_match. }
      rewrite Hreo.
      apply (plain_copy_get v array _ idx Hwf eq_refl);
        [by rewrite Hshape| |by rewrite Hshape].
      rewrite Hshape.
      apply (separated_indices_3d v base P w0 h0 n0); try reflexivity.
      cbn [v_dtype v view3]. lia.
Qed.

End RoundTrip.

(** ** Round trip: the theorem *)

Lemma view_copy_eq (v : view) (m : memory) (array : ndarray) :
  well_formed array ->
  v_dtype v = a_dtype array -> v_shape v = a_shape array ->
  (forall idx, in_range idx (a_shape array) ->
               view_get v m idx = item array idx) ->
  view_copy v m = array.
Proof.
  intros Hwf Hdt Hshape Hget. unfold view_copy. rewrite Hdt, Hshape.
  destruct Hwf as (Hnn & Hlen & _).
  pose proof (item_indices array Hnn Hlen) as Hitems.
  destruct array as [dt shape data]. cbn [a_dtype a_shape a_data] in *.
  f_equal. rewrite <- Hitems. apply list_fmap_ext. intros i idx Hidx.
  apply Hget. apply elem_of_indices, list_elem_of_lookup. eauto.
Qed.

Section RoundTripTheorem.

Context {W : Type} {api : FreeImageAPI W}.

(** C1, as the code has it: with a decoder that allocates what is asked
    and a file format that loses nothing, an array of canonical shape,
    (width, height) or (width, height, n) with n other than 1, that
    [write] has written is what [read] of the same file returns: same
    dtype, same shape, same elements byte for byte. *)
Theorem write_then_read_roundtrip (array : ndarray) (filename : string)
    (flags : Z) (s s1 : state W) :
  allocation_law -> lossless filename flags ->
  well_formed array -> canonical (a_shape array) ->
  write array filename flags s = (Ok tt, s1) ->
  exists s2, read filename 0 s1 = (Ok array, s2).
Proof.
  intros Halloc Hloss Hwf Hcan Hwrite.
  destruct (write_ok_inv array filename flags s s1 Hwrite)
    as (n & t & b & m0 & d0 & sA & dS & Hft & Hn & Hreg & Ha & Hb & Hfill
        & HfiA & Hsave & Hmem & Hfi).
  destruct (fi_types_registered _ _ _ Hreg) as (Hn134 & _).
  destruct (Halloc _ _ _ _ _ _ _ _ _ Ha Hb)
    as (Hty & Hw & Hh & Hbpp & Hpitch & Hpal).
  set (w := default 0 (a_shape array !! 0%nat)) in *.
  set (h := default 0 (a_shape array !! 1%nat)) in *.
  set (dt := a_dtype array) in *.
  pose proof (itemsize_pos dt) as Hs.
  set (s0 := mk_state m0 d0 _) in Hfill.
  destruct (fill_bitmap_written array b t n s0 sA Hwf Hcan Hn Hn134)
    as (v & Hwrap & Hwritten); [cbn [fi s0]; fold w dt; nia
                               |cbn [fi s0]; fold h; exact Hpal|exact Hfill|].
  cbn [fi s0] in Hwrap. fold dt in Hwrap, Hwritten.
  destruct (Hloss b (mem sA) d0 dS Hsave) as (Hft' & Hload).
  destruct (FreeImage_Load
              (FreeImage_GetFileType filename (FreeImage_Unload b dS))
              filename 0 (mem sA) (FreeImage_Unload b dS))
    as [[b' m'] d3] eqn:HL.
  destruct (Hload b' m' d3 eq_refl)
    as (Hb' & Hty' & Hw' & Hh' & Hbpp' & Hpitch' & Hrows).
  rewrite Hty in Hty'. rewrite Hw, Hbpp in Hpitch', Hrows.
  rewrite Hw in Hw'. rewrite Hh in Hh', Hrows. rewrite Hbpp in Hbpp'.
  unfold read.
  set (sL := mk_state m' d3
               (trace s1 ++ [Call_Load (FreeImage_GetFileType filename (fi s1))
                                       filename 0 b'])).
  pose proof (array_from_bitmap_keeps b' sL) as (_ & _ & Hterm).
  rewrite (process_bitmap_unloads filename 0 _array_from_bitmap s1 b' m' d3);
    [ | by rewrite Hfi | by rewrite Hfi, Hmem | done | exact Hterm ].
  fold sL.
  assert (Hres : (_array_from_bitmap b' sL).1 = Ok array);
    [|rewrite Hres; eexists; reflexivity].
  pose proof (get_type_and_shape_registered b' d3 dt n t Hreg Hty' Hbpp')
    as Hts.
  rewrite Hw', Hh' in Hts.
  assert (Hrows' : forall r i, 0 <= r < h -> 0 <= i ->
             i < w * n * itemsize dt ->
             m' (FreeImage_GetBits b' d3 + r * FreeImage_GetPitch b' d3 + i)
             = mem sA (FreeImage_GetBits b d0 + r * FreeImage_GetPitch b d0 + i)).
  { intros r i Hr Hi Hlt. apply Hrows; [done|done|nia]. }
  assert (Hpitch'' : w * n * itemsize dt <= FreeImage_GetPitch b' d3) by nia.
  destruct Hcan as [(w0 & h0 & Hshape) | (w0 & h0 & n0 & Hshape & Hn0)].
  - (* 2-D *)
    rewrite Hshape in Hn. injection Hn as <-.
    subst w h. rewrite Hshape in *. cbn [lookup list_lookup default] in *.
    unfold id in *. cbn [bool_decide] in Hts.
    rewrite bool_decide_eq_true_2 in Hts by done. cbn [app] in Hts.
    rewrite (array_from_bitmap_2d b' sL dt w0 h0 Hts). cbn [fst fi mem sL].
    f_equal. apply view_copy_eq; [done|done|by rewrite Hshape|].
    rewrite Hshape. intros idx Hin.
    apply in_range_2_inv in Hin as (x & y & -> & Hx & Hy).
    rewrite (transfer2 (mem sA) m' (FreeImage_GetBits b d0)
               (FreeImage_GetPitch b d0)); [|intros; apply Hrows'; lia|done|done].
    rewrite wrap_2d in Hwrap. injection Hwrap as <-.
    rewrite Hwritten by by apply in_range_2. reflexivity.
  - (* 3-D *)
    rewrite Hshape in Hn. injection Hn as <-.
    assert (Hn34 : n0 = 3 \/ n0 = 4) by lia.
    subst w h. rewrite Hshape in *. cbn [lookup list_lookup default] in *.
    unfold id in *.
    rewrite bool_decide_eq_false_2 in Hts by done. cbn [app] in Hts.
    rewrite (array_from_bitmap_3d b' sL dt w0 h0 n0 Hts) by lia.
    cbn [fi mem sL].
    rewrite wrap_3d in Hwrap. injection Hwrap as <-.
    set (v' := view3 (FreeImage_GetBits b' d3) (FreeImage_GetPitch b' d3)
                     w0 h0 n0 dt).
    assert (Htransfer : forall x y c,
               0 <= x < w0 -> 0 <= y < h0 -> 0 <= c < n0 ->
               view_get v' m' [x; y; c]
               = item array (reorder_index FreeImage_IsLittleEndian dt
                                           [x; y; c])).
    { intros x y c Hx Hy Hc. unfold v'.
      rewrite (transfer3 (mem sA) m' (FreeImage_GetBits b d0)
                 (FreeImage_GetPitch b d0)); [|exact Hrows'|done|done|done].
      apply Hwritten. by apply in_range_3. }
    destruct (FreeImage_IsLittleEndian && bool_decide (dt = uint8)) eqn:Hswap;
      cbn [fst]; f_equal;
      (apply view_copy_eq; [done|done|by rewrite Hshape|]);
      rewrite Hshape; intros idx Hin;
      apply in_range_3_inv in Hin as (x & y & c & -> & Hx & Hy & Hc).
    + rewrite (exchanged_get v' _ (FreeImage_GetPitch b' d3) w0 h0 n0
                 eq_refl eq_refl eq_refl Hpitch'' m' x y c) by lia.
      rewrite Htransfer by (try done; apply swap02_range; lia).
      cbn [reorder_index]. rewrite Hswap. by rewrite swap02_involutive.
    + rewrite Htransfer by done. cbn [reorder_index]. by rewrite Hswap.
Qed.

End RoundTripTheorem.

(** ** Multi-page reads *)

Section MultiPage.

Context {W : Type} {api : FreeImageAPI W}.

Lemma array_from_bitmap_balanced : balanced (W:=W) _array_from_bitmap.
Proof.
  intros b s. pose proof (array_from_bitmap_keeps b s) as (Ht & _ & Hd).
  split; [done|]. exists []. by rewrite app_nil_r.
Qed.

Lemma remove_one_head (r : resource) (held : list resource) :
  remove_one r (r :: held) = held.
Proof. cbn. by rewrite decide_True. Qed.

Lemma pages_loop_cons {A} (mb : Z) (process_func : Z -> M W A) (i : Z)
    (rest : list Z) (out : list A) :
  pages_loop mb process_func (i :: rest) out =
    (bitmap <~ call_LockPage mb i;;
     if bool_decide (bitmap = 0) then raise (ValueError msg_lock_page)
     else
       r <~ try_finally (process_func bitmap)
                        (call_UnlockPage mb bitmap false);;
       pages_loop mb process_func rest (out ++ [r])).
Proof. reflexivity. Qed.

(** The page loop: every page it locks it unlocks, and a list it
    returns holds one entry per page. *)
Lemma pages_loop_balanced {A} (mb : Z) (process_func : Z -> M W A)
    (pages : list Z) :
  balanced process_func ->
  forall (out : list A) (s : state W),
  exists events,
    trace (pages_loop mb process_func pages out s).2 = trace s ++ events /\
    (forall held, fold_left step events held = held) /\
    (pages_loop mb process_func pages out s).1 <> Diverge /\
    (forall out', (pages_loop mb process_func pages out s).1 = Ok out' ->
                  length out' = (length out + length pages)%nat).
Proof.
  intros Hpf. induction pages as [|i rest IH]; intros out s.
  - exists []. cbn. rewrite app_nil_r. repeat split; try done.
    intros out' [= <-]. lia.
  - rewrite pages_loop_cons. run.
    destruct (FreeImage_LockPage mb i (mem s) (fi s)) as [[b m1] d1]. cbn.
    case_bool_decide as Hb.
    + subst b. exists [Call_LockPage mb i 0]. cbn. repeat split; done.
    + set (s1 := mk_state m1 d1 (trace s ++ [Call_LockPage mb i b])).
      destruct (Hpf b s1) as (Hd & evs & Htr & Hbal).
      destruct (process_func b s1) as [[r| |] s2]; cbn in *; [| |done].
      * set (s3 := mk_state (mem s2) (FreeImage_UnlockPage mb b false (fi s2))
                     (trace s2 ++ [Call_UnlockPage mb b false])).
        destruct (IH (out ++ [r]) s3) as (evs' & Htr' & Hbal' & Hd' & Hlen).
        exists (Call_LockPage mb i b :: evs ++ Call_UnlockPage mb b false :: evs').
        split; [|split; [|split]].
        -- rewrite Htr'. cbn. rewrite Htr. by rewrite <- !app_assoc.
        -- intros held. cbn. unfold acquire.
           rewrite bool_decide_eq_false_2 by done.
           rewrite fold_left_app, Hbal. cbn.
           rewrite decide_True by done. apply Hbal'.
        -- done.
        -- intros out' Hout. rewrite (Hlen out' Hout), length_app. cbn. lia.
      * exists (Call_LockPage mb i b :: evs ++ [Call_UnlockPage mb b false]).
        split; [|split; [|split]]; try done.
        -- rewrite Htr. by rewrite <- !app_assoc.
        -- intros held. cbn. unfold acquire.
           rewrite bool_decide_eq_false_2 by done.
           rewrite fold_left_app, Hbal. cbn.
           by rewrite decide_True.
Qed.

(** C7: a multi-page read is all-or-nothing.  Once the session is open
    the call ends with the session closed as its last call and with
    every page it locked unlocked again, so no locked page and no open
    session is outstanding, whether it returns or raises; when
    processing a page raises, that error is the result, carrying no
    list, and a list that is returned has one entry for each page of
    the session. *)
Theorem multipage_read_is_atomic {A} (process_func : Z -> M W A)
    (filename : string) (flags : Z) (s : state W) (mb : Z) (d1 : W) :
  let ftype := FreeImage_GetFileType filename (fi s) in
  balanced process_func ->
  ftype <> -1 ->
  FreeImage_OpenMultiBitmap ftype filename false true true flags (fi s)
    = (mb, d1) ->
  mb <> 0 ->
  exists r s' events body,
    _process_multipage filename flags process_func s = (r, s') /\
    r <> Diverge /\
    trace s' = trace s ++ events /\
    events = Call_OpenMultiBitmap ftype filename mb :: body
               ++ [Call_CloseMultiBitmap mb 0] /\
    outstanding events = [] /\
    (forall held, fold_left step body held = held) /\
    (forall out, r = Ok out ->
                 length out = Z.to_nat (FreeImage_GetPageCount mb d1)).
Proof.
  intros ftype Hpf Hft Hopen Hmb.
  unfold _process_multipage. run. fold ftype.
  rewrite bool_decide_eq_false_2 by done. rewrite Hopen. cbn.
  rewrite bool_decide_eq_false_2 by done.
  set (s1 := mk_state (mem s) d1
               (trace s ++ [Call_OpenMultiBitmap ftype filename mb])).
  destruct (pages_loop_balanced mb process_func
              (seqZ 0 (FreeImage_GetPageCount mb d1)) Hpf [] s1)
    as (body & Htr & Hbal & Hd & Hlen).
  destruct (pages_loop _ _ _ _ s1) as [[out| |] s2]; cbn in *; [| |done].
  - eexists _, _, _, body. split; [reflexivity|]. split; [done|].
    cbn. rewrite Htr, <- !app_assoc. cbn.
    split; [reflexivity|]. split; [reflexivity|].
    split; [|split; [exact Hbal|]].
    + unfold outstanding. cbn. unfold acquire.
      rewrite bool_decide_eq_false_2 by done.
      rewrite fold_left_app, Hbal. cbn. by rewrite decide_True.
    + intros out0 [= <-]. rewrite (Hlen out eq_refl), length_seqZ. done.
  - eexists _, _, _, body. split; [reflexivity|]. split; [done|].
    cbn. rewrite Htr, <- !app_assoc. cbn.
    split; [reflexivity|]. split; [reflexivity|].
    split; [|split; [exact Hbal|done]].
    unfold outstanding. cbn. unfold acquire.
    rewrite bool_decide_eq_false_2 by done.
    rewrite fold_left_app, Hbal. cbn. by rewrite decide_True.
Qed.

End MultiPage.

(** ** Metadata decoding *)

Lemma c_string_value_no_nul (bs : list Z) : 0 ∉ c_string_value bs.
Proof.
  induction bs as [|b bs IH]; cbn.
  - apply not_elem_of_nil.
  - case_bool_decide.
    + apply not_elem_of_nil.
    + apply not_elem_of_cons. split; [congruence|done].
Qed.

Lemma c_string_value_terminated (text rest : list Z) :
  0 ∉ text -> c_string_value (text ++ 0 :: rest) = text.
Proof.
  induction text as [|b text IH]; intros Hno; cbn.
  - reflexivity.
  - apply not_elem_of_cons in Hno as [Hb Hno].
    rewrite bool_decide_eq_false_2 by congruence. by rewrite IH.
Qed.

Lemma c_string_value_unterminated (text : list Z) :
  0 ∉ text -> c_string_value text = text.
Proof.
  induction text as [|b text IH]; intros Hno; cbn.
  - reflexivity.
  - apply not_elem_of_cons in Hno as [Hb Hno].
    rewrite bool_decide_eq_false_2 by congruence. by rewrite IH.
Qed.

Lemma metadata_layout_positive (ty : Z) (l : layout) :
  METADATA_DATATYPE.dtypes !! ty = Some l -> 0 < layout_itemsize l.
Proof.
  intros H. unfold METADATA_DATATYPE.dtypes in H.
  apply elem_of_list_to_map_2 in H.
  unfold METADATA_DATATYPE.dtypes_items in H.
  repeat (apply elem_of_cons in H as [H|H];
          [ injection H as -> ->; vm_compute; reflexivity | ]).
  by apply elem_of_nil in H.
Qed.

Lemma fromstring_one (le : bool) (bs : list Z) (l : layout) :
  0 < layout_itemsize l ->
  length bs = Z.to_nat (layout_itemsize l) ->
  fromstring le bs l = Ok [decode_scalar le l bs].
Proof.
  intros Hpos Hlen. unfold fromstring. rewrite Hlen.
  set (sz := Z.to_nat (layout_itemsize l)) in *.
  assert (sz <> 0%nat) by lia.
  rewrite Nat.Div0.mod_same, bool_decide_eq_true_2 by done.
  rewrite Nat.div_same by done. cbn.
  rewrite drop_0, firstn_all2 by lia. reflexivity.
Qed.

Lemma fromstring_many (le : bool) (bs : list Z) (l : layout) (k : nat) :
  0 < layout_itemsize l ->
  length bs = (k * Z.to_nat (layout_itemsize l))%nat ->
  fromstring le bs l =
    Ok ((fun j => decode_scalar le l
                    (take (Z.to_nat (layout_itemsize l))
                          (drop (j * Z.to_nat (layout_itemsize l)) bs)))
          <$> seq 0 k).
Proof.
  intros Hpos Hlen. unfold fromstring. rewrite Hlen.
  set (sz := Z.to_nat (layout_itemsize l)) in *.
  assert (sz <> 0%nat) by lia.
  rewrite Nat.Div0.mod_mul, bool_decide_eq_true_2 by done.
  by rewrite Nat.div_mul.
Qed.

Lemma foldr_digits (bs : list Z) :
  Forall (fun b => 0 <= b < 256) bs ->
  let v := foldr (fun b acc => b + 256 * acc) 0 bs in
  0 <= v < 256 ^ Z.of_nat (length bs) /\ digits v bs.
Proof.
  induction 1 as [|b bs Hb Hbs IH]; cbn [foldr length].
  - split; [cbn; lia|]. intros i b Hi. by rewrite lookup_nil in Hi.
  - cbn zeta in IH. destruct IH as [Hr Hd].
    set (v := foldr (fun b acc => b + 256 * acc) 0 bs) in *.
    split.
    + rewrite Nat2Z.inj_succ, Z.pow_succ_r by lia. lia.
    + intros [|i] b' Hi; cbn in Hi.
      * injection Hi as <-. cbn [Z.of_nat]. rewrite Z.pow_0_r, Z.div_1_r.
        replace (b + 256 * v) with (b + v * 256) by lia.
        rewrite Z_mod_plus_full. by apply Z.mod_small.
      * rewrite Nat2Z.inj_succ, Z.pow_succ_r by lia.
        rewrite <- Z.div_div by lia.
        replace ((b + 256 * v) / 256) with v.
        -- by apply Hd.
        -- replace (b + 256 * v) with (b + v * 256) by lia.
           rewrite Z.div_add by lia. rewrite (Z.div_small b) by lia. lia.
Qed.

Lemma decode_uint_digits (le : bool) (bs : list Z) :
  Forall (fun b => 0 <= b < 256) bs ->
  0 <= decode_uint le bs < 256 ^ Z.of_nat (length bs) /\
  digits (decode_uint le bs) (if le then bs else reverse bs).
Proof.
  intros Hbs. unfold decode_uint. destruct le.
  - by apply foldr_digits.
  - rewrite <- (length_reverse bs). apply foldr_digits.
    by apply Forall_reverse.
Qed.

Lemma digits_shift (v : Z) (bs : list Z) :
  digits v bs -> digits (v - 256 ^ Z.of_nat (length bs)) bs.
Proof.
  intros Hd i b Hi. rewrite <- (Hd i b Hi).
  apply lookup_lt_Some in Hi.
  replace (Z.of_nat (length bs))
    with (Z.succ (Z.of_nat (length bs) - Z.of_nat i - 1) + Z.of_nat i) by lia.
  rewrite Z.pow_add_r, Z.pow_succ_r by lia.
  set (q := 256 ^ (Z.of_nat (length bs) - Z.of_nat i - 1)).
  set (p := 256 ^ Z.of_nat i).
  assert (0 < p) by (apply Z.pow_pos_nonneg; lia).
  replace (v - 256 * q * p) with (v + (- (256 * q)) * p) by lia.
  rewrite Z.div_add by lia.
  replace (v / p + - (256 * q)) with (v / p + (- q) * 256) by lia.
  by rewrite Z_mod_plus_full.
Qed.

Lemma decode_int_digits (le : bool) (bs : list Z) :
  Forall (fun b => 0 <= b < 256) bs -> (0 < length bs)%nat ->
  - 2 ^ (8 * Z.of_nat (length bs) - 1) <= decode_int le bs
    < 2 ^ (8 * Z.of_nat (length bs) - 1) /\
  digits (decode_int le bs) (if le then bs else reverse bs).
Proof.
  intros Hbs Hlen. destruct (decode_uint_digits le bs Hbs) as [Hr Hd].
  unfold decode_int.
  set (u := decode_uint le bs) in *.
  set (k := Z.of_nat (length bs)) in *.
  assert (Hk : 0 < k) by lia.
  assert (H256 : 256 ^ k = 2 ^ (8 * k)).
  { change 256 with (2 ^ 8). by rewrite <- Z.pow_mul_r by lia. }
  assert (Hhalf : 2 ^ (8 * k) = 2 * 2 ^ (8 * k - 1)).
  { rewrite <- Z.pow_succ_r by lia. f_equal. lia. }
  assert (0 < 2 ^ (8 * k - 1)) by (apply Z.pow_pos_nonneg; lia).
  case_bool_decide.
  - split; [lia|done].
  - split; [lia|]. rewrite <- H256.
    assert (Hl : length (if le then bs else reverse bs) = length bs).
    { destruct le; [done|apply length_reverse]. }
    unfold k. rewrite <- Hl. by apply digits_shift.
Qed.

Lemma decode_num_denotes (le : bool) (d : dtype) (bs : list Z) :
  Forall (fun b => 0 <= b < 256) bs ->
  Z.of_nat (length bs) = itemsize d ->
  denotes le d bs (decode_num le d bs).
Proof.
  intros Hbs Hlen. unfold denotes, decode_num.
  destruct (is_signed d) eqn:Hs.
  - destruct (decode_int_digits le bs Hbs) as [Hr Hd].
    { destruct d; cbn in Hlen; lia. }
    split; [|done]. rewrite Hlen in Hr.
    destruct d; try discriminate; cbn in Hr |- *; lia.
  - destruct (decode_uint_digits le bs Hbs) as [Hr Hd].
    split; [|done]. rewrite Hlen in Hr.
    destruct d; try discriminate; cbn in Hr |- *; lia.
Qed.

Lemma decode_uint_denotes (le : bool) (d : dtype) (bs : list Z) :
  Forall (fun b => 0 <= b < 256) bs ->
  Z.of_nat (length bs) = itemsize d ->
  is_signed d = false ->
  denotes le d bs (decode_uint le bs).
Proof.
  intros Hbs Hlen Hs. pose proof (decode_num_denotes le d bs Hbs Hlen) as H.
  unfold decode_num in H. by rewrite Hs in H.
Qed.

Lemma decode_fields_denote (le : bool) (fs : list (string * dtype)) :
  forall bs,
  Forall (fun b => 0 <= b < 256) bs ->
  Z.of_nat (length bs) = layout_itemsize (Fields fs) ->
  fields_denote le fs bs (decode_fields le fs bs).
Proof.
  induction fs as [|[f d] fs IH]; intros bs Hbs Hlen; cbn; [done|].
  cbn in Hlen. pose proof (itemsize_pos d) as Hd.
  assert (Hfs : 0 <= layout_itemsize (Fields fs)).
  { clear. induction fs as [|[f d] fs IH]; cbn; [lia|].
    pose proof (itemsize_pos d). cbn in IH. lia. }
  cbn in Hfs.
  split; [done|]. split.
  - apply decode_num_denotes; [by apply Forall_take|].
    rewrite length_take. lia.
  - apply IH; [by apply Forall_drop|]. rewrite length_drop. cbn. lia.
Qed.

Lemma decode_scalar_denotes (le : bool) (l : layout) (bs : list Z) :
  Forall (fun b => 0 <= b < 256) bs ->
  Z.of_nat (length bs) = layout_itemsize l ->
  element_denotes le l bs (decode_scalar le l bs).
Proof.
  intros Hbs Hlen. destruct l as [d|fs]; cbn.
  - cbn in Hlen. destruct (is_float d) eqn:Hf; cbn.
    + split; [destruct d; try discriminate; auto|].
      apply decode_uint_denotes; [done|done|by destruct d].
    + split; [by destruct d|]. split; [by destruct d|].
      split; [by destruct d|]. by apply decode_num_denotes.
  - by apply decode_fields_denote.
Qed.

Lemma asstr_chars (bs : list Z) :
  asstr bs = string_of_list_ascii ((fun b => ascii_of_N (Z.to_N b)) <$> bs).
Proof.
  induction bs as [|b bs IH]; cbn; [done|]. by rewrite <- IH.
Qed.

Lemma c_string_value_prefix (bs : list Z) :
  bs = c_string_value bs \/ exists rest, bs = c_string_value bs ++ 0 :: rest.
Proof.
  induction bs as [|b bs IH]; cbn; [by left|].
  case_bool_decide as Hb.
  - right. exists bs. by rewrite Hb.
  - destruct IH as [IH | [rest IH]].
    + left. by rewrite <- IH.
    + right. exists rest. cbn. by rewrite <- IH.
Qed.

Lemma digits_mod (bs : list Z) :
  forall v, digits v bs ->
  v mod 256 ^ Z.of_nat (length bs) = foldr (fun b acc => b + 256 * acc) 0 bs.
Proof.
  induction bs as [|b bs IH]; intros v Hd; cbn [foldr length].
  - cbn. apply Z.mod_1_r.
  - rewrite Nat2Z.inj_succ, Z.pow_succ_r by lia.
    assert (0 < 256 ^ Z.of_nat (length bs)) by (apply Z.pow_pos_nonneg; lia).
    rewrite Z.rem_mul_r by lia.
    rewrite <- (IH (v / 256)).
    + f_equal. specialize (Hd 0%nat b eq_refl). cbn in Hd.
      by rewrite Z.div_1_r in Hd.
    + intros i b' Hi. specialize (Hd (S i) b' Hi).
      rewrite Nat2Z.inj_succ, Z.pow_succ_r in Hd by lia.
      by rewrite Z.div_div by lia.
Qed.

(** The bytes pin the number. *)
Lemma denotes_unique (le : bool) (d : dtype) (bs : list Z) (v v' : Z) :
  Z.of_nat (length bs) = itemsize d ->
  denotes le d bs v -> denotes le d bs v' -> v = v'.
Proof.
  intros Hlen [Hf Hd] [Hf' Hd'].
  set (l := if le then bs else reverse bs) in *.
  assert (Hl : Z.of_nat (length l) = itemsize d).
  { unfold l. destruct le; [done|]. by rewrite length_reverse. }
  pose proof (digits_mod l v Hd) as Hm.
  rewrite <- (digits_mod l v' Hd'), Hl in Hm.
  assert (Hdiv : forall a b k, 0 < k -> a mod k = b mod k -> - k < a - b < k -> a = b).
  { intros a b k Hk Heq Hr.
    pose proof (Z_div_mod_eq_full a k) as Ha.
    pose proof (Z_div_mod_eq_full b k) as Hb.
    assert (a / k = b / k) by nia. lia. }
  destruct d; cbn in Hf, Hf', Hm;
    (eapply Hdiv; [|exact Hm|]; lia).
Qed.

Lemma element_denotes_int (le : bool) (d : dtype) (bs : list Z)
    (x : scalar) (v : Z) :
  Z.of_nat (length bs) = itemsize d ->
  d <> float32 -> d <> float64 -> d <> complex128 ->
  element_denotes le (Plain d) bs x -> denotes le d bs v -> x = SInt v.
Proof.
  intros Hlen H1 H2 H3 Hx Hv. destruct x as [v'|v'|r]; cbn in Hx.
  - destruct Hx as (_ & _ & _ & Hv'). f_equal.
    by apply (denotes_unique le d bs).
  - by destruct Hx as [[?|[?|?]] _].
  - done.
Qed.

Section Metadata.

Context {W : Type} {api : FreeImageAPI W}.

(** C9: decoding the current tag, for a tag with a value pointer, a
    non-negative length and bytes in 0..255.  An ASCII tag decodes to
    the text before the first NUL, one character per byte: a payload
    [text ++ [0]] gives [text], without the terminator.  A tag of
    another registered type whose byte length is one element's width
    decodes to a bare scalar, one with [k >= 2] elements to the sequence
    of its [k] fixed-width elements; each element is the number its
    bytes spell in host order (two's complement for the signed types,
    the bit pattern for the floats), or the record of the numbers of
    its fields.  A rational tag of 8 bytes decodes to the pair
    (numerator, denominator) of its first and last four bytes, unsigned
    for RATIONAL and signed for SRATIONAL, as the two types are
    registered. *)
Theorem tag_decoding (tag : Z) (d : W) (m : memory) :
  let name := FreeImage_GetTagKey tag d in
  let ty := FreeImage_GetTagType tag d in
  let len := FreeImage_GetTagLength tag d in
  let value := FreeImage_GetTagValue tag d in
  let bytes := load_elem m value len in
  let le := FreeImage_IsLittleEndian in
  let sz l := Z.to_nat (layout_itemsize l) in
  value <> 0 -> 0 <= len -> Forall (fun b => 0 <= b < 256) bytes ->
  (ty = METADATA_DATATYPE.FIDT_ASCII ->
     (exists text,
        (0 ∉ text) /\
        (bytes = text \/ exists rest, bytes = text ++ 0 :: rest) /\
        decode_tag tag d m
        = Ok (name,
              Text (string_of_list_ascii
                      ((fun b => ascii_of_N (Z.to_N b)) <$> text)))) /\
     (forall text, 0 ∉ text -> bytes = text ++ [0] ->
        decode_tag tag d m
        = Ok (name,
              Text (string_of_list_ascii
                      ((fun b => ascii_of_N (Z.to_N b)) <$> text))))) /\
  (forall l, ty <> METADATA_DATATYPE.FIDT_ASCII ->
     METADATA_DATATYPE.dtypes !! ty = Some l ->
     (len = layout_itemsize l ->
        exists x, decode_tag tag d m = Ok (name, Scalar x) /\
                  element_denotes le l bytes x) /\
     (forall k, (2 <= k)%nat -> len = Z.of_nat k * layout_itemsize l ->
        exists xs,
          decode_tag tag d m = Ok (name, Sequence xs) /\ length xs = k /\
          forall j x, xs !! j = Some x ->
            element_denotes le l (take (sz l) (drop (j * sz l) bytes)) x)) /\
  (forall dt,
     (ty = METADATA_DATATYPE.FIDT_RATIONAL /\ dt = uint32) \/
     (ty = METADATA_DATATYPE.FIDT_SRATIONAL /\ dt = int32) ->
     len = 8 ->
     exists num den,
       decode_tag tag d m
       = Ok (name, Scalar (SRecord [("numerator", num); ("denominator", den)]))
       /\ denotes le dt (take 4 bytes) num
       /\ denotes le dt (take 4 (drop 4 bytes)) den) /\
  (METADATA_DATATYPE.dtypes !! METADATA_DATATYPE.FIDT_RATIONAL =
     Some (Fields [("numerator", uint32); ("denominator", uint32)]) /\
   METADATA_DATATYPE.dtypes !! METADATA_DATATYPE.FIDT_SRATIONAL =
     Some (Fields [("numerator", int32); ("denominator", int32)])).
Proof.
  intros name ty len value bytes le sz Hvalue Hlen Hbytes.
  assert (Hrun : decode_tag tag d m
            = if bool_decide (ty = METADATA_DATATYPE.FIDT_ASCII) then
                Ok (name, Text (asstr (c_string_value bytes)))
              else
                match METADATA_DATATYPE.dtypes !! ty with
                | None => Raise (KeyError ty)
                | Some l =>
                    match fromstring le bytes l with
                    | Ok [x] => Ok (name, Scalar x)
                    | Ok xs => Ok (name, Sequence xs)
                    | Raise e => Raise e
                    | Diverge => Diverge
                    end
                end).
  { unfold decode_tag. fold len value.
    rewrite bool_decide_eq_false_2 by lia.
    by rewrite bool_decide_eq_false_2 by done. }
  assert (Hblen : length bytes = Z.to_nat len).
  { unfold bytes. by rewrite length_load_elem. }
  split; [|split; [|split; [|done]]].
  - intros Hty. rewrite Hrun, Hty, bool_decide_eq_true_2 by done.
    rewrite asstr_chars. split.
    + exists (c_string_value bytes). split; [apply c_string_value_no_nul|].
      split; [apply c_string_value_prefix|done].
    + intros text Hno ->.
      by rewrite (c_string_value_terminated text [] Hno).
  - intros l Hty Hl.
    pose proof (metadata_layout_positive ty l Hl) as Hpos.
    rewrite Hrun, bool_decide_eq_false_2 by done. rewrite Hl. split.
    + intros Hone.
      rewrite (fromstring_one le bytes l Hpos) by (by rewrite Hblen, Hone).
      eexists. split; [reflexivity|].
      apply decode_scalar_denotes; [done|]. rewrite Hblen. lia.
    + intros k Hk Hmany.
      rewrite (fromstring_many le bytes l k Hpos) by (rewrite Hblen, Hmany; lia).
      eexists. split; [|split].
      * destruct k as [|[|k]]; [lia|lia|]. reflexivity.
      * by rewrite length_fmap, length_seq.
      * intros j x Hj. apply list_lookup_fmap_Some in Hj as (i & -> & Hi).
        apply lookup_seq in Hi as [-> Hi]. cbn [Nat.add].
        assert (Hsz : (0 < sz l)%nat) by (unfold sz; lia).
        apply decode_scalar_denotes.
        -- by apply Forall_take, Forall_drop.
        -- rewrite length_take, length_drop, Hblen, Hmany. fold (sz l).
           assert (Z.to_nat (Z.of_nat k * layout_itemsize l) = (k * sz l)%nat)
             as -> by (unfold sz; lia).
           assert ((j + 1) * sz l <= k * sz l)%nat
             by (apply Nat.mul_le_mono_r; lia).
           unfold sz in *. lia.
  - intros dt Hcase Hone.
    assert (Hl : METADATA_DATATYPE.dtypes !! ty
                 = Some (Fields [("numerator", dt); ("denominator", dt)]) /\
                 ty <> METADATA_DATATYPE.FIDT_ASCII).
    { destruct Hcase as [[-> ->] | [-> ->]]; done. }
    destruct Hl as [Hl Hty].
    rewrite Hrun, bool_decide_eq_false_2 by done. rewrite Hl.
    assert (Hsz : layout_itemsize (Fields [("numerator", dt); ("denominator", dt)]) = 8).
    { destruct Hcase as [[_ ->] | [_ ->]]; done. }
    rewrite (fromstring_one le bytes _) by (rewrite ?Hsz, ?Hblen, ?Hone; done).
    assert (Hb8 : Z.of_nat (length bytes)
                  = layout_itemsize
                      (Fields [("numerator", dt); ("denominator", dt)]))
      by (rewrite Hsz, Hblen; lia).
    pose proof (decode_scalar_denotes le _ bytes Hbytes Hb8) as Hden.
    cbn in Hden. destruct Hden as (_ & Hnum & _ & Hden & _).
    assert (Hfour : Z.to_nat (itemsize dt) = 4%nat).
    { destruct Hcase as [[_ ->] | [_ ->]]; done. }
    rewrite Hfour in Hnum, Hden.
    eexists _, _. split; [|split; [exact Hnum|]].
    + cbn. rewrite Hfour. reflexivity.
    + exact Hden.
Qed.

End Metadata.

(** ** The metadata cursor *)

Section MetadataCursor.

Context {W : Type} {api : FreeImageAPI W}.

Lemma decode_tag_terminates (tag : Z) (d : W) (m : memory) :
  decode_tag tag d m <> Diverge.
Proof.
  unfold decode_tag, fromstring. repeat case_match; done.
Qed.

(** The tag loop issues [FindNextMetadata] only. *)
Lemma tags_loop_events (fuel : nat) (name : string) (h : Z) :
  forall (tag : Z) (md : gmap (string * string) tagval) (s : state W),
  exists events,
    trace (tags_loop fuel name h tag md s).2 = trace s ++ events /\
    forall held, fold_left step events held = held.
Proof.
  induction fuel as [|fuel IH]; intros tag md s.
  - exists []. cbn. by rewrite app_nil_r.
  - unfold tags_loop; fold (@tags_loop W api). run.
    destruct (decode_tag tag (fi s) (mem s)) as [kv| |]; cbn.
    + destruct (FreeImage_FindNextMetadata h tag (fi s)) as [[more tag'] d'].
      cbn. destruct more.
      * destruct (IH tag' (<[(name, kv.1):=kv.2]> md)
                     (mk_state (mem s) d'
                        (trace s ++ [Call_FindNextMetadata h true])))
          as (evs & Htr & Hbal).
        exists (Call_FindNextMetadata h true :: evs). split.
        -- rewrite Htr. cbn. by rewrite <- app_assoc.
        -- intros held. cbn. apply Hbal.
      * exists [Call_FindNextMetadata h false]. done.
    + exists []. by rewrite app_nil_r.
    + exists []. by rewrite app_nil_r.
Qed.

(** What [_read_metadata] leaves outstanding: nothing when it returns,
    the cursor of the model it was decoding when it raises. *)
Lemma models_loop_cursors (fuel : nat) (bitmap : Z)
    (models : list (string * Z)) :
  forall (tag : Z) (md : gmap (string * string) tagval) (s : state W),
  exists events,
    trace (models_loop fuel bitmap models tag md s).2 = trace s ++ events /\
    match (models_loop fuel bitmap models tag md s).1 with
    | Ok _ => forall held, fold_left step events held = held
    | Raise _ =>
        exists h, h <> 0 /\
          forall held, fold_left step events held = RCursor h :: held
    | Diverge => True
    end.
Proof.
  induction models as [|[name number] rest IH]; intros tag md s.
  - exists []. cbn. by rewrite app_nil_r.
  - unfold models_loop; fold (@models_loop W api). run.
    destruct (FreeImage_FindFirstMetadata number bitmap tag (fi s))
      as [[h tag1] d1]. cbn.
    set (s1 := mk_state (mem s) d1
                 (trace s ++ [Call_FindFirstMetadata number bitmap h])).
    case_bool_decide as Hh.
    + destruct (IH tag1 md s1) as (evs & Htr & Hres).
      exists (Call_FindFirstMetadata number bitmap h :: evs). split.
      * rewrite Htr. cbn. by rewrite <- app_assoc.
      * subst h. destruct (models_loop fuel bitmap rest tag1 md s1).1; done.
    + destruct (tags_loop_events fuel name h tag1 md s1)
        as (evs & Htr & Hbal).
      destruct (tags_loop fuel name h tag1 md s1) as [[r| |] s2];
        cbn in Htr |- *.
      * set (s3 := mk_state (mem s2) (FreeImage_FindCloseMetadata h (fi s2))
                     (trace s2 ++ [Call_FindCloseMetadata h])).
        destruct (IH r.1 r.2 s3) as (evs' & Htr' & Hres).
        exists (Call_FindFirstMetadata number bitmap h
                  :: evs ++ Call_FindCloseMetadata h :: evs').
        split.
        -- rewrite Htr'. cbn. rewrite Htr. by rewrite <- !app_assoc.
        -- assert (Hpre : forall held,
                     fold_left step
                       (Call_FindFirstMetadata number bitmap h
                          :: evs ++ Call_FindCloseMetadata h :: evs') held
                     = fold_left step evs' held).
           { intros held. cbn. unfold acquire.
             rewrite bool_decide_eq_false_2 by done.
             rewrite fold_left_app, Hbal. cbn.
             by rewrite decide_True. }
           destruct (models_loop fuel bitmap rest r.1 r.2 s3).1.
           ++ intros held. by rewrite Hpre.
           ++ destruct Hres as (h' & Hh' & Hres). exists h'.
              split; [done|]. intros held. by rewrite Hpre.
           ++ done.
      * exists (Call_FindFirstMetadata number bitmap h :: evs). split.
        -- rewrite Htr. by rewrite <- app_assoc.
        -- exists h. split; [done|]. intros held. cbn. unfold acquire.
           rewrite bool_decide_eq_false_2 by done. apply Hbal.
      * exists (Call_FindFirstMetadata number bitmap h :: evs). split.
        -- rewrite Htr. by rewrite <- app_assoc.
        -- done.
Qed.

(** [_read_metadata] closes every cursor it opened when it returns, and
    leaves one open whenever it raises. *)
Lemma read_metadata_cursors (fuel : nat) (bitmap : Z) (s : state W) :
  exists events,
    trace (_read_metadata fuel bitmap s).2 = trace s ++ events /\
    match (_read_metadata fuel bitmap s).1 with
    | Ok _ => outstanding events = []
    | Raise _ => exists h, h <> 0 /\ outstanding events = [RCursor h]
    | Diverge => True
    end.
Proof.
  unfold _read_metadata.
  destruct (models_loop_cursors fuel bitmap METADATA_MODELS.models 0 ∅ s)
    as (evs & Htr & Hres).
  exists evs. split; [done|].
  destruct (models_loop _ _ _ _ _ _).1; [apply Hres| |done].
  destruct Hres as (h & Hh & Hres). exists h. split; [done|]. apply Hres.
Qed.

End MetadataCursor.

(** ** The reference decoder honours the contracts *)

Lemma ref_pitch_covers (hd : Ref.header) :
  Ref.h_width hd * Ref.h_bpp hd <= 8 * Ref.pitch_of hd.
Proof.
  unfold Ref.pitch_of.
  pose proof (Z.div_mod (Ref.h_width hd * Ref.h_bpp hd + 31) 32).
  pose proof (Z.mod_pos_bound (Ref.h_width hd * Ref.h_bpp hd + 31) 32).
  lia.
Qed.

Lemma ref_fresh_nonnull (d : Ref.world) : Ref.fresh d <> 0.
Proof. unfold Ref.fresh. lia. Qed.

Lemma ref_allocation_law (le : bool) : allocation_law (api := Ref.api le).
Proof.
  intros t w h bpp m d b m' d' Halloc Hb.
  cbn in Halloc. unfold Ref.AllocateT in Halloc.
  destruct (_ && _); [|by injection Halloc as <- _ _].
  injection Halloc as <- <- <-.
  cbn. unfold Ref.hfield. cbn. rewrite decide_True by done. cbn.
  repeat split.
  - apply (ref_pitch_covers (Ref.mk_header t w h bpp _ _)).
  - intros Hpal. left. unfold Ref.palette_of, Ref.bits_of in *.
    case_bool_decide; [lia|done].
Qed.

Lemma ref_lossless (le : bool) (filename : string) (flags : Z) :
  Ref.GetFIFFromFilename filename <> -1 ->
  lossless (api := Ref.api le) filename flags.
Proof.
  intros Hft b m d d1 Hsave. cbn in Hsave. unfold Ref.Save in Hsave.
  destruct (Ref.assoc b (Ref.live d)) as [[hd ts]|] eqn:Hlive; [|done].
  injection Hsave as <-. cbn zeta. cbn.
  unfold Ref.GetFileType, Ref.Load, Ref.hfield. cbn.
  rewrite decide_True by done. split; [done|].
  rewrite Hlive. intros b' m' d3 [= <- <- <-]. cbn.
  rewrite decide_True by done. cbn.
  split; [apply ref_fresh_nonnull|].
  repeat split.
  - apply (ref_pitch_covers hd).
  - intros y i Hy Hi Hlt. unfold Ref.blit. cbn.
    change (Ref.pitch_of (Ref.relocate hd _)) with (Ref.pitch_of hd).
    pose proof (ref_pitch_covers hd) as HP.
    set (P := Ref.pitch_of hd) in *.
    rewrite bool_decide_eq_true_2 by nia.
    f_equal. lia.
Qed.

(** ** The pixel-type registry, read back *)

Lemma pixel_dtypes_lookup (t : Z) :
  FI_TYPES.dtypes !! t
  = if bool_decide (1 <= t <= 12)
    then Some (if bool_decide (t = 1) then uint8
               else if bool_decide (t = 2 \/ t = 9 \/ t = 10) then uint16
               else if bool_decide (t = 3) then int16
               else if bool_decide (t = 4) then uint32
               else if bool_decide (t = 5) then int32
               else if bool_decide (t = 6 \/ t = 11 \/ t = 12) then float32
               else if bool_decide (t = 7) then float64
               else complex128)
    else None.
Proof.
  case_bool_decide as Ht.
  - assert (Hcases : t = 1 \/ t = 2 \/ t = 3 \/ t = 4 \/ t = 5 \/ t = 6 \/
                     t = 7 \/ t = 8 \/ t = 9 \/ t = 10 \/ t = 11 \/ t = 12)
      by lia.
    repeat destruct Hcases as [-> | Hcases]; try subst t; reflexivity.
  - apply not_elem_of_list_to_map_1. cbn.
    unfold FI_TYPES.FIT_BITMAP, FI_TYPES.FIT_UINT16, FI_TYPES.FIT_INT16,
      FI_TYPES.FIT_UINT32, FI_TYPES.FIT_INT32, FI_TYPES.FIT_FLOAT,
      FI_TYPES.FIT_DOUBLE, FI_TYPES.FIT_COMPLEX, FI_TYPES.FIT_RGB16,
      FI_TYPES.FIT_RGBA16, FI_TYPES.FIT_RGBF, FI_TYPES.FIT_RGBAF.
    rewrite !not_elem_of_cons. repeat split; try lia. apply not_elem_of_nil.
Qed.

Lemma extra_dims_lookup (t : Z) :
  2 <= t <= 12 ->
  FI_TYPES.extra_dims !! t
  = Some (if bool_decide (t = 9 \/ t = 11) then [3]
          else if bool_decide (t = 10 \/ t = 12) then [4] else []).
Proof.
  intros Ht.
  assert (Hcases : t = 2 \/ t = 3 \/ t = 4 \/ t = 5 \/ t = 6 \/
                   t = 7 \/ t = 8 \/ t = 9 \/ t = 10 \/ t = 11 \/ t = 12)
    by lia.
  repeat destruct Hcases as [-> | Hcases]; try subst t; reflexivity.
Qed.

Section Registry.

Context {W : Type} {api : FreeImageAPI W}.

Lemma get_type_and_shape_Ok_inv (bitmap : Z) (d : W) (dt : dtype)
    (shape : list Z) :
  get_type_and_shape bitmap d = Ok (dt, shape) ->
  exists n,
    FI_TYPES.fi_types !! (dt, n) = Some (FreeImage_GetImageType bitmap d) /\
    (FreeImage_GetImageType bitmap d = FI_TYPES.FIT_BITMAP ->
     FreeImage_GetBPP bitmap d = 8 * n) /\
    shape = [FreeImage_GetWidth bitmap d; FreeImage_GetHeight bitmap d]
              ++ (if bool_decide (n = 1) then [] else [n]).
Proof.
  unfold get_type_and_shape.
  set (t := FreeImage_GetImageType bitmap d).
  case_bool_decide as H0; [done|].
  rewrite pixel_dtypes_lookup.
  case_bool_decide as Ht; [|done].
  destruct (decide (t = FI_TYPES.FIT_BITMAP)) as [Hb|Hb].
  - rewrite (bool_decide_eq_true_2 _ Hb).
    unfold FI_TYPES.FIT_BITMAP in Hb.
    rewrite (bool_decide_eq_true_2 (t = 1)) by done. rewrite Hb.
    repeat case_bool_decide; intros [= <- <-];
      [exists 1 | exists 3 | exists 4]; done.
  - rewrite (bool_decide_eq_false_2 _ Hb).
    unfold FI_TYPES.FIT_BITMAP in Hb.
    rewrite extra_dims_lookup by lia.
    assert (Hcases : t = 2 \/ t = 3 \/ t = 4 \/ t = 5 \/ t = 6 \/
                     t = 7 \/ t = 8 \/ t = 9 \/ t = 10 \/ t = 11 \/
                     t = 12) by lia.
    repeat destruct Hcases as [Hc | Hcases]; try rename Hcases into Hc;
      rewrite Hc; intros [= <- <-];
      first [ by exists 1 | by exists 3 | by exists 4 ].
Qed.

(** X1: every outcome of [FI_TYPES.get_type_and_shape].  It returns for
    the pixel types 1 to 12 only, with the dtype [dtypes] lists; a
    [FIT_BITMAP] must have 8, 24 or 32 bits per pixel, giving the shape
    (w, h), (w, h, 3) or (w, h, 4), and every other type takes its extra
    dimension from [extra_dims], which has an entry for each of them.
    It raises ValueError for type 0 and for a [FIT_BITMAP] of any other
    depth, KeyError for a type outside 0..12, and it always ends. *)
Theorem get_type_and_shape_outcomes (bitmap : Z) (d : W) :
  let w := FreeImage_GetWidth bitmap d in
  let h := FreeImage_GetHeight bitmap d in
  let t := FreeImage_GetImageType bitmap d in
  let bpp := FreeImage_GetBPP bitmap d in
  match get_type_and_shape bitmap d with
  | Ok (dt, shape) =>
      1 <= t <= 12 /\ FI_TYPES.dtypes !! t = Some dt /\
      (t = FI_TYPES.FIT_BITMAP ->
         (bpp = 8 /\ shape = [w; h]) \/ (bpp = 24 /\ shape = [w; h; 3]) \/
         (bpp = 32 /\ shape = [w; h; 4])) /\
      (t <> FI_TYPES.FIT_BITMAP ->
         exists extra,
           FI_TYPES.extra_dims !! t = Some extra /\ shape = [w; h] ++ extra)
  | Raise e =>
      (t = 0 /\ e = ValueError msg_pixel_type) \/
      (t = FI_TYPES.FIT_BITMAP /\ bpp <> 8 /\ bpp <> 24 /\ bpp <> 32 /\
       e = ValueError msg_bpp) \/
      ((t < 0 \/ 12 < t) /\ e = KeyError t)
  | Diverge => False
  end.
Proof.
  intros w h t bpp. unfold get_type_and_shape. fold w h t bpp.
  destruct (decide (t = 0)) as [H0|H0].
  { rewrite (bool_decide_eq_true_2 _ H0). by left. }
  rewrite (bool_decide_eq_false_2 _ H0).
  rewrite pixel_dtypes_lookup.
  destruct (decide (1 <= t <= 12)) as [Ht|Ht].
  2:{ rewrite (bool_decide_eq_false_2 _ Ht). right. right. split; [lia|done]. }
  rewrite (bool_decide_eq_true_2 _ Ht).
  destruct (decide (t = FI_TYPES.FIT_BITMAP)) as [Hb|Hb].
  - rewrite (bool_decide_eq_true_2 _ Hb).
    unfold FI_TYPES.FIT_BITMAP in Hb.
    repeat case_bool_decide; try lia.
    + repeat split; try done; try lia. intros _. left. done.
    + repeat split; try done; try lia. intros _. right. left. done.
    + repeat split; try done; try lia. intros _. right. right. done.
    + right. left. done.
  - rewrite (bool_decide_eq_false_2 _ Hb).
    unfold FI_TYPES.FIT_BITMAP in Hb.
    rewrite extra_dims_lookup by lia.
    split; [done|]. split; [done|]. split; [done|].
    intros _. eexists. split; reflexivity.
Qed.

(** X2: the two directions of the registry agree.
    [get_type_and_shape] returns (dt, shape) for a bitmap exactly when
    some channel count n has (dt, n) registered in [fi_types] as the
    bitmap's pixel type, a [FIT_BITMAP] holds 8 * n bits per pixel, and
    shape is (w, h) for n = 1 and (w, h, n) otherwise. *)
Theorem read_accepts_what_write_registers (bitmap : Z) (d : W) (dt : dtype)
    (shape : list Z) :
  let w := FreeImage_GetWidth bitmap d in
  let h := FreeImage_GetHeight bitmap d in
  let t := FreeImage_GetImageType bitmap d in
  get_type_and_shape bitmap d = Ok (dt, shape) <->
  exists n,
    FI_TYPES.fi_types !! (dt, n) = Some t /\
    (t = FI_TYPES.FIT_BITMAP -> FreeImage_GetBPP bitmap d = 8 * n) /\
    shape = [w; h] ++ (if bool_decide (n = 1) then [] else [n]).
Proof.
  intros w h t. split; [apply get_type_and_shape_Ok_inv|].
  intros (n & Hreg & Hbpp & ->).
  destruct (fi_types_registered dt n t Hreg)
    as (Hn & Hdt & Ht0 & Hbm & Hnbm).
  unfold get_type_and_shape. fold w h t. rewrite Hdt.
  rewrite bool_decide_eq_false_2 by done.
  destruct (decide (t = FI_TYPES.FIT_BITMAP)) as [Hb|Hb].
  - rewrite (bool_decide_eq_true_2 _ Hb), (Hbm Hb), (Hbpp Hb).
    destruct Hn as [-> | [-> | ->]]; reflexivity.
  - rewrite (bool_decide_eq_false_2 _ Hb).
    destruct (Hnbm Hb) as [_ ->]. reflexivity.
Qed.

End Registry.

(** ** The bounds of a wrapped view *)

Lemma view2_bounds (base P w h : Z) (dt : dtype) (x y : Z) :
  w * itemsize dt <= P -> 0 <= x < w -> 0 <= y < h ->
  base <= view_addr (view2 base P w h dt) [x; y] /\
  view_addr (view2 base P w h dt) [x; y] + itemsize dt <= base + h * P.
Proof.
  intros HP Hx Hy. pose proof (itemsize_pos dt) as Hs.
  rewrite view2_addr.
  assert (x * itemsize dt + itemsize dt <= P) by nia.
  assert (0 <= (h - 1 - y) * P) by nia.
  assert ((h - 1 - y) * P + P <= h * P) by nia.
  lia.
Qed.

Lemma view3_bounds (base P w h n : Z) (dt : dtype) (x y c : Z) :
  w * n * itemsize dt <= P -> 0 <= x < w -> 0 <= y < h -> 0 <= c < n ->
  base <= view_addr (view3 base P w h n dt) [x; y; c] /\
  view_addr (view3 base P w h n dt) [x; y; c] + itemsize dt <= base + h * P.
Proof.
  intros HP Hx Hy Hc. pose proof (itemsize_pos dt) as Hs.
  rewrite view3_addr.
  assert (0 <= x * n) by nia.
  assert ((x + 1) * n <= w * n) by nia.
  assert (0 <= x * n + c /\ x * n + c + 1 <= w * n) as [? ?] by lia.
  assert ((x * n + c) * itemsize dt + itemsize dt <= P) by nia.
  assert (0 <= (h - 1 - y) * P) by nia.
  assert ((h - 1 - y) * P + P <= h * P) by nia.
  lia.
Qed.

Section ViewBounds.

Context {W : Type} {api : FreeImageAPI W}.

(** X3: every view [_wrap_bitmap_bits_in_array] builds stays inside the
    buffer it is given.  For a 2-D or 3-D shape whose row of w * n
    elements fits in the pitch, the buffer is height * pitch bytes long,
    every element at an index within the shape lies inside it, and
    elements at distinct indices do not overlap. *)
Theorem wrapped_view_in_bounds (bitmap : Z) (shape : list Z) (dt : dtype)
    (d : W) (n : Z) (v : view) :
  let P := FreeImage_GetPitch bitmap d in
  let base := FreeImage_GetBits bitmap d in
  let w := default 0 (shape !! 0%nat) in
  let h := default 0 (shape !! 1%nat) in
  _wrap_bitmap_bits_in_array bitmap shape dt d = Ok v ->
  nchannels_of shape = Some n ->
  w * n * itemsize dt <= P ->
  v_byte_size v = h * P /\
  (forall idx, in_range idx shape ->
     base <= view_addr v idx /\
     view_addr v idx + itemsize dt <= base + v_byte_size v) /\
  (forall idx idx', in_range idx shape -> in_range idx' shape ->
     idx <> idx' -> apart v idx idx').
Proof.
  intros P base w h Hv Hn HP.
  destruct shape as [|w0 [|h0 [|n0 [|? ?]]]]; try done.
  - (* 2-D *)
    injection Hn as <-. subst w h. cbn in HP. unfold id in HP.
    change (Ok (view2 base P w0 h0 dt) = Ok v) in Hv. injection Hv as <-.
    split; [reflexivity|]. split.
    + intros idx Hidx.
      apply in_range_2_inv in Hidx as (x & y & -> & Hx & Hy).
      apply view2_bounds; [lia|done|done].
    + intros idx idx' Hidx Hidx' Hne.
      apply in_range_2_inv in Hidx as (x & y & -> & Hx & Hy).
      apply in_range_2_inv in Hidx' as (x' & y' & -> & Hx' & Hy').
      apply (apart_2d _ base P w0 h0); try done. cbn. lia.
  - (* 3-D *)
    injection Hn as ->. subst w h. cbn in HP. unfold id in HP.
    change (Ok (view3 base P w0 h0 n dt) = Ok v) in Hv. injection Hv as <-.
    split; [reflexivity|]. split.
    + intros idx Hidx.
      apply in_range_3_inv in Hidx as (x & y & c & -> & Hx & Hy & Hc).
      by apply view3_bounds.
    + intros idx idx' Hidx Hidx' Hne.
      apply in_range_3_inv in Hidx as (x & y & c & -> & Hx & Hy & Hc).
      apply in_range_3_inv in Hidx' as (x' & y' & c' & -> & Hx' & Hy' & Hc').
      apply (apart_3d _ base P w0 h0 n); try done.
Qed.

End ViewBounds.

(** ** The array the read path returns *)

Lemma view_copy_well_formed (v : view) (m : memory) :
  Forall (fun d => 0 <= d) (v_shape v) -> well_formed (view_copy v m).
Proof.
  intros Hnn. unfold well_formed, view_copy. cbn [a_shape a_data a_dtype].
  split; [done|]. split.
  - by rewrite length_fmap, length_indices.
  - apply Forall_fmap, Forall_forall. intros idx _. cbn.
    unfold view_get. rewrite length_load_elem.
    pose proof (itemsize_pos (v_dtype v)). lia.
Qed.

Section ReadResult.

Context {W : Type} {api : FreeImageAPI W}.

Lemma array_from_bitmap_Ok_inv (bitmap : Z) (s s' : state W) (a : ndarray) :
  _array_from_bitmap bitmap s = (Ok a, s') ->
  exists dt shape v,
    get_type_and_shape bitmap (fi s) = Ok (dt, shape) /\
    _wrap_bitmap_bits_in_array bitmap shape dt (fi s) = Ok v /\
    a = view_copy v (mem s') /\ fi s' = fi s /\ trace s' = trace s.
Proof.
  unfold _array_from_bitmap. run.
  destruct (get_type_and_shape bitmap (fi s)) as [[dt shape]| |] eqn:Hts;
    cbn; try done.
  destruct (_wrap_bitmap_bits_in_array bitmap shape dt (fi s))
    as [v| |] eqn:Hwrap; cbn; try done.
  destruct (_ && _ && _).
  - pose proof (swap_channels_keeps v s) as (Ht & Hf & Hd).
    destruct (swap_channels_0_2 v s) as [[] s1]; cbn in *; try done.
    intros [= <- <-]. exists dt, shape, v. done.
  - cbn. intros [= <- <-]. exists dt, shape, v. done.
Qed.

(** X4: what [_array_from_bitmap] returns is an array [write] accepts.
    For a bitmap of non-negative width and height the array has as many
    elements as its shape says, each of the dtype's size; its dtype and
    shape are those [get_type_and_shape] reports; the shape is (w, h) or
    (w, h, n) with n <> 1; and the pair (dtype, channel count) is
    registered in [fi_types] as the bitmap's own pixel type. *)
Theorem read_result_is_writable (bitmap : Z) (s s' : state W) (a : ndarray) :
  0 <= FreeImage_GetWidth bitmap (fi s) ->
  0 <= FreeImage_GetHeight bitmap (fi s) ->
  _array_from_bitmap bitmap s = (Ok a, s') ->
  well_formed a /\ canonical (a_shape a) /\
  get_type_and_shape bitmap (fi s) = Ok (a_dtype a, a_shape a) /\
  exists n,
    nchannels_of (a_shape a) = Some n /\
    FI_TYPES.fi_types !! (a_dtype a, n)
      = Some (FreeImage_GetImageType bitmap (fi s)).
Proof.
  intros Hw Hh Hrun.
  destruct (array_from_bitmap_Ok_inv _ _ _ _ Hrun)
    as (dt & shape & v & Hts & Hwrap & -> & _ & _).
  destruct (get_type_and_shape_Ok_inv _ _ _ _ Hts) as (n & Hreg & _ & Hshape).
  destruct (fi_types_registered _ _ _ Hreg) as (Hn & _).
  assert (Hv : v_shape v = shape /\ v_dtype v = dt).
  { unfold _wrap_bitmap_bits_in_array in Hwrap.
    repeat case_match; simplify_eq; done. }
  destruct Hv as [Hvs Hvd].
  cbn [a_shape a_dtype view_copy]. rewrite Hvs, Hvd.
  split; [|split; [|split; [done|]]].
  - apply view_copy_well_formed. rewrite Hvs, Hshape.
    destruct Hn as [-> | [-> | ->]]; cbn; repeat constructor; lia.
  - rewrite Hshape.
    destruct Hn as [-> | [-> | ->]]; cbn; [left|right|right]; eauto.
  - exists n. split; [|done]. rewrite Hshape.
    destruct Hn as [-> | [-> | ->]]; reflexivity.
Qed.

End ReadResult.

(** ** What the read path returns, and from where *)

Section ReadOutcome.

Context {W : Type} {api : FreeImageAPI W}.

(** X5: for a bitmap with pixels, the read path fails only where the
    pixel type is refused.  When [get_type_and_shape] raises,
    [_array_from_bitmap] raises the same error and leaves the state as
    it was.  When it returns (dt, shape) and the bitmap has a pixel
    buffer ([FreeImage_GetBits] is not null), at least one row and one
    column, and a pitch that covers a row of the shape,
    [_array_from_bitmap] returns an array of that dtype and shape. *)
Theorem read_fails_only_on_pixel_type (bitmap : Z) (s : state W) :
  let d := fi s in
  let w := FreeImage_GetWidth bitmap d in
  let h := FreeImage_GetHeight bitmap d in
  (forall e, get_type_and_shape bitmap d = Raise e ->
     _array_from_bitmap bitmap s = (Raise e, s)) /\
  (forall dt shape n,
     get_type_and_shape bitmap d = Ok (dt, shape) ->
     nchannels_of shape = Some n ->
     FreeImage_GetBits bitmap d <> 0 ->
     0 < w -> 0 < h ->
     w * n * itemsize dt <= FreeImage_GetPitch bitmap d ->
     exists a s',
       _array_from_bitmap bitmap s = (Ok a, s') /\
       a_dtype a = dt /\ a_shape a = shape) /\
  get_type_and_shape bitmap d <> Diverge.
Proof.
  intros d w h. split; [|split].
  - intros e Hts. unfold _array_from_bitmap. run. fold d. rewrite Hts.
    by destruct s.
  - intros dt shape n0 Hts _ _ _ _ _.
    destruct (get_type_and_shape_Ok_inv _ _ _ _ Hts) as (n & Hreg & _ & ->).
    destruct (fi_types_registered _ _ _ Hreg) as (Hn & _).
    destruct (decide (n = 1)) as [->|Hn1].
    + cbn [app] in Hts |- *.
      rewrite (array_from_bitmap_2d bitmap s dt _ _ Hts). eauto.
    + rewrite bool_decide_eq_false_2 in Hts |- * by done.
      cbn [app] in Hts |- *.
      assert (Hn3 : 3 <= n) by lia.
      rewrite (array_from_bitmap_3d bitmap s dt _ _ n Hts Hn3).
      destruct (_ && _); eauto.
  - apply get_type_and_shape_terminates.
Qed.

(** X6: where the read path takes the elements from when it makes no
    exchange.  The array [_array_from_bitmap] returns for a 2-D shape
    holds at (x, y) the bytes at
    [bits + (h - 1 - y) * pitch + x * itemsize]: row 0 of the array is
    the last stored scanline.  For a 3-D shape that is not uint8 on a
    little-endian runtime it holds at (x, y, c) the bytes at
    [bits + (h - 1 - y) * pitch + (x * n + c) * itemsize].  In both
    cases memory and the decoder are left as they were. *)
Theorem read_layout (bitmap : Z) (s s' : state W) (a : ndarray) :
  let d := fi s in
  let w := FreeImage_GetWidth bitmap d in
  let h := FreeImage_GetHeight bitmap d in
  let P := FreeImage_GetPitch bitmap d in
  let base := FreeImage_GetBits bitmap d in
  let sz := itemsize (a_dtype a) in
  _array_from_bitmap bitmap s = (Ok a, s') ->
  (a_shape a = [w; h] ->
   s' = s /\
   forall x y, 0 <= x < w -> 0 <= y < h ->
     item a [x; y]
     = load_elem (mem s) (base + (h - 1 - y) * P + x * sz) sz) /\
  (forall n, a_shape a = [w; h; n] ->
   FreeImage_IsLittleEndian && bool_decide (a_dtype a = uint8) = false ->
   s' = s /\
   forall x y c, 0 <= x < w -> 0 <= y < h -> 0 <= c < n ->
     item a [x; y; c]
     = load_elem (mem s) (base + (h - 1 - y) * P + (x * n + c) * sz) sz).
Proof.
  intros d w h P base sz Hrun.
  destruct (array_from_bitmap_Ok_inv _ _ _ _ Hrun)
    as (dt & shape & v & Hts & Hwrap & Ha & _ & _).
  assert (Hv : v_shape v = shape /\ v_dtype v = dt).
  { unfold _wrap_bitmap_bits_in_array in Hwrap.
    repeat case_match; simplify_eq; done. }
  destruct Hv as [Hvs Hvd].
  assert (Hdt : a_dtype a = dt) by (by rewrite Ha).
  assert (Hsh : a_shape a = shape) by (by rewrite Ha).
  destruct (get_type_and_shape_Ok_inv _ _ _ _ Hts) as (n0 & Hreg & _ & Hshape).
  destruct (fi_types_registered _ _ _ Hreg) as (Hn & _).
  fold d w h in Hshape. subst sz. rewrite Hdt. split.
  - intros H2. rewrite Hsh in H2. rewrite H2 in Hts.
    rewrite (array_from_bitmap_2d bitmap s dt w h Hts) in Hrun.
    injection Hrun as <- <-. split; [done|]. intros x y Hx Hy.
    rewrite item_view_copy by by apply in_range_2.
    unfold view_get. fold d base P. rewrite view2_addr. reflexivity.
  - intros n H3 Hno. rewrite Hsh in H3.
    assert (Hn3 : 3 <= n).
    { rewrite H3 in Hshape.
      destruct (decide (n0 = 1)) as [->|Hn1]; [done|].
      rewrite bool_decide_eq_false_2 in Hshape by done.
      injection Hshape as ->. lia. }
    rewrite H3 in Hts.
    rewrite (array_from_bitmap_3d bitmap s dt w h n Hts Hn3) in Hrun.
    rewrite Hno in Hrun. injection Hrun as <- <-. split; [done|].
    intros x y c Hx Hy Hc.
    rewrite item_view_copy by by apply in_range_3.
    unfold view_get. fold d base P. rewrite view3_addr. reflexivity.
Qed.

End ReadOutcome.

(** ** No resource is left behind *)

Section LeakFree.

Context {W : Type} {api : FreeImageAPI W}.

Lemma process_bitmap_leak_free {A} (filename : string) (flags : Z)
    (process_func : Z -> M W A) :
  balanced process_func ->
  leak_free (_process_bitmap filename flags process_func).
Proof.
  intros Hpf s. unfold _process_bitmap. run.
  case_bool_decide as Hft.
  { split; [done|]. exists []. by rewrite app_nil_r. }
  destruct (FreeImage_Load _ filename flags (mem s) (fi s))
    as [[b m'] d'] eqn:Hload. cbn.
  case_bool_decide as Hb.
  { subst b. split; [done|]. eexists [_]. split; [reflexivity|]. done. }
  match goal with |- context [process_func b ?s1] =>
    destruct (Hpf b s1) as (Hd & evs & Htr & Hbal);
    destruct (process_func b s1) as [[r| |] s2] end;
    cbn in *; try done.
  - split; [done|].
    eexists (_ :: evs ++ [Call_Unload b]). split.
    + rewrite Htr, <- !app_assoc. reflexivity.
    + intros held. cbn. unfold acquire.
      rewrite bool_decide_eq_false_2 by done.
      rewrite fold_left_app, Hbal. cbn. apply remove_one_head.
  - split; [done|].
    eexists (_ :: evs ++ [Call_Unload b]). split.
    + rewrite Htr, <- !app_assoc. reflexivity.
    + intros held. cbn. unfold acquire.
      rewrite bool_decide_eq_false_2 by done.
      rewrite fold_left_app, Hbal. cbn. apply remove_one_head.
Qed.

Lemma process_multipage_leak_free {A} (filename : string) (flags : Z)
    (process_func : Z -> M W A) :
  balanced process_func ->
  leak_free (_process_multipage filename flags process_func).
Proof.
  intros Hpf s. unfold _process_multipage. run.
  case_bool_decide as Hft.
  { split; [done|]. exists []. by rewrite app_nil_r. }
  destruct (FreeImage_OpenMultiBitmap _ filename false true true flags (fi s))
    as [mb d1] eqn:Hopen. cbn.
  case_bool_decide as Hmb.
  { subst mb. split; [done|]. eexists [_]. split; [reflexivity|]. done. }
  match goal with |- context [pages_loop mb process_func ?pages [] ?s1] =>
    destruct (pages_loop_balanced mb process_func pages Hpf [] s1)
      as (evs & Htr & Hbal & Hd & _);
    destruct (pages_loop mb process_func pages [] s1) as [[r| |] s2] end;
    cbn in *; try done.
  - split; [done|].
    eexists (_ :: evs ++ [Call_CloseMultiBitmap mb 0]). split.
    + rewrite Htr, <- !app_assoc. reflexivity.
    + intros held. cbn. unfold acquire.
      rewrite bool_decide_eq_false_2 by done.
      rewrite fold_left_app, Hbal. cbn. apply remove_one_head.
  - split; [done|].
    eexists (_ :: evs ++ [Call_CloseMultiBitmap mb 0]). split.
    + rewrite Htr, <- !app_assoc. reflexivity.
    + intros held. cbn. unfold acquire.
      rewrite bool_decide_eq_false_2 by done.
      rewrite fold_left_app, Hbal. cbn. apply remove_one_head.
Qed.

Lemma write_leak_free (array : ndarray) (filename : string) (flags : Z) :
  leak_free (write array filename flags).
Proof.
  intros s. unfold write.
  case_bool_decide as Hft.
  { split; [done|]. exists []. by rewrite app_nil_r. }
  run.
  destruct (nchannels_of (a_shape array)) as [n|] eqn:Hn.
  2:{ unfold _array_to_bitmap. rewrite Hn. split; [done|].
      exists []. by rewrite app_nil_r. }
  destruct (FI_TYPES.fi_types !! (a_dtype array, n)) as [t|] eqn:Ht.
  2:{ unfold _array_to_bitmap. rewrite Hn, Ht. split; [done|].
      exists []. by rewrite app_nil_r. }
  set (w := default 0 (a_shape array !! 0%nat)).
  set (h := default 0 (a_shape array !! 1%nat)).
  set (bpp := 8 * itemsize (a_dtype array) * n).
  destruct (FreeImage_AllocateT t w h bpp (mem s) (fi s))
    as [[b m'] d'] eqn:Halloc.
  destruct (decide (b = 0)) as [Hb|Hb].
  { rewrite (array_to_bitmap_unfold array n t s Hn Ht). run.
    fold w h bpp. rewrite Halloc. cbn.
    rewrite (bool_decide_eq_true_2 _ Hb). subst b. split; [done|].
    eexists [_]. split; [reflexivity|]. done. }
  destruct (array_to_bitmap_allocated array n t s b m' d' Hn Ht Halloc Hb)
    as (Heq & Hfi & Htr & Hd).
  rewrite Heq. clear Heq.
  destruct (fill_bitmap array b t _) as [[r| |] sA]; cbn in *; try done.
  - run.
    destruct (negb _).
    + split; [done|].
      eexists [_; Call_Unload b]. split.
      * rewrite Htr, <- app_assoc. reflexivity.
      * intros held. cbn. unfold acquire.
        rewrite bool_decide_eq_false_2 by done. apply remove_one_head.
    + destruct (FreeImage_Save _ b filename flags (mem sA) (fi sA))
        as [res dS]. cbn.
      destruct res; cbn; (split; [done|]);
        eexists [_; _; Call_Unload b];
        (split; [rewrite Htr, <- !app_assoc; reflexivity|]);
        intros held; cbn; unfold acquire;
        rewrite bool_decide_eq_false_2 by done; apply remove_one_head.
  - split; [done|].
    eexists [_; Call_Unload b]. split; [reflexivity|].
    intros held. cbn. unfold acquire.
    rewrite bool_decide_eq_false_2 by done. apply remove_one_head.
Qed.

(** X7: [read], [read_multipage] and [write] end on every input, from
    every state, and whatever they return or raise, the decoder calls
    they have issued leave every set of held resources as it was: each
    bitmap, page and session they acquired has been released, also on
    the paths on which nothing was acquired. *)
Theorem read_and_write_are_leak_free (array : ndarray) (filename : string)
    (flags : Z) :
  leak_free (W:=W) (read filename flags) /\
  leak_free (W:=W) (read_multipage filename flags) /\
  leak_free (W:=W) (write array filename flags).
Proof.
  split; [|split].
  - apply process_bitmap_leak_free, array_from_bitmap_balanced.
  - apply process_multipage_leak_free, array_from_bitmap_balanced.
  - apply write_leak_free.
Qed.

End LeakFree.

(** ** The calls of [write] *)

Section WriteProtocol.

Context {W : Type} {api : FreeImageAPI W}.




End WriteProtocol.

(** ** When [write] returns *)

Section WriteProgress.

Context {W : Type} {api : FreeImageAPI W}.

(** Filling a fresh bitmap from an array of canonical shape fails only
    when the palette of a 2-D uint8 bitmap is missing. *)
Lemma fill_bitmap_succeeds (array : ndarray) (b t n : Z) (s : state W) :
  canonical (a_shape array) ->
  nchannels_of (a_shape array) = Some n -> n = 1 \/ n = 3 \/ n = 4 ->
  (length (a_shape array) = 2%nat -> a_dtype array = uint8 ->
   FreeImage_GetPalette b (fi s) <> 0) ->
  exists sA, fill_bitmap array b t s = (Ok (b, t), sA).
Proof.
  intros Hcan Hn Hn134 Hpal.
  destruct Hcan as [(w & h & Hshape) | (w & h & n0 & Hshape & Hn0)].
  - rewrite (fill_bitmap_unfold array b t s
               (view2 (FreeImage_GetBits b (fi s)) (FreeImage_GetPitch b (fi s))
                      w h (a_dtype array)))
      by (rewrite Hshape; apply wrap_2d).
    rewrite copy_plain_run by (rewrite Hshape; reflexivity).
    rewrite Hshape. cbn [length].
    rewrite (bool_decide_eq_true_2 (2%nat = 2%nat)) by done. cbn [andb].
    destruct (decide (a_dtype array = uint8)) as [Hu8|Hu8].
    + rewrite (bool_decide_eq_true_2 _ Hu8).
      unfold install_palette. run.
      rewrite bool_decide_eq_false_2; [cbn; eauto|].
      apply Hpal; [by rewrite Hshape|done].
    + rewrite (bool_decide_eq_false_2 _ Hu8). run. eauto.
  - rewrite Hshape in Hn. injection Hn as <-.
    assert (Hn34 : n0 = 3 \/ n0 = 4) by lia.
    set (v := view3 (FreeImage_GetBits b (fi s)) (FreeImage_GetPitch b (fi s))
                    w h n0 (a_dtype array)).
    rewrite (fill_bitmap_unfold array b t s v)
      by (rewrite Hshape; apply wrap_3d).
    rewrite Hshape. cbn [length].
    rewrite (bool_decide_eq_false_2 (3%nat = 2%nat)) by done. cbn [andb].
    destruct (FreeImage_IsLittleEndian && bool_decide (a_dtype array = uint8))
      eqn:Hswap.
    + apply andb_true_iff in Hswap as [Hle Hu8].
      apply bool_decide_eq_true_1 in Hu8.
      rewrite (copy_swap_run v array w h n0 _ Hle Hu8 Hshape Hn34 eq_refl).
      run. eauto.
    + rewrite copy_plain_run.
      2:{ rewrite Hshape. cbn [length].
          rewrite bool_decide_eq_true_2 by done. cbn [andb]. exact Hswap. }
      run. eauto.
Qed.

(** X9: when [write] returns.  For an array of canonical shape whose
    (dtype, channels) pair is registered, once the file type is known,
    the allocation gives a handle, a 2-D uint8 bitmap has a palette, the
    file type can export the format and the save succeeds, [write]
    returns, having issued the allocation, the save and the unload and
    nothing else: copying the array into the bitmap cannot fail. *)
Theorem write_succeeds (array : ndarray) (filename : string) (flags : Z)
    (s : state W) (n t b : Z) (m0 : memory) (d0 : W) :
  let ftype := FreeImage_GetFIFFromFilename filename in
  let w := default 0 (a_shape array !! 0%nat) in
  let h := default 0 (a_shape array !! 1%nat) in
  let bpp := 8 * itemsize (a_dtype array) * n in
  ftype <> -1 ->
  canonical (a_shape array) ->
  nchannels_of (a_shape array) = Some n ->
  FI_TYPES.fi_types !! (a_dtype array, n) = Some t ->
  FreeImage_AllocateT t w h bpp (mem s) (fi s) = (b, m0, d0) ->
  b <> 0 ->
  (length (a_shape array) = 2%nat -> a_dtype array = uint8 ->
   FreeImage_GetPalette b d0 <> 0) ->
  (if bool_decide (t = FI_TYPES.FIT_BITMAP)
   then FreeImage_FIFSupportsExportBPP ftype (FreeImage_GetBPP b d0)
   else FreeImage_FIFSupportsExportType ftype t) = true ->
  (forall m, (FreeImage_Save ftype b filename flags m d0).1 = true) ->
  exists s1,
    write array filename flags s = (Ok tt, s1) /\
    trace s1 = trace s ++ [Call_AllocateT t w h bpp b;
                           Call_Save ftype b filename flags true;
                           Call_Unload b].
Proof.
  intros ftype w h bpp Hft Hcan Hn Hreg Halloc Hb Hpal Hcan_write Hsave.
  destruct (fi_types_registered _ _ _ Hreg) as (Hn134 & _).
  destruct (array_to_bitmap_allocated array n t s b m0 d0 Hn Hreg Halloc Hb)
    as (Heq & Hfi & Htr & _).
  fold w h bpp in Heq, Hfi, Htr.
  set (s0 := mk_state m0 d0 (trace s ++ [Call_AllocateT t w h bpp b])) in *.
  destruct (fill_bitmap_succeeds array b t n s0 Hcan Hn Hn134 Hpal)
    as (sA & Hfill).
  rewrite Hfill in Heq, Hfi, Htr. cbn [fst snd] in Heq, Hfi, Htr.
  unfold write. fold ftype. rewrite bool_decide_eq_false_2 by done.
  run. rewrite Heq. cbn. rewrite !Hfi, Hcan_write. cbn. rewrite ?Hfi.
  specialize (Hsave (mem sA)).
  destruct (FreeImage_Save ftype b filename flags (mem sA) d0) as [res dS].
  cbn in Hsave. subst res. cbn. eexists. split; [reflexivity|].
  cbn. rewrite Htr, <- !app_assoc. reflexivity.
Qed.

End WriteProgress.

(** ** The layout the write path leaves *)

Section WriteLayout.

Context {W : Type} {api : FreeImageAPI W}.

(** A handle returned by [_array_to_bitmap]: the registry entry, the
    allocation and the filling it stands for. *)
Lemma array_to_bitmap_Ok_inv (array : ndarray) (s sA : state W) (b t : Z) :
  _array_to_bitmap array s = (Ok (b, t), sA) ->
  exists n m0 d0,
    let w := default 0 (a_shape array !! 0%nat) in
    let h := default 0 (a_shape array !! 1%nat) in
    let bpp := 8 * itemsize (a_dtype array) * n in
    nchannels_of (a_shape array) = Some n /\
    FI_TYPES.fi_types !! (a_dtype array, n) = Some t /\
    FreeImage_AllocateT t w h bpp (mem s) (fi s) = (b, m0, d0) /\
    b <> 0 /\
    fill_bitmap array b t
      (mk_state m0 d0 (trace s ++ [Call_AllocateT t w h bpp b]))
      = (Ok (b, t), sA) /\
    fi sA = d0 /\
    trace sA = trace s ++ [Call_AllocateT t w h bpp b].
Proof.
  intros Harr.
  destruct (nchannels_of (a_shape array)) as [n|] eqn:Hn.
  2:{ unfold _array_to_bitmap in Harr. by rewrite Hn in Harr. }
  destruct (FI_TYPES.fi_types !! (a_dtype array, n)) as [t0|] eqn:Ht.
  2:{ unfold _array_to_bitmap in Harr. by rewrite Hn, Ht in Harr. }
  destruct (FreeImage_AllocateT t0 (default 0 (a_shape array !! 0%nat))
              (default 0 (a_shape array !! 1%nat))
              (8 * itemsize (a_dtype array) * n) (mem s) (fi s))
    as [[b0 m0] d0] eqn:Halloc.
  destruct (decide (b0 = 0)) as [Hb|Hb].
  { rewrite (array_to_bitmap_unfold array n t0 s Hn Ht) in Harr.
    revert Harr. run. rewrite Halloc. cbn.
    by rewrite (bool_decide_eq_true_2 _ Hb). }
  destruct (array_to_bitmap_allocated array n t0 s b0 m0 d0 Hn Ht Halloc Hb)
    as (Heq & Hfi & Htr & Hd).
  rewrite Heq in Harr. clear Heq.
  destruct (fill_bitmap array b0 t0 _) as [[r| |] sF] eqn:Hfill;
    cbn [fst snd] in *; try done.
  pose proof (fill_bitmap_result _ _ _ _ _ _ Hfill) as ->.
  injection Harr as -> -> ->.
  exists n, m0, d0. cbn zeta. repeat (split; [done|]). done.
Qed.

(** X10: where [_array_to_bitmap] puts the elements.  Under the
    decoder's allocation contract, for a well-formed array of canonical
    shape, rows are stored bottom-up: the bytes at
    [bits + (h - 1 - y) * pitch + x * itemsize] hold the element (x, y)
    of a 2-D array, and the bytes at
    [bits + (h - 1 - y) * pitch + (x * n + c) * itemsize] hold the
    element (x, y, c) of a 3-D array, with channels 0 and 2 exchanged
    when the array is uint8 and the runtime little-endian. *)
Theorem write_layout (array : ndarray) (s sA : state W) (b t : Z) :
  allocation_law -> well_formed array -> canonical (a_shape array) ->
  _array_to_bitmap array s = (Ok (b, t), sA) ->
  let w := default 0 (a_shape array !! 0%nat) in
  let h := default 0 (a_shape array !! 1%nat) in
  let base := FreeImage_GetBits b (fi sA) in
  let P := FreeImage_GetPitch b (fi sA) in
  let sz := itemsize (a_dtype array) in
  (a_shape array = [w; h] ->
   forall x y, 0 <= x < w -> 0 <= y < h ->
     load_elem (mem sA) (base + (h - 1 - y) * P + x * sz) sz
     = item array [x; y]) /\
  (forall n, a_shape array = [w; h; n] ->
   forall x y c, 0 <= x < w -> 0 <= y < h -> 0 <= c < n ->
     load_elem (mem sA) (base + (h - 1 - y) * P + (x * n + c) * sz) sz
     = item array
         [x; y; if FreeImage_IsLittleEndian
                   && bool_decide (a_dtype array = uint8)
                then swap02 c else c]).
Proof.
  intros Hlaw Hwf Hcan Harr w h base P sz.
  destruct (array_to_bitmap_Ok_inv array s sA b t Harr)
    as (n & m0 & d0 & Hn & Hreg & Halloc & Hb & Hfill & Hfi & _).
  cbn zeta in Halloc, Hfill. fold w h in Halloc, Hfill.
  destruct (fi_types_registered _ _ _ Hreg) as (Hn134 & _).
  destruct (Hlaw _ _ _ _ _ _ _ _ _ Halloc Hb)
    as (_ & _ & _ & _ & Hpitch & Hpal).
  subst base P. rewrite Hfi.
  destruct (fill_bitmap_written array b t n
              (mk_state m0 d0 (trace s ++ [Call_AllocateT t w h
                 (8 * itemsize (a_dtype array) * n) b]))
              sA Hwf Hcan Hn Hn134)
    as (v & Hwrap & Hget); cbn [fi]; fold w h.
  { fold sz. nia. }
  { exact Hpal. }
  { exact Hfill. }
  cbn [fi] in Hwrap.
  split.
  - intros Hshape x y Hx Hy.
    rewrite Hshape, wrap_2d in Hwrap. injection Hwrap as <-.
    specialize (Hget [x; y]). rewrite Hshape in Hget.
    specialize (Hget (proj2 (in_range_2 x y w h) (conj Hx Hy))).
    cbn [reorder_index] in Hget. rewrite <- Hget.
    unfold view_get. rewrite view2_addr. reflexivity.
  - intros n' Hshape x y c Hx Hy Hc.
    rewrite Hshape, wrap_3d in Hwrap. injection Hwrap as <-.
    specialize (Hget [x; y; c]). rewrite Hshape in Hget.
    specialize (Hget (proj2 (in_range_3 x y c w h n') (conj Hx (conj Hy Hc)))).
    cbn [reorder_index] in Hget.
    unfold view_get in Hget. rewrite view3_addr in Hget.
    cbn [v_dtype view3] in Hget. fold sz in Hget. rewrite Hget.
    by destruct (_ && _).
Qed.

End WriteLayout.

(** ** The write path stays inside the bitmap *)

(** A slice assignment whose targets all lie in [lo, hi) leaves every
    byte outside that range as it was. *)
Lemma assign_outside (v : view) (targets vals : list (list Z)) (m : memory)
    (lo hi a : Z) :
  sized v vals ->
  (forall t, t ∈ targets ->
             lo <= view_addr v t /\
             view_addr v t + itemsize (v_dtype v) <= hi) ->
  ~ (lo <= a < hi) ->
  assign v targets vals m a = m a.
Proof.
  intros Hsz Hin Ha.
  assert (H1 : load_elem (assign v targets vals m) a 1 = load_elem m a 1).
  { apply assign_frame; [done|]. intros t Ht.
    destruct (Hin t Ht). lia. }
  rewrite !load_elem_1 in H1. by injection H1.
Qed.

Lemma elem_of_channel (w h c : Z) (t : list Z) :
  t ∈ channel w h c ->
  exists x y, t = [x; y; c] /\ 0 <= x < w /\ 0 <= y < h.
Proof.
  intros Ht. apply list_elem_of_lookup in Ht as [k Hk].
  apply lookup_channel in Hk as (x & y & -> & Hk).
  assert (Hin : in_range [x; y] [w; h]).
  { apply elem_of_indices, list_elem_of_lookup. eauto. }
  apply in_range_2 in Hin. eauto.
Qed.

Lemma reordered_outside (base P w h n : Z) (array : ndarray) (m : memory)
    (a : Z) :
  well_formed array -> a_shape array = [w; h; n] -> n = 3 \/ n = 4 ->
  w * n * itemsize (a_dtype array) <= P ->
  ~ (base <= a < base + h * P) ->
  reordered (view3 base P w h n (a_dtype array)) array w h n m a = m a.
Proof.
  intros Hwf Hshape Hn HP Ha. unfold reordered.
  set (v := view3 base P w h n (a_dtype array)).
  assert (Hstep : forall c c' m',
             0 <= c < n -> 0 <= c' < n ->
             assign v (channel w h c) (item array <$> channel w h c') m' a
             = m' a).
  { intros c c' m' Hc Hc'.
    apply (assign_outside v _ _ m' base (base + h * P)); [|..|done].
    - by apply (sized_channel_items base P w h n (a_dtype array) array).
    - intros t Ht. apply elem_of_channel in Ht as (x & y & -> & Hx & Hy).
      by apply view3_bounds. }
  case_bool_decide; rewrite !Hstep by lia; reflexivity.
Qed.

Section WriteFrame.

Context {W : Type} {api : FreeImageAPI W}.

Lemma fill_bitmap_outside (array : ndarray) (b t n : Z) (s sA : state W)
    (r : Z * Z) (a : Z) :
  well_formed array ->
  nchannels_of (a_shape array) = Some n -> n = 1 \/ n = 3 \/ n = 4 ->
  let w := default 0 (a_shape array !! 0%nat) in
  let h := default 0 (a_shape array !! 1%nat) in
  let base := FreeImage_GetBits b (fi s) in
  let P := FreeImage_GetPitch b (fi s) in
  let pal := FreeImage_GetPalette b (fi s) in
  w * n * itemsize (a_dtype array) <= P ->
  fill_bitmap array b t s = (Ok r, sA) ->
  ~ (base <= a < base + h * P) ->
  (length (a_shape array) = 2%nat -> a_dtype array = uint8 ->
   ~ (pal <= a < pal + 1024)) ->
  mem sA a = mem s a.
Proof.
  intros Hwf Hn Hn134 w h base P pal HP Hfill Ha Hpal.
  assert (Hsized : forall v, v_dtype v = a_dtype array ->
                             sized v (a_data array)).
  { intros v Hv. unfold sized. rewrite Hv. apply Hwf. }
  destruct (a_shape array) as [|w0 [|h0 [|n0 [|? ?]]]] eqn:Hshape; try done.
  - (* 2-D *)
    injection Hn as <-. subst w h. cbn in HP, Ha. unfold id in HP, Ha.
    set (v := view2 base P w0 h0 (a_dtype array)).
    assert (Hwrap : _wrap_bitmap_bits_in_array b (a_shape array)
                      (a_dtype array) (fi s) = Ok v)
      by (rewrite Hshape; apply wrap_2d).
    rewrite (fill_bitmap_unfold array b t s v Hwrap) in Hfill.
    rewrite copy_plain_run in Hfill by (rewrite Hshape; reflexivity).
    rewrite Hshape in Hfill. cbn [v_shape v view2 length] in Hfill.
    rewrite (bool_decide_eq_true_2 (2%nat = 2%nat)) in Hfill by done.
    cbn [andb] in Hfill.
    assert (Hcopy : assign v (indices [w0; h0]) (a_data array) (mem s) a
                    = mem s a).
    { apply (assign_outside v _ _ _ base (base + h0 * P)); [|..|done].
      - by apply Hsized.
      - intros t0 Ht. apply elem_of_indices in Ht.
        apply in_range_2_inv in Ht as (x & y & -> & Hx & Hy).
        apply (view2_bounds base P w0 h0 (a_dtype array)); [lia|done|done]. }
    destruct (decide (a_dtype array = uint8)) as [Hu8|Hu8].
    + rewrite (bool_decide_eq_true_2 _ Hu8) in Hfill.
      revert Hfill. unfold install_palette. run. fold pal.
      case_bool_decide as Hp0; [done|]. cbn. intros [= _ <-]. cbn [mem].
      unfold memmove. rewrite store_elem_out; [done|].
      rewrite length_take. specialize (Hpal eq_refl Hu8). lia.
    + rewrite (bool_decide_eq_false_2 _ Hu8) in Hfill.
      revert Hfill. run. by intros [= _ <-].
  - (* 3-D *)
    injection Hn as ->. subst w h. cbn in HP, Ha. unfold id in HP, Ha.
    set (v := view3 base P w0 h0 n (a_dtype array)).
    assert (Hwrap : _wrap_bitmap_bits_in_array b (a_shape array)
                      (a_dtype array) (fi s) = Ok v)
      by (rewrite Hshape; apply wrap_3d).
    rewrite (fill_bitmap_unfold array b t s v Hwrap) in Hfill.
    rewrite Hshape in Hfill. cbn [length] in Hfill.
    rewrite (bool_decide_eq_false_2 (3%nat = 2%nat)) in Hfill by done.
    cbn [andb] in Hfill. revert Hfill.
    destruct (FreeImage_IsLittleEndian && bool_decide (a_dtype array = uint8))
      eqn:Hswap.
    + apply andb_true_iff in Hswap as [Hle Hu8].
      apply bool_decide_eq_true_1 in Hu8.
      destruct (decide (n = 1)) as [->|Hn1].
      { unfold copy_into_bitmap. rewrite Hshape, Hle. cbn [length].
        rewrite !bool_decide_eq_true_2 by done. cbn [andb]. run.
        unfold channel_indices.
        rewrite (bool_decide_eq_false_2 (0 <= 2 < 1)) by lia. done. }
      assert (Hn34 : n = 3 \/ n = 4) by lia.
      rewrite (copy_swap_run v array w0 h0 n _ Hle Hu8 Hshape Hn34 eq_refl).
      run. intros [= _ <-]. cbn [mem].
      by apply reordered_outside.
    + rewrite copy_plain_run.
      2:{ rewrite Hshape. cbn [length].
          rewrite bool_decide_eq_true_2 by done. cbn [andb]. exact Hswap. }
      run. intros [= _ <-]. cbn [mem v_shape v view3].
      apply (assign_outside v _ _ _ base (base + h0 * P)); [|..|done].
      * by apply Hsized.
      * intros t0 Ht. apply elem_of_indices in Ht.
        apply in_range_3_inv in Ht as (x & y & c & -> & Hx & Hy & Hc).
        by apply (view3_bounds base P w0 h0 n (a_dtype array)).
Qed.

(** X11: [_array_to_bitmap] writes nowhere else.  Under the allocation
    contract, when it returns a handle for a well-formed array, every
    byte outside the bitmap's pixel rows [bits, bits + height * pitch)
    and, for a 2-D uint8 array, outside the 1024 bytes of its palette,
    holds what it held when [FreeImage_AllocateT] returned. *)
Theorem write_stays_inside_bitmap (array : ndarray) (s sA : state W)
    (b t : Z) :
  allocation_law -> well_formed array ->
  _array_to_bitmap array s = (Ok (b, t), sA) ->
  let w := default 0 (a_shape array !! 0%nat) in
  let h := default 0 (a_shape array !! 1%nat) in
  let base := FreeImage_GetBits b (fi sA) in
  let P := FreeImage_GetPitch b (fi sA) in
  let pal := FreeImage_GetPalette b (fi sA) in
  exists n m0 d0,
    FreeImage_AllocateT t w h (8 * itemsize (a_dtype array) * n)
                        (mem s) (fi s) = (b, m0, d0) /\
    forall a,
      ~ (base <= a < base + h * P) ->
      (length (a_shape array) = 2%nat -> a_dtype array = uint8 ->
       ~ (pal <= a < pal + 1024)) ->
      mem sA a = m0 a.
Proof.
  intros Hlaw Hwf Harr w h base P pal.
  destruct (array_to_bitmap_Ok_inv array s sA b t Harr)
    as (n & m0 & d0 & Hn & Hreg & Halloc & Hb & Hfill & Hfi & _).
  cbn zeta in Halloc, Hfill. fold w h in Halloc, Hfill.
  destruct (fi_types_registered _ _ _ Hreg) as (Hn134 & _).
  destruct (Hlaw _ _ _ _ _ _ _ _ _ Halloc Hb)
    as (_ & _ & _ & _ & Hpitch & _).
  exists n, m0, d0. split; [done|]. intros a Ha Hpal.
  subst base P pal. rewrite Hfi in Ha, Hpal.
  apply (fill_bitmap_outside array b t n
           (mk_state m0 d0 (trace s ++ [Call_AllocateT t w h
              (8 * itemsize (a_dtype array) * n) b]))
           sA (b, t) a Hwf Hn Hn134);
    cbn [fi mem]; fold w h; try done.
  nia.
Qed.

End WriteFrame.

(** ** The exchange of the read path is in place *)

Section InPlaceExchange.

Context {W : Type} {api : FreeImageAPI W}.

(** X12: the red/blue exchange of the read path is done in the decoder's
    buffer.  On a little-endian runtime, for an 8-bit bitmap with 3 or 4
    channels whose pitch covers a row, a call of [_array_from_bitmap]
    that returns leaves the buffer with channels 0 and 2 exchanged and
    every byte outside the pixel rows untouched; a second conversion of
    the same bitmap that returns gives the channels in the decoder's own
    order and restores the buffer. *)
Theorem read_exchange_is_in_place (bitmap : Z) (s s1 : state W) (n : Z)
    (a1 : ndarray) :
  let d := fi s in
  let w := FreeImage_GetWidth bitmap d in
  let h := FreeImage_GetHeight bitmap d in
  let P := FreeImage_GetPitch bitmap d in
  let base := FreeImage_GetBits bitmap d in
  let addr x y c := base + (h - 1 - y) * P + (x * n + c) in
  FreeImage_IsLittleEndian = true ->
  FreeImage_GetImageType bitmap d = FI_TYPES.FIT_BITMAP ->
  FreeImage_GetBPP bitmap d = 8 * n ->
  n = 3 \/ n = 4 ->
  w * n <= P ->
  _array_from_bitmap bitmap s = (Ok a1, s1) ->
  (forall a, ~ (base <= a < base + h * P) -> mem s1 a = mem s a) /\
  (forall x y c, 0 <= x < w -> 0 <= y < h -> 0 <= c < n ->
     mem s1 (addr x y c) = mem s (addr x y (swap02 c)) /\
     item a1 [x; y; c] = [mem s (addr x y (swap02 c))]) /\
  (forall a2 s2, _array_from_bitmap bitmap s1 = (Ok a2, s2) ->
     forall x y c, 0 <= x < w -> 0 <= y < h -> 0 <= c < n ->
       item a2 [x; y; c] = [mem s (addr x y c)] /\
       mem s2 (addr x y c) = mem s (addr x y c)).
Proof.
  intros d w h P base addr Hle Ht Hbpp Hn HP Hret.
  pose proof (get_type_and_shape_bitmap bitmap d n Ht Hbpp Hn) as Hts.
  fold w h in Hts.
  set (v := view3 base P w h n uint8).
  assert (Hn3 : 3 <= n) by lia.
  assert (Hget : forall m x y c, view_get v m [x; y; c] = [m (addr x y c)]).
  { intros m x y c. unfold view_get, v. rewrite view3_addr.
    cbn [v_dtype view3 itemsize]. rewrite load_elem_1.
    unfold addr. do 2 f_equal. lia. }
  assert (Hex : forall m x y c, 0 <= x < w -> 0 <= y < h -> 0 <= c < n ->
             view_get v (exchanged v w h m) [x; y; c]
             = view_get v m [x; y; swap02 c]).
  { intros m x y c Hx Hy Hc.
    apply (exchanged_get v base P w h n); try done. cbn. lia. }
  pose proof (array_from_bitmap_3d bitmap s uint8 w h n Hts Hn3) as Hrun1.
  cbn zeta in Hrun1. fold d base P v in Hrun1.
  rewrite Hle, bool_decide_eq_true_2 in Hrun1 by done. cbn [andb] in Hrun1.
  set (m1 := exchanged v w h (mem s)) in *.
  rewrite Hrun1 in Hret. injection Hret as <- <-.
  set (s1 := mk_state m1 (fi s) (trace s)) in *.
  pose proof (array_from_bitmap_3d bitmap s1 uint8 w h n Hts Hn3) as Hrun2.
  cbn zeta in Hrun2. cbn [fi s1] in Hrun2. fold d base P v in Hrun2.
  rewrite Hle, bool_decide_eq_true_2 in Hrun2 by done. cbn [andb] in Hrun2.
  assert (Hex1 : forall x y c, 0 <= x < w -> 0 <= y < h -> 0 <= c < n ->
             [m1 (addr x y c)] = [mem s (addr x y (swap02 c))]).
  { intros x y c Hx Hy Hc. rewrite <- !Hget. by apply Hex. }
  assert (Hex2 : forall x y c, 0 <= x < w -> 0 <= y < h -> 0 <= c < n ->
             [exchanged v w h m1 (addr x y c)] = [mem s (addr x y c)]).
  { intros x y c Hx Hy Hc.
    assert (Hc' : 0 <= swap02 c < n) by (apply swap02_range; lia).
    rewrite <- !Hget. rewrite Hex by done. unfold m1. rewrite Hex by done.
    by rewrite swap02_involutive. }
  split; [|split].
  { intros a Ha. cbn [mem s1]. unfold m1, exchanged.
    assert (Hin : forall c t, 0 <= c < n -> t ∈ channel w h c ->
               base <= view_addr v t /\
               view_addr v t + itemsize (v_dtype v) <= base + h * P).
    { intros c t Hc Hin. apply elem_of_channel in Hin as (x & y & -> & Hx & Hy).
      apply (view3_bounds base P w h n uint8); try done. cbn. lia. }
    rewrite !(assign_outside v _ _ _ base (base + h * P)); try done.
    - by apply sized_view_get.
    - intros t. apply Hin. lia.
    - by apply sized_view_get.
    - intros t. apply Hin. lia. }
  - intros x y c Hx Hy Hc.
    assert (Hin : in_range [x; y; c] (v_shape v)) by by apply in_range_3.
    pose proof (Hex1 x y c Hx Hy Hc) as H1.
    cbn [mem s1]. split; [by injection H1|].
    rewrite item_view_copy by done. by rewrite Hget.
  - intros a2 s2 Hret2.
    pose proof (eq_trans (eq_sym Hrun2) Hret2) as Heq.
    injection Heq as <- <-.
    intros x y c Hx Hy Hc.
    assert (Hin : in_range [x; y; c] (v_shape v)) by by apply in_range_3.
    pose proof (Hex2 x y c Hx Hy Hc) as H2.
    rewrite item_view_copy by done. rewrite Hget.
    split; [done|]. cbn [mem]. by injection H2.
Qed.

End InPlaceExchange.

(** ** The pages of [write_multipage] *)

Lemma remove_one_behind (r : resource) (l held : list resource) :
  r ∉ l -> remove_one r (l ++ r :: held) = l ++ held.
Proof.
  induction l as [|r' l IH]; intros Hl; cbn.
  - by rewrite decide_True.
  - apply not_elem_of_cons in Hl as [Hne Hl].
    rewrite decide_False by done. by rewrite IH.
Qed.

Section WriteMultipage.

Context {W : Type} {api : FreeImageAPI W}.

(** The calls of one [_array_to_bitmap]: a single allocation whose
    handle is returned, or calls that leave nothing held. *)
Lemma array_to_bitmap_events (array : ndarray) (s : state W) :
  let r := _array_to_bitmap array s in
  exists events,
    trace r.2 = trace s ++ events /\
    match r.1 with
    | Ok (b, t) =>
        b <> 0 /\
        exists w h bpp, events = [Call_AllocateT t w h bpp b]
    | Raise _ =>
        (forall held, fold_left step events held = held) /\
        (forall mb, appended mb events = [])
    | Diverge => False
    end.
Proof.
  cbn zeta.
  destruct (nchannels_of (a_shape array)) as [n|] eqn:Hn.
  2:{ unfold _array_to_bitmap. rewrite Hn. exists []. rewrite app_nil_r.
      done. }
  destruct (FI_TYPES.fi_types !! (a_dtype array, n)) as [t|] eqn:Ht.
  2:{ unfold _array_to_bitmap. rewrite Hn, Ht. exists [].
      rewrite app_nil_r. done. }
  destruct (FreeImage_AllocateT t (default 0 (a_shape array !! 0%nat))
              (default 0 (a_shape array !! 1%nat))
              (8 * itemsize (a_dtype array) * n) (mem s) (fi s))
    as [[b m0] d0] eqn:Halloc.
  destruct (decide (b = 0)) as [Hb|Hb].
  { rewrite (array_to_bitmap_unfold array n t s Hn Ht). run.
    rewrite Halloc. cbn. rewrite (bool_decide_eq_true_2 _ Hb). subst b.
    eexists [_]. split; [reflexivity|]. done. }
  destruct (array_to_bitmap_allocated array n t s b m0 d0 Hn Ht Halloc Hb)
    as (Heq & Hfi & Htr & Hd).
  rewrite Heq. clear Heq.
  destruct (fill_bitmap array b t _) as [[r| |] sF] eqn:Hfill;
    cbn [fst snd] in *; try done.
  - eexists [_]. split; [exact Htr|]. split; [done|]. eauto.
  - eexists [_; _]. split; [reflexivity|]. split; [|done].
    intros held. cbn. unfold acquire.
    rewrite bool_decide_eq_false_2 by done. apply remove_one_head.
Qed.

Lemma append_loop_cons (mb : Z) (array : ndarray) (rest : list ndarray) :
  append_loop mb (array :: rest)
  = (bt <~ _array_to_bitmap array;;
     call_AppendPage mb bt.1;;;
     append_loop mb rest).
Proof. reflexivity. Qed.

Lemma append_loop_run (mb : Z) (arrays : list ndarray) :
  forall s : state W,
    let r := append_loop mb arrays s in
    r.1 <> Diverge /\
    exists handles events,
      trace r.2 = trace s ++ events /\
      Forall (fun b => b <> 0) handles /\
      appended mb events = handles /\
      (forall held,
          fold_left step events held = (RBitmap <$> reverse handles) ++ held) /\
      match r.1 with
      | Ok _ => length handles = length arrays /\
                forall b, Call_Unload b ∉ events
      | _ => (length handles < length arrays)%nat
      end.
Proof.
  induction arrays as [|array rest IH]; intros s; cbn zeta.
  - cbn. split; [done|]. exists [], []. rewrite app_nil_r.
    repeat split; try done. intros b. apply not_elem_of_nil.
  - rewrite append_loop_cons. run.
    destruct (array_to_bitmap_events array s) as (evs & Htr & Hres).
    cbn zeta in Htr, Hres.
    destruct (_array_to_bitmap array s) as [[[b t]| |] s1];
      cbn [fst snd] in *; [| |done].
    + destruct Hres as (Hb & w & h & bpp & ->).
      match goal with |- context [append_loop mb rest ?s2] =>
        destruct (IH s2) as (Hd & handles & evs' & Htr' & Hnz & Happ & Hheld
                             & Hres') end.
      cbn zeta in *. cbn [trace] in Htr'.
      split; [done|].
      exists (b :: handles),
             (Call_AllocateT t w h bpp b :: Call_AppendPage mb b :: evs').
      split; [|split; [|split; [|split]]].
      * rewrite Htr', Htr, <- !app_assoc. reflexivity.
      * by constructor.
      * cbn. rewrite bool_decide_eq_true_2 by done. cbn. f_equal.
        exact Happ.
      * intros held. cbn [fold_left step]. unfold acquire.
        rewrite bool_decide_eq_false_2 by done. rewrite Hheld.
        rewrite reverse_cons, fmap_app, <- app_assoc. reflexivity.
      * destruct (append_loop mb rest _).1.
        -- destruct Hres' as [Hlen Hun]. split; [cbn; lia|].
           intros b'. rewrite !not_elem_of_cons. repeat split; done.
        -- cbn. lia.
        -- cbn. lia.
    + destruct Hres as [Hbal Happ].
      split; [done|]. exists [], evs. split; [done|].
      split; [done|]. split; [apply Happ|].
      split; [intros held; by rewrite Hbal|]. cbn. lia.
Qed.

(** X13: [write_multipage] once the session is open.  It ends, and its
    calls are the opening, the calls of the pages and
    [FreeImage_CloseMultiBitmap] with the caller's flags as the last
    call, also when a page raises.  The bitmaps appended to the session
    are the non-null handles [handles], in order; none of them is
    released: after the call exactly these bitmaps are held on top of
    what was held before, and the session is not.  On return there is
    one of them per array and no [FreeImage_Unload] has been called;
    when a page raises there are fewer than arrays. *)
Theorem write_multipage_keeps_page_bitmaps (arrays : list ndarray)
    (filename : string) (flags : Z) (s : state W) (mb : Z) (d1 : W) :
  let ftype := FreeImage_GetFIFFromFilename filename in
  ftype <> -1 ->
  FreeImage_OpenMultiBitmap ftype filename true false true 0 (fi s)
    = (mb, d1) ->
  mb <> 0 ->
  let r := write_multipage arrays filename flags s in
  r.1 <> Diverge /\
  exists handles events,
    trace r.2
    = trace s ++ Call_OpenMultiBitmap ftype filename mb :: events
        ++ [Call_CloseMultiBitmap mb flags] /\
    Forall (fun b => b <> 0) handles /\
    appended mb events = handles /\
    (forall held,
        fold_left step
          (Call_OpenMultiBitmap ftype filename mb :: events
             ++ [Call_CloseMultiBitmap mb flags]) held
        = (RBitmap <$> reverse handles) ++ held) /\
    match r.1 with
    | Ok _ => length handles = length arrays /\
              forall b, Call_Unload b ∉ events
    | _ => (length handles < length arrays)%nat
    end.
Proof.
  intros ftype Hft Hopen Hmb r. subst r. unfold write_multipage.
  fold ftype. rewrite bool_decide_eq_false_2 by done. run.
  rewrite Hopen. cbn. rewrite bool_decide_eq_false_2 by done.
  match goal with |- context [append_loop mb arrays ?s1] =>
    destruct (append_loop_run mb arrays s1)
      as (Hd & handles & evs & Htr & Hnz & Happ & Hheld & Hres) end.
  cbn zeta in *. cbn [trace] in Htr.
  assert (Hclose : forall held,
             fold_left step
               (Call_OpenMultiBitmap ftype filename mb :: evs
                  ++ [Call_CloseMultiBitmap mb flags]) held
             = (RBitmap <$> reverse handles) ++ held).
  { intros held. cbn. unfold acquire.
    rewrite bool_decide_eq_false_2 by done.
    rewrite fold_left_app, Hheld. cbn.
    apply remove_one_behind. intros Hin.
    apply list_elem_of_fmap in Hin as (b & Hb & _). done. }
  destruct (append_loop mb arrays _) as [[[]|e|] s2]; cbn [fst snd] in *;
    try done.
  - split; [done|]. exists handles, evs. cbn.
    rewrite Htr, <- !app_assoc. done.
  - split; [done|]. exists handles, evs. cbn.
    rewrite Htr, <- !app_assoc. done.
Qed.

End WriteMultipage.

(** ** The page order of [read_multipage] *)

Section PageOrder.

Context {W : Type} {api : FreeImageAPI W}.

Lemma pages_loop_order {A} (mb : Z) (process_func : Z -> M W A)
    (pages : list Z) :
  (forall b, keeps_resources (process_func b)) ->
  forall (out : list A) (s : state W),
    let r := pages_loop mb process_func pages out s in
    exists handles,
      Forall (fun b => b <> 0) handles /\
      match r.1 with
      | Ok _ =>
          length handles = length pages /\
          trace r.2 = trace s ++ page_calls mb pages handles
      | Raise _ =>
          exists i b,
            pages !! length handles = Some i /\
            trace r.2
            = trace s ++ page_calls mb (take (length handles) pages) handles
                ++ Call_LockPage mb i b
                   :: (if bool_decide (b = 0) then []
                       else [Call_UnlockPage mb b false])
      | Diverge => False
      end.
Proof.
  intros Hpf. induction pages as [|i rest IH]; intros out s; cbn zeta.
  - exists []. cbn. split; [constructor|]. by rewrite app_nil_r.
  - rewrite pages_loop_cons. run.
    destruct (FreeImage_LockPage mb i (mem s) (fi s)) as [[b m1] d1]. cbn.
    case_bool_decide as Hb.
    + subst b. exists []. split; [constructor|]. cbn.
      exists i, 0. split; [done|]. by rewrite bool_decide_eq_true_2.
    + set (s1 := mk_state m1 d1 (trace s ++ [Call_LockPage mb i b])).
      destruct (Hpf b s1) as (Htr & _ & Hd).
      destruct (process_func b s1) as [[r| |] s2]; cbn in *; [| |done].
      * match goal with |- context [pages_loop mb process_func rest _ ?s3] =>
          destruct (IH (out ++ [r]) s3) as (handles & Hnz & Hres) end.
        cbn zeta in Hres. cbn [trace] in Hres.
        exists (b :: handles). split; [by constructor|].
        destruct (pages_loop mb process_func rest _ _).1.
        -- destruct Hres as [Hlen Hres]. split; [cbn; lia|].
           rewrite Hres, Htr. unfold page_calls. cbn.
           by rewrite <- !app_assoc.
        -- destruct Hres as (i' & b' & Hi' & Hres).
           exists i', b'. split; [done|].
           rewrite Hres, Htr. unfold page_calls. cbn.
           by rewrite <- !app_assoc.
        -- done.
      * exists []. split; [constructor|]. cbn.
        exists i, b. split; [done|].
        rewrite bool_decide_eq_false_2 by done.
        rewrite Htr. by rewrite <- !app_assoc.
Qed.

(** X14: [read_multipage] once the session is open.  Pages are locked
    one at a time in index order from 0, each unlocked before the next
    is locked, and the session is closed last.  On return the list has
    one array per page and the calls are exactly those.  When it raises,
    the calls are those of the pages before the failing one, the lock of
    the failing page, its unlock if the lock gave a handle, and the
    close. *)
Theorem read_multipage_page_order (filename : string) (flags : Z)
    (s : state W) (mb : Z) (d1 : W) :
  let ftype := FreeImage_GetFileType filename (fi s) in
  let pages := seqZ 0 (FreeImage_GetPageCount mb d1) in
  ftype <> -1 ->
  FreeImage_OpenMultiBitmap ftype filename false true true flags (fi s)
    = (mb, d1) ->
  mb <> 0 ->
  let r := read_multipage filename flags s in
  exists handles,
    Forall (fun b => b <> 0) handles /\
    match r.1 with
    | Ok out =>
        length out = length pages /\ length handles = length pages /\
        trace r.2
        = trace s ++ Call_OpenMultiBitmap ftype filename mb
            :: page_calls mb pages handles ++ [Call_CloseMultiBitmap mb 0]
    | Raise _ =>
        exists i b,
          pages !! length handles = Some i /\
          trace r.2
          = trace s ++ Call_OpenMultiBitmap ftype filename mb
              :: page_calls mb (take (length handles) pages) handles
              ++ Call_LockPage mb i b
                 :: (if bool_decide (b = 0) then []
                     else [Call_UnlockPage mb b false])
              ++ [Call_CloseMultiBitmap mb 0]
    | Diverge => False
    end.
Proof.
  intros ftype pages Hft Hopen Hmb r. subst r.
  unfold read_multipage, _process_multipage. run. fold ftype.
  rewrite bool_decide_eq_false_2 by done. rewrite Hopen. cbn.
  rewrite bool_decide_eq_false_2 by done. cbn [fi]. fold pages.
  match goal with |- context [pages_loop mb _ pages [] ?s1] =>
    destruct (pages_loop_order mb _array_from_bitmap pages
                array_from_bitmap_keeps [] s1) as (handles & Hnz & Hres);
    destruct (pages_loop_balanced mb _array_from_bitmap pages
                array_from_bitmap_balanced [] s1) as (_ & _ & _ & _ & Hlen)
  end.
  cbn zeta in Hres. cbn [trace] in Hres.
  exists handles. split; [done|].
  destruct (pages_loop mb _array_from_bitmap pages [] _) as [[out|e|] s2];
    cbn [fst snd] in *; [| |done].
  - destruct Hres as [Hh Htr]. split; [by rewrite (Hlen out eq_refl)|].
    split; [done|]. cbn. rewrite Htr. by rewrite <- !app_assoc.
  - destruct Hres as (i & b & Hi & Htr). exists i, b. split; [done|].
    cbn. rewrite Htr. rewrite <- !app_assoc. cbn.
    by rewrite <- ?app_assoc.
Qed.

End PageOrder.

(** ** Tags that do not decode *)

Lemma metadata_dtypes_None (ty : Z) :
  METADATA_DATATYPE.dtypes !! ty = None <->
  ty = 2 \/ ~ (1 <= ty <= 14 \/ 16 <= ty <= 18).
Proof.
  split.
  - intros Hnone.
    destruct (decide (ty = 2 \/ ~ (1 <= ty <= 14 \/ 16 <= ty <= 18)))
      as [|Hin]; [done|exfalso].
    assert (Hcases : ty = 1 \/ ty = 3 \/ ty = 4 \/ ty = 5 \/ ty = 6 \/
                     ty = 7 \/ ty = 8 \/ ty = 9 \/ ty = 10 \/ ty = 11 \/
                     ty = 12 \/ ty = 13 \/ ty = 14 \/ ty = 16 \/ ty = 17 \/
                     ty = 18) by lia.
    repeat destruct Hcases as [-> | Hcases]; try subst ty; done.
  - intros Hty. apply not_elem_of_list_to_map_1. cbn.
    unfold METADATA_DATATYPE.FIDT_BYTE, METADATA_DATATYPE.FIDT_SHORT,
      METADATA_DATATYPE.FIDT_LONG, METADATA_DATATYPE.FIDT_RATIONAL,
      METADATA_DATATYPE.FIDT_SBYTE, METADATA_DATATYPE.FIDT_UNDEFINED,
      METADATA_DATATYPE.FIDT_SSHORT, METADATA_DATATYPE.FIDT_SLONG,
      METADATA_DATATYPE.FIDT_SRATIONAL, METADATA_DATATYPE.FIDT_FLOAT,
      METADATA_DATATYPE.FIDT_DOUBLE, METADATA_DATATYPE.FIDT_IFD,
      METADATA_DATATYPE.FIDT_PALETTE, METADATA_DATATYPE.FIDT_LONG8,
      METADATA_DATATYPE.FIDT_SLONG8, METADATA_DATATYPE.FIDT_IFD8.
    rewrite !not_elem_of_cons. repeat split; try lia. apply not_elem_of_nil.
Qed.

Lemma fromstring_misaligned (le : bool) (bs : list Z) (l : layout) :
  0 < layout_itemsize l ->
  Z.of_nat (length bs) mod layout_itemsize l <> 0 ->
  fromstring le bs l = Raise (ValueError msg_fromstring).
Proof.
  intros Hpos Hmod. unfold fromstring.
  rewrite bool_decide_eq_false_2; [done|].
  intros H0. apply Hmod.
  rewrite <- (Z2Nat.id (layout_itemsize l)) by lia.
  by rewrite <- Nat2Z.inj_mod, H0.
Qed.

Lemma fromstring_aligned (le : bool) (bs : list Z) (l : layout) :
  0 < layout_itemsize l ->
  Z.of_nat (length bs) mod layout_itemsize l = 0 ->
  exists xs, fromstring le bs l = Ok xs /\
    Z.of_nat (length xs) = Z.of_nat (length bs) / layout_itemsize l.
Proof.
  intros Hpos Hmod. unfold fromstring.
  rewrite bool_decide_eq_true_2.
  - eexists. split; [reflexivity|].
    rewrite length_fmap, length_seq, Nat2Z.inj_div, Z2Nat.id by lia. done.
  - apply Nat2Z.inj. rewrite Nat2Z.inj_mod, Z2Nat.id by lia. done.
Qed.

Section TagFailures.

Context {W : Type} {api : FreeImageAPI W}.

(** X15: the failures of tag decoding.  A negative tag length raises
    ctypes' ValueError and a null value pointer raises TypeError, both
    before the tag type is looked at.  Otherwise, for a tag that is not
    ASCII: a type code outside 1..14 and 16..18 raises KeyError (codes
    0, 15 and those above 18 are not registered, every other code is);
    for a registered type a byte length that is not a multiple of the
    element size raises numpy's ValueError, a multiple decodes, and a
    length of zero decodes to the empty sequence. *)
Theorem decode_tag_failures (tag : Z) (d : W) (m : memory) :
  let name := FreeImage_GetTagKey tag d in
  let ty := FreeImage_GetTagType tag d in
  let len := FreeImage_GetTagLength tag d in
  let value := FreeImage_GetTagValue tag d in
  (len < 0 -> decode_tag tag d m = Raise (ValueError msg_array_length)) /\
  (0 <= len -> value = 0 ->
     decode_tag tag d m = Raise (TypeError msg_from_address)) /\
  (0 <= len -> value <> 0 -> ty <> METADATA_DATATYPE.FIDT_ASCII ->
     (~ (1 <= ty <= 14 \/ 16 <= ty <= 18) ->
        decode_tag tag d m = Raise (KeyError ty)) /\
     (forall l, METADATA_DATATYPE.dtypes !! ty = Some l ->
        (len mod layout_itemsize l <> 0 ->
           decode_tag tag d m = Raise (ValueError msg_fromstring)) /\
        (len mod layout_itemsize l = 0 ->
           exists v, decode_tag tag d m = Ok (name, v)) /\
        (len = 0 -> decode_tag tag d m = Ok (name, Sequence []))) /\
     ((1 <= ty <= 14 \/ 16 <= ty <= 18) ->
        exists l, METADATA_DATATYPE.dtypes !! ty = Some l)).
Proof.
  intros name ty len value.
  split; [|split].
  { intros Hneg. unfold decode_tag. fold len.
    by rewrite bool_decide_eq_true_2 by done. }
  { intros Hlen Hnull. unfold decode_tag. fold len value.
    rewrite bool_decide_eq_false_2 by lia.
    by rewrite bool_decide_eq_true_2 by done. }
  intros Hlen Hvalue Hty.
  assert (Hbytes : forall a, Z.of_nat (length (load_elem m a len)) = len).
  { intros a. rewrite length_load_elem. lia. }
  assert (Hrun : decode_tag tag d m
            = match METADATA_DATATYPE.dtypes !! ty with
              | None => Raise (KeyError ty)
              | Some l =>
                  match fromstring FreeImage_IsLittleEndian
                          (load_elem m value len) l with
                  | Ok [x] => Ok (name, Scalar x)
                  | Ok xs => Ok (name, Sequence xs)
                  | Raise e => Raise e
                  | Diverge => Diverge
                  end
              end).
  { unfold decode_tag. fold len value ty.
    rewrite bool_decide_eq_false_2 by lia.
    rewrite bool_decide_eq_false_2 by done.
    by rewrite bool_decide_eq_false_2 by done. }
  split; [|split].
  - intros Hout. rewrite Hrun.
    by rewrite (proj2 (metadata_dtypes_None ty) (or_intror Hout)).
  - intros l Hl. pose proof (metadata_layout_positive ty l Hl) as Hpos.
    rewrite Hrun, Hl.
    split; [|split].
    + intros Hmod. rewrite fromstring_misaligned; [done|done|].
      by rewrite Hbytes.
    + intros Hmod.
      destruct (fromstring_aligned FreeImage_IsLittleEndian
                  (load_elem m value len) l Hpos)
        as (xs & -> & _); [by rewrite Hbytes|].
      destruct xs as [|x [|? ?]]; eauto.
    + intros Hz. rewrite Hz.
      change (load_elem m value 0) with (@nil Z).
      unfold fromstring. cbn [length].
      rewrite Nat.Div0.mod_0_l, bool_decide_eq_true_2 by done.
      rewrite Nat.Div0.div_0_l. reflexivity.
  - intros Hin.
    destruct (METADATA_DATATYPE.dtypes !! ty) as [l|] eqn:Hl; [eauto|].
    apply metadata_dtypes_None in Hl. unfold METADATA_DATATYPE.FIDT_ASCII in Hty.
    lia.
Qed.

End TagFailures.

(** ** The cursors of [read_metadata] *)

Section MetadataBalance.

Context {W : Type} {api : FreeImageAPI W}.

Lemma tags_loop_mem (fuel : nat) (name : string) (h : Z) :
  forall (tag : Z) (md : gmap (string * string) tagval) (s : state W),
    mem (tags_loop fuel name h tag md s).2 = mem s.
Proof.
  induction fuel as [|fuel IH]; intros tag md s; [done|].
  unfold tags_loop; fold (@tags_loop W api). run.
  destruct (decode_tag tag (fi s) (mem s)) as [kv| |]; cbn; try done.
  destruct (FreeImage_FindNextMetadata h tag (fi s)) as [[more tag'] d'].
  cbn. destruct more; [|done]. by rewrite IH.
Qed.

Lemma models_loop_mem (fuel : nat) (bitmap : Z) (models : list (string * Z)) :
  forall (tag : Z) (md : gmap (string * string) tagval) (s : state W),
    mem (models_loop fuel bitmap models tag md s).2 = mem s.
Proof.
  induction models as [|[name number] rest IH]; intros tag md s; [done|].
  unfold models_loop; fold (@models_loop W api). run.
  destruct (FreeImage_FindFirstMetadata number bitmap tag (fi s))
    as [[h tag1] d1]. cbn.
  case_bool_decide as Hh.
  - by rewrite IH.
  - match goal with |- context [tags_loop fuel name h tag1 md ?s1] =>
      pose proof (tags_loop_mem fuel name h tag1 md s1) as Hm;
      destruct (tags_loop fuel name h tag1 md s1) as [[r| |] s2] end;
      cbn in *; try done.
    by rewrite IH.
Qed.

(** X16: [read_metadata] after a successful load, when the tag
    iteration ends.  It loads with [FIF_LOAD_NOPIXELS], writes no
    memory, and unloads the bitmap as its last call.  When it returns,
    the metadata calls in between leave nothing held; whenever it
    raises, they leave exactly one cursor open: every failure while a
    tag is decoded leaks the cursor of the model being read. *)
Theorem read_metadata_cursor_balance (fuel : nat) (filename : string)
    (s : state W) (b : Z) (m' : memory) (d' : W) :
  let ftype := FreeImage_GetFileType filename (fi s) in
  ftype <> -1 ->
  FreeImage_Load ftype filename FIF_LOAD_NOPIXELS (mem s) (fi s)
    = (b, m', d') ->
  b <> 0 ->
  let r := read_metadata fuel filename s in
  r.1 <> Diverge ->
  mem r.2 = m' /\
  exists events,
    trace r.2
    = trace s ++ Call_Load ftype filename FIF_LOAD_NOPIXELS b :: events
        ++ [Call_Unload b] /\
    match r.1 with
    | Ok _ => forall held, fold_left step events held = held
    | _ => exists h, h <> 0 /\
             forall held, fold_left step events held = RCursor h :: held
    end.
Proof.
  intros ftype Hft Hload Hb r. subst r. unfold read_metadata.
  set (s1 := mk_state m' d'
               (trace s ++ [Call_Load ftype filename FIF_LOAD_NOPIXELS b])).
  intros Hd.
  assert (Hd1 : (_read_metadata fuel b s1).1 <> Diverge).
  { intros Hdiv. apply Hd. unfold _process_bitmap. run.
    fold ftype. rewrite bool_decide_eq_false_2 by done.
    rewrite Hload. cbn. rewrite bool_decide_eq_false_2 by done.
    fold s1. destruct (_read_metadata fuel b s1) as [[] ?]; done. }
  rewrite (process_bitmap_unloads filename FIF_LOAD_NOPIXELS
             (_read_metadata fuel) s b m' d' Hft Hload Hb Hd1).
  fold ftype s1. cbn [fst snd mem trace].
  unfold _read_metadata in *.
  split; [apply (models_loop_mem fuel b METADATA_MODELS.models 0 ∅ s1)|].
  destruct (models_loop_cursors fuel b METADATA_MODELS.models 0 ∅ s1)
    as (evs & Htr & Hres).
  exists evs. split.
  - rewrite Htr. unfold s1. cbn [trace]. by rewrite <- !app_assoc.
  - destruct (models_loop fuel b METADATA_MODELS.models 0 ∅ s1).1; done.
Qed.

End MetadataBalance.

(** ** The cursors of [read_multipage_metadata] *)

Section MultipageMetadata.

Context {W : Type} {api : FreeImageAPI W}.

Lemma pages_loop_metadata (fuel : nat) (mb : Z) (pages : list Z) :
  forall (out : list (gmap (string * string) tagval)) (s : state W),
    let r := pages_loop mb (_read_metadata fuel) pages out s in
    exists events,
      trace r.2 = trace s ++ events /\
      match r.1 with
      | Ok _ => forall held, fold_left step events held = held
      | Raise e =>
          (e = ValueError msg_lock_page /\
           forall held, fold_left step events held = held) \/
          (exists h, h <> 0 /\
             forall held, fold_left step events held = RCursor h :: held)
      | Diverge => True
      end.
Proof.
  induction pages as [|i rest IH]; intros out s; cbn zeta.
  - exists []. cbn. by rewrite app_nil_r.
  - rewrite pages_loop_cons. run.
    destruct (FreeImage_LockPage mb i (mem s) (fi s)) as [[b m1] d1]. cbn.
    case_bool_decide as Hb.
    + subst b. exists [Call_LockPage mb i 0]. split; [done|]. by left.
    + set (s1 := mk_state m1 d1 (trace s ++ [Call_LockPage mb i b])).
      unfold _read_metadata.
      destruct (models_loop_cursors fuel b METADATA_MODELS.models 0 ∅ s1)
        as (evs & Htr & Hres).
      destruct (models_loop fuel b METADATA_MODELS.models 0 ∅ s1)
        as [[r| |] s2]; cbn [fst snd] in *.
      * match goal with |- context [pages_loop mb _ rest _ ?s3] =>
          destruct (IH (out ++ [r]) s3) as (evs' & Htr' & Hres') end.
        cbn zeta in Htr', Hres'. cbn [trace] in Htr'.
        unfold _read_metadata in Htr', Hres'.
        exists (Call_LockPage mb i b :: evs
                  ++ Call_UnlockPage mb b false :: evs').
        split.
        -- rewrite Htr', Htr. unfold s1. cbn [trace].
           by rewrite <- !app_assoc.
        -- assert (Hpre : forall held,
                     fold_left step
                       (Call_LockPage mb i b :: evs
                          ++ Call_UnlockPage mb b false :: evs') held
                     = fold_left step evs' held).
           { intros held. cbn [fold_left step]. unfold acquire.
             rewrite bool_decide_eq_false_2 by done.
             rewrite fold_left_app, Hres. cbn [fold_left step].
             by rewrite remove_one_head. }
           destruct (pages_loop mb _ rest _ _).1 as [|e|].
           ++ intros held. by rewrite Hpre.
           ++ destruct Hres' as [[-> Hbal] | (h & Hh & Hleak)].
              ** left. split; [done|]. intros held. by rewrite Hpre.
              ** right. exists h. split; [done|]. intros held.
                 by rewrite Hpre.
           ++ done.
      * destruct Hres as (h & Hh & Hleak).
        exists (Call_LockPage mb i b :: evs ++ [Call_UnlockPage mb b false]).
        split.
        -- cbn. rewrite Htr. unfold s1. cbn [trace].
           by rewrite <- !app_assoc.
        -- right. exists h. split; [done|]. intros held.
           cbn [fold_left step]. unfold acquire.
           rewrite bool_decide_eq_false_2 by done.
           rewrite fold_left_app, Hleak. cbn.
           rewrite decide_False by done. by rewrite decide_True.
      * exists (Call_LockPage mb i b :: evs). split; [|done].
        cbn. rewrite Htr. unfold s1. cbn [trace]. by rewrite <- !app_assoc.
Qed.

(** X17: [read_multipage_metadata] once the session is open, when the
    tag iterations end.  The session is closed as the last call.  When
    it returns, the calls in between leave nothing held.  When it
    raises, either a page could not be locked and nothing is held, or a
    tag failed to decode: the page is unlocked and the session closed,
    but one metadata cursor stays open. *)
Theorem read_multipage_metadata_cursor_balance (fuel : nat)
    (filename : string) (s : state W) (mb : Z) (d1 : W) :
  let ftype := FreeImage_GetFileType filename (fi s) in
  ftype <> -1 ->
  FreeImage_OpenMultiBitmap ftype filename false true true FIF_LOAD_NOPIXELS
                            (fi s) = (mb, d1) ->
  mb <> 0 ->
  let r := read_multipage_metadata fuel filename s in
  r.1 <> Diverge ->
  exists events,
    trace r.2
    = trace s ++ Call_OpenMultiBitmap ftype filename mb :: events
        ++ [Call_CloseMultiBitmap mb 0] /\
    match r.1 with
    | Ok _ => forall held, fold_left step events held = held
    | Raise e =>
        (e = ValueError msg_lock_page /\
         forall held, fold_left step events held = held) \/
        (exists h, h <> 0 /\
           forall held, fold_left step events held = RCursor h :: held)
    | Diverge => False
    end.
Proof.
  intros ftype Hft Hopen Hmb r. subst r.
  unfold read_multipage_metadata, _process_multipage. run. fold ftype.
  rewrite bool_decide_eq_false_2 by done. rewrite Hopen. cbn.
  rewrite bool_decide_eq_false_2 by done. cbn [fi].
  match goal with |- context [pages_loop mb _ ?pages [] ?s1] =>
    destruct (pages_loop_metadata fuel mb pages [] s1)
      as (evs & Htr & Hres)
  end.
  cbn zeta in Htr, Hres. cbn [trace] in Htr.
  destruct (pages_loop mb (_read_metadata fuel) _ [] _) as [[out|e|] s2];
    cbn [fst snd] in *; [| |done].
  - intros _. exists evs. split; [|done].
    cbn. rewrite Htr. by rewrite <- !app_assoc.
  - intros _. exists evs. split; [|done].
    cbn. rewrite Htr. by rewrite <- !app_assoc.
Qed.

End MultipageMetadata.

(** ** The dictionary [_read_metadata] returns *)

Section MetadataKeys.

Context {W : Type} {api : FreeImageAPI W}.

Lemma models_loop_no_tags (fuel : nat) (bitmap : Z)
    (models : list (string * Z)) (d : W) :
  (forall model tag,
      exists tag', FreeImage_FindFirstMetadata model bitmap tag d
                   = (0, tag', d)) ->
  forall (tag : Z) (md : gmap (string * string) tagval) (s : state W),
  fi s = d ->
  exists s',
    models_loop fuel bitmap models tag md s = (Ok md, s') /\
    mem s' = mem s /\ fi s' = d /\
    trace s'
    = trace s ++ ((fun number => Call_FindFirstMetadata number bitmap 0)
                    <$> models.*2).
Proof.
  intros Hnone. induction models as [|[name number] rest IH];
    intros tag md s Hfi.
  - exists s. cbn. by rewrite app_nil_r.
  - unfold models_loop; fold (@models_loop W api). run.
    destruct (Hnone number tag) as [tag1 H0]. rewrite Hfi, H0. cbn.
    rewrite bool_decide_eq_true_2 by done.
    match goal with |- context [models_loop fuel bitmap rest tag1 md ?s1] =>
      destruct (IH tag1 md s1 eq_refl) as (s' & Hrun & Hmem & Hfi' & Htr) end.
    exists s'. rewrite Hrun, Hmem, Htr. cbn. by rewrite <- app_assoc.
Qed.

(** X18: a bitmap without metadata.  When
    [FreeImage_FindFirstMetadata] finds no tag in any model,
    [_read_metadata] returns the empty dictionary after asking for the
    models 0 to 9 in that order, one call each; it opens no cursor,
    changes neither memory nor the decoder state, and does so whatever
    the bound on the tag loop. *)
Theorem read_metadata_without_tags (fuel : nat) (bitmap : Z) (s : state W) :
  (forall model tag,
      exists tag', FreeImage_FindFirstMetadata model bitmap tag (fi s)
                   = (0, tag', fi s)) ->
  exists s',
    _read_metadata fuel bitmap s = (Ok ∅, s') /\
    mem s' = mem s /\ fi s' = fi s /\
    trace s'
    = trace s ++ ((fun number => Call_FindFirstMetadata number bitmap 0)
                    <$> seqZ 0 10).
Proof.
  intros Hnone.
  apply (models_loop_no_tags fuel bitmap METADATA_MODELS.models (fi s)
           Hnone 0 ∅ s eq_refl).
Qed.

Lemma tags_loop_keys (names : list string) (fuel : nat) (name : string)
    (h : Z) :
  name ∈ names ->
  forall (tag : Z) (md : gmap (string * string) tagval) (s s' : state W) r,
    keyed_by names md ->
    tags_loop fuel name h tag md s = (Ok r, s') ->
    keyed_by names r.2.
Proof.
  intros Hname. induction fuel as [|fuel IH]; intros tag md s s' r Hmd.
  - done.
  - unfold tags_loop; fold (@tags_loop W api). run.
    destruct (decode_tag tag (fi s) (mem s)) as [kv| |]; cbn; try done.
    destruct (FreeImage_FindNextMetadata h tag (fi s)) as [[more tag'] d'].
    cbn.
    assert (Hmd' : keyed_by names (<[(name, kv.1):=kv.2]> md)).
    { intros model key v Hlook.
      destruct (decide ((name, kv.1) = (model, key))) as [Heq|Hne].
      - by injection Heq as <- _.
      - rewrite lookup_insert_ne in Hlook by done. by eapply Hmd. }
    destruct more.
    + by apply IH.
    + by intros [= <- _].
Qed.

Lemma models_loop_keys (names : list string) (fuel : nat) (bitmap : Z)
    (models : list (string * Z)) :
  models.*1 ⊆ names ->
  forall (tag : Z) (md : gmap (string * string) tagval) (s s' : state W) r,
    keyed_by names md ->
    models_loop fuel bitmap models tag md s = (Ok r, s') ->
    keyed_by names r.
Proof.
  induction models as [|[name number] rest IH]; intros Hsub tag md s s' r Hmd.
  - cbn. by intros [= <- _].
  - assert (Hname : name ∈ names) by (apply Hsub; cbn; left).
    assert (Hrest : rest.*1 ⊆ names).
    { intros x Hx. apply Hsub. cbn. by right. }
    unfold models_loop; fold (@models_loop W api). run.
    destruct (FreeImage_FindFirstMetadata number bitmap tag (fi s))
      as [[h tag1] d1]. cbn.
    case_bool_decide as Hh.
    + by apply IH.
    + match goal with |- context [tags_loop fuel name h tag1 md ?s1] =>
        pose proof (tags_loop_keys names fuel name h Hname tag1 md s1) as Ht;
        destruct (tags_loop fuel name h tag1 md s1) as [[r1| |] s2] end;
        cbn; try done.
      apply (IH Hrest). by eapply Ht.
Qed.

(** X19: the keys of the dictionary [_read_metadata] returns.  The
    first component of every key is one of the ten model names: the
    [FIMD_] attribute names of [METADATA_MODELS] without that prefix. *)
Theorem read_metadata_keys (fuel : nat) (bitmap : Z) (s s' : state W)
    (md : gmap (string * string) tagval) :
  _read_metadata fuel bitmap s = (Ok md, s') ->
  forall model key v,
    md !! (model, key) = Some v ->
    model ∈ ["COMMENTS"; "EXIF_MAIN"; "EXIF_EXIF"; "EXIF_GPS";
             "EXIF_MAKERNOTE"; "EXIF_INTEROP"; "IPTC"; "XMP"; "GEOTIFF";
             "ANIMATION"].
Proof.
  intros Hrun.
  apply (models_loop_keys _ fuel bitmap METADATA_MODELS.models
           (reflexivity _) 0 ∅ s s' md); [|exact Hrun].
  intros model key v Hlook. by rewrite lookup_empty in Hlook.
Qed.

End MetadataKeys.

(** ** Loading the library *)

Section LoaderProperties.

Variable library : Type.
Variable LoadLibrary : string -> library + list string.

Lemma try_libs_all_fail (libs : list string) :
  Forall (fails LoadLibrary) libs ->
  forall errors calls,
    try_libs LoadLibrary libs errors calls
    = (None,
       errors ++ omap (fun lib => match LoadLibrary lib with
                                  | inr args => Some (lib, args)
                                  | inl _ => None
                                  end) libs,
       calls ++ (Call_LoadLibrary <$> libs)).
Proof.
  induction 1 as [|lib rest [args Hlib] _ IH]; intros errors calls; cbn.
  - by rewrite !app_nil_r.
  - rewrite Hlib, IH, <- !app_assoc. reflexivity.
Qed.

Lemma try_libs_first (pre : list string) (lib : string) (post : list string)
    (freeimage : library) :
  Forall (fails LoadLibrary) pre -> LoadLibrary lib = inl freeimage ->
  forall errors calls,
    (try_libs LoadLibrary (pre ++ lib :: post) errors calls).1.1
      = Some freeimage /\
    (try_libs LoadLibrary (pre ++ lib :: post) errors calls).2
      = calls ++ (Call_LoadLibrary <$> pre) ++ [Call_LoadLibrary lib].
Proof.
  intros Hpre Hlib. induction Hpre as [|p pre [args Hp] _ IH];
    intros errors calls; cbn.
  - by rewrite Hlib.
  - rewrite Hp. destruct (IH (errors ++ [(p, args)])
                             (calls ++ [Call_LoadLibrary p])) as [H1 H2].
    rewrite H1, H2, <- !app_assoc. done.
Qed.

Lemma try_libs_Some_inv (libs : list string) :
  forall errors calls freeimage errors' calls',
    try_libs LoadLibrary libs errors calls = (Some freeimage, errors', calls') ->
    exists pre lib post,
      libs = pre ++ lib :: post /\ Forall (fails LoadLibrary) pre /\
      LoadLibrary lib = inl freeimage.
Proof.
  induction libs as [|lib rest IH]; intros errors calls f errors' calls';
    cbn; [done|].
  destruct (LoadLibrary lib) as [f0|args] eqn:Hlib.
  - intros [= <- _ _]. exists [], lib, rest. done.
  - intros Hrest. destruct (IH _ _ _ _ _ Hrest) as (pre & l & post & -> & Hpre & Hl).
    exists (lib :: pre), l, post. split; [done|]. split; [|done].
    constructor; [by exists args|done].
Qed.

(** X20: [load_freeimage] returns a library exactly when some candidate
    loads.  The library is that of the first candidate that loads; the
    candidates before it were tried in order and failed, and their
    errors are dropped; no candidate after it is tried; the error
    handler is installed as the last call. *)
Theorem load_freeimage_first_loadable (libs : list string)
    (freeimage : library) (calls : list loader_call) :
  load_freeimage LoadLibrary libs = (inr freeimage, calls) <->
  exists pre lib post,
    libs = pre ++ lib :: post /\ Forall (fails LoadLibrary) pre /\
    LoadLibrary lib = inl freeimage /\
    calls = (Call_LoadLibrary <$> pre)
              ++ [Call_LoadLibrary lib; Call_SetOutputMessage].
Proof.
  unfold load_freeimage. split.
  - destruct (try_libs LoadLibrary libs [] []) as [[[f|] errors] calls0]
      eqn:Htry.
    + intros [= <- <-].
      destruct (try_libs_Some_inv _ _ _ _ _ _ Htry)
        as (pre & lib & post & -> & Hpre & Hlib).
      exists pre, lib, post. repeat (split; [done|]).
      destruct (try_libs_first pre lib post f Hpre Hlib [] []) as [_ H2].
      rewrite Htry in H2. cbn in H2. rewrite H2, <- app_assoc. done.
    + destruct errors; [done|]. by destruct (err_txt _).
  - intros (pre & lib & post & -> & Hpre & Hlib & ->).
    destruct (try_libs_first pre lib post freeimage Hpre Hlib [] [])
      as [H1 H2].
    destruct (try_libs LoadLibrary (pre ++ lib :: post) [] [])
      as [[f errors] calls0]. cbn in H1, H2. subst f calls0.
    by rewrite <- app_assoc.
Qed.

(** X21: [load_freeimage] when no candidate loads.  Every candidate is
    tried once, in order.  With no candidate at all it raises NameError
    for the undefined [lib_dirs], not the RuntimeError that branch
    builds.  With one failing candidate the RuntimeError's message is
    the candidate, a colon, a newline and the error, without the header:
    the header is the separator of the join, so it only appears between
    two entries.  An exception without arguments raises IndexError
    instead. *)
Theorem load_freeimage_failures (libs : list string) :
  Forall (fails LoadLibrary) libs ->
  let r := load_freeimage LoadLibrary libs in
  r.2 = Call_LoadLibrary <$> libs /\
  (libs = [] -> r.1 = inl (ImportNameError "lib_dirs")) /\
  (forall lib, libs = [lib] ->
     (LoadLibrary lib = inr [] ->
        r.1 = inl (ImportIndexError "tuple index out of range")) /\
     (forall a args, LoadLibrary lib = inr (a :: args) ->
        r.1 = inl (ImportRuntimeError (lib +:+ ":" +:+ nl +:+ a)))) /\
  (forall lib lib' a args a' args', libs = [lib; lib'] ->
     LoadLibrary lib = inr (a :: args) ->
     LoadLibrary lib' = inr (a' :: args') ->
     r.1 = inl (ImportRuntimeError
                  ((lib +:+ ":" +:+ nl +:+ a) +:+ msg_load_errors
                   +:+ (lib' +:+ ":" +:+ nl +:+ a')))).
Proof.
  intros Hall r. subst r. unfold load_freeimage.
  rewrite (try_libs_all_fail libs Hall [] []).
  set (errors := omap _ libs). cbn [app].
  split; [|split; [|split]].
  - destruct errors; [done|]. by destruct (err_txt _).
  - intros ->. reflexivity.
  - intros lib ->. subst errors. cbn. split.
    + intros ->. reflexivity.
    + intros a args ->. reflexivity.
  - intros lib lib' a args a' args' -> Hl Hl'. subst errors. cbn.
    rewrite Hl, Hl'. reflexivity.
Qed.

End LoaderProperties.

(** * The theorems at concrete inputs *)

Lemma handle_released_exactly_once_witness :
  (exists r s' events,
      read (api := Ref.api true) "rgb.png" 0 Scenario.s0 = (r, s') /\
      r <> Diverge /\
      trace s' = trace Scenario.s0 ++ events /\
      events = [Call_Load 13 "rgb.png" 0 1; Call_Unload 1] /\
      count_occ call_eq_dec events (Call_Unload 1) = 1%nat) /\
  (exists r s' events saves,
      write (api := Ref.api true) Scenario.rgb_2x2 "out.png" 0 Scenario.s0
        = (r, s') /\
      r <> Diverge /\
      trace s' = trace Scenario.s0 ++ events /\
      events = Call_AllocateT 1 2 2 24 1 :: saves ++ [Call_Unload 1] /\
      count_occ call_eq_dec events (Call_Unload 1) = 1%nat).
Proof.
  destruct (handle_released_exactly_once (api := Ref.api true)) as [Hr Hw].
  split.
  - destruct (Hr "rgb.png" 0 Scenario.s0 1
                 (Ref.blit Scenario.rgb_image
                    (Ref.relocate (Ref.i_header Scenario.rgb_image) 1)
                    Scenario.memory0)
                 (Ref.with_live Scenario.world0
                    [(1, (Ref.relocate (Ref.i_header Scenario.rgb_image) 1, []))]
                    2))
      as (r & s' & events & H1 & H2 & H3 & H4 & H5 & _).
    + vm_compute. lia.
    + reflexivity.
    + lia.
    + exists r, s', events. repeat split; assumption.
  - destruct (Hw Scenario.rgb_2x2 "out.png" 0 Scenario.s0 3 1 1
                 (Ref.AllocateT 1 2 2 24 Scenario.memory0 Scenario.world0).1.2
                 (Ref.AllocateT 1 2 2 24 Scenario.memory0 Scenario.world0).2)
      as (r & s' & events & saves & H1 & H2 & H3 & H4 & _ & H5).
    + vm_compute. lia.
    + reflexivity.
    + reflexivity.
    + reflexivity.
    + lia.
    + exists r, s', events, saves. repeat split; assumption.
Defined.

Lemma unregistered_pair_is_unsupported_witness :
  _array_to_bitmap (api := Ref.api true) Scenario.i8_2x2 Scenario.s0
    = (Raise (ValueError msg_dtype), Scenario.s0) /\
  write (api := Ref.api true) Scenario.i8_2x2 "out.png" 0 Scenario.s0
    = (Raise (ValueError msg_dtype), Scenario.s0).
Proof.
  destruct (unregistered_pair_is_unsupported (api := Ref.api true)
              Scenario.i8_2x2 1 Scenario.s0) as (H1 & H2 & _).
  - reflexivity.
  - refine (bool_decide_unpack _ _). vm_compute. exact I.
  - split; [exact H1|]. apply H2. vm_compute. lia.
Defined.

Lemma single_channel_axis_index_error_witness :
  write (api := Ref.api true) Scenario.grey_2x2x1 "out.png" 0 Scenario.s0
  = (Raise (IndexError msg_index),
     mk_state
       (Ref.AllocateT 1 2 2 8 Scenario.memory0 Scenario.world0).1.2
       (Ref.Unload 1 (Ref.AllocateT 1 2 2 8 Scenario.memory0 Scenario.world0).2)
       [Call_AllocateT 1 2 2 8 1; Call_Unload 1]).
Proof.
  destruct (single_channel_axis_index_error (api := Ref.api true) 2 2
              [[1]; [2]; [3]; [4]] "out.png" 0 Scenario.s0 1
              (Ref.AllocateT 1 2 2 8 Scenario.memory0 Scenario.world0).1.2
              (Ref.AllocateT 1 2 2 8 Scenario.memory0 Scenario.world0).2)
    as (_ & H & _).
  - reflexivity.
  - vm_compute. lia.
  - reflexivity.
  - lia.
  - exact H.
Defined.

Lemma multipage_read_is_atomic_witness :
  exists r s' events body,
    read_multipage (api := Ref.api true) "stack.tif" 0 Scenario.s0 = (r, s') /\
    r <> Diverge /\
    trace s' = trace Scenario.s0 ++ events /\
    events = Call_OpenMultiBitmap 18 "stack.tif" 1 :: body
               ++ [Call_CloseMultiBitmap 1 0] /\
    outstanding events = [].
Proof.
  destruct (multipage_read_is_atomic (api := Ref.api true)
              (_array_from_bitmap (api := Ref.api true))
              "stack.tif" 0 Scenario.s0 1
              (Ref.OpenMultiBitmap 18 "stack.tif" false true true 0
                 Scenario.world0).2)
    as (r & s' & events & body & H1 & H2 & H3 & H4 & H5 & _).
  - apply array_from_bitmap_balanced.
  - vm_compute. lia.
  - reflexivity.
  - lia.
  - exists r, s', events, body. repeat split; assumption.
Defined.

(** The same read, evaluated: the second page is a 16-bit bitmap the
    bridge cannot convert; both locked pages are unlocked, the session is
    closed, the third page is never locked, and the result is the error
    alone. *)
Example read_multipage_failing_page :
  let r := read_multipage (api := Ref.api true) "stack.tif" 0 Scenario.s0 in
  r.1 = Raise (ValueError msg_bpp) /\
  trace r.2 = [ Call_OpenMultiBitmap 18 "stack.tif" 1;
                Call_LockPage 1 0 2; Call_UnlockPage 1 2 false;
                Call_LockPage 1 1 3; Call_UnlockPage 1 3 false;
                Call_CloseMultiBitmap 1 0 ] /\
  outstanding (trace r.2) = [].
Proof. vm_compute. repeat split. Qed.

Lemma digits_4 (v b0 b1 b2 b3 : Z) :
  v mod 256 = b0 -> (v / 256) mod 256 = b1 ->
  (v / 65536) mod 256 = b2 -> (v / 16777216) mod 256 = b3 ->
  digits v [b0; b1; b2; b3].
Proof.
  intros H0 H1 H2 H3 i b Hi.
  destruct i as [|[|[|[|i]]]]; cbn in Hi; simplify_eq; try done.
  by rewrite Z.div_1_r.
Qed.

Lemma digits_2 (v b0 b1 : Z) :
  v mod 256 = b0 -> (v / 256) mod 256 = b1 -> digits v [b0; b1].
Proof.
  intros H0 H1 i b Hi.
  destruct i as [|[|i]]; cbn in Hi; simplify_eq; try done.
  by rewrite Z.div_1_r.
Qed.

Lemma tag_decoding_witness :
  decode_tag (api := Ref.api true) 101 Scenario.world0 Scenario.memory0
    = Ok ("Artist", Text "Zach") /\
  decode_tag (api := Ref.api true) 103 Scenario.world0 Scenario.memory0
    = Ok ("Orientation", Scalar (SInt 1)) /\
  decode_tag (api := Ref.api true) 104 Scenario.world0 Scenario.memory0
    = Ok ("BitsPerSample", Sequence [SInt 8; SInt 8; SInt 8]) /\
  decode_tag (api := Ref.api true) 102 Scenario.world0 Scenario.memory0
    = Ok ("XResolution",
          Scalar (SRecord [("numerator", 72); ("denominator", 1)])) /\
  decode_tag (api := Ref.api true) 106 Scenario.world_signed
      Scenario.memory_signed
    = Ok ("Bias", Scalar (SRecord [("numerator", -1); ("denominator", 3)])).
Proof.
  split; [|split; [|split; [|split]]].
  - destruct (tag_decoding (api := Ref.api true) 101 Scenario.world0
                Scenario.memory0) as (Hascii & _ & _ & _);
      [vm_compute; discriminate | vm_compute; discriminate 
      | refine (bool_decide_unpack _ _); vm_compute; exact I |].
    destruct Hascii as (_ & Htext); [reflexivity|].
    apply (Htext [90; 97; 99; 104]); [|reflexivity].
    refine (bool_decide_unpack _ _). vm_compute. exact I.
  - destruct (tag_decoding (api := Ref.api true) 103 Scenario.world0
                Scenario.memory0) as (_ & Hother & _ & _);
      [vm_compute; discriminate | vm_compute; discriminate 
      | refine (bool_decide_unpack _ _); vm_compute; exact I |].
    destruct (Hother (Plain uint16)) as (Hone & _);
      [vm_compute; lia | reflexivity |].
    destruct Hone as (x & Hdec & Hx); [reflexivity|]. rewrite Hdec.
    do 3 f_equal.
    refine (element_denotes_int true uint16 _ _ _ _ _ _ _ Hx _); try done.
    split; [cbn; lia|]. by apply digits_2.
  - destruct (tag_decoding (api := Ref.api true) 104 Scenario.world0
                Scenario.memory0) as (_ & Hother & _ & _);
      [vm_compute; discriminate | vm_compute; discriminate 
      | refine (bool_decide_unpack _ _); vm_compute; exact I |].
    destruct (Hother (Plain uint16)) as (_ & Hmany);
      [vm_compute; lia | reflexivity |].
    destruct (Hmany 3%nat) as (xs & Hdec & Hlen & Hxs); [lia | reflexivity |].
    rewrite Hdec. do 3 f_equal.
    assert (Height : denotes true uint16 [8; 0] 8)
      by (split; [cbn; lia|]; by apply digits_2).
    destruct xs as [|x0 [|x1 [|x2 [|? ?]]]]; try discriminate.
    f_equal; [|f_equal; [|f_equal]].
    + refine (element_denotes_int true uint16 _ _ _ _ _ _ _
                (Hxs 0%nat x0 eq_refl) Height); done.
    + refine (element_denotes_int true uint16 _ _ _ _ _ _ _
                (Hxs 1%nat x1 eq_refl) Height); done.
    + refine (element_denotes_int true uint16 _ _ _ _ _ _ _
                (Hxs 2%nat x2 eq_refl) Height); done.
  - destruct (tag_decoding (api := Ref.api true) 102 Scenario.world0
                Scenario.memory0) as (_ & _ & Hrat & _);
      [vm_compute; discriminate | vm_compute; discriminate 
      | refine (bool_decide_unpack _ _); vm_compute; exact I |].
    destruct (Hrat uint32) as (num & den & Hdec & Hnum & Hden);
      [by left | reflexivity |].
    rewrite Hdec. do 5 f_equal.
    + f_equal. refine (denotes_unique true uint32 _ _ _ _ Hnum _);
        [reflexivity|].
      split; [cbn; lia|]. by apply digits_4.
    + do 2 f_equal.
      refine (denotes_unique true uint32 _ _ _ _ Hden _); [reflexivity|].
      split; [cbn; lia|]. by apply digits_4.
  - destruct (tag_decoding (api := Ref.api true) 106 Scenario.world_signed
                Scenario.memory_signed) as (_ & _ & Hrat & _);
      [vm_compute; discriminate | vm_compute; discriminate 
      | refine (bool_decide_unpack _ _); vm_compute; exact I |].
    destruct (Hrat int32) as (num & den & Hdec & Hnum & Hden);
      [by right | reflexivity |].
    rewrite Hdec. do 5 f_equal.
    + f_equal. refine (denotes_unique true int32 _ _ _ _ Hnum _);
        [reflexivity|].
      split; [cbn; lia|]. by apply digits_4.
    + do 2 f_equal.
      refine (denotes_unique true int32 _ _ _ _ Hden _); [reflexivity|].
      split; [cbn; lia|]. by apply digits_4.
Defined.

(** C8 (the code does not do this): reading the metadata of a file whose
    first EXIF_MAIN tag has type code 0, which no entry of
    [METADATA_DATATYPE.dtypes] covers.  The lookup raises [KeyError]
    inside the tag loop; the bitmap is unloaded on the way out, but
    [FreeImage_FindCloseMetadata] is never called for the cursor that
    [FreeImage_FindFirstMetadata] returned: it stays outstanding. *)
Theorem metadata_cursor_left_open_on_error :
  let r := read_metadata (api := Ref.api true) 10 "mystery.tif" Scenario.s0 in
  r.1 = Raise (KeyError 0) /\
  trace r.2 = [ Call_Load 18 "mystery.tif" 0x8000 1;
                Call_FindFirstMetadata 0 1 0;
                Call_FindFirstMetadata 1 1 2;
                Call_Unload 1 ] /\
  outstanding (trace r.2) = [RCursor 2] /\
  Call_FindCloseMetadata 2 ∉ trace r.2.
Proof.
  vm_compute. repeat split.
  intros H. repeat (apply elem_of_cons in H as [H|H]; [discriminate|]).
  by apply elem_of_nil in H.
Qed.

(** C6 as stated fails on a big-endian runtime: a 3-D [uint8] array of
    shape (2, 2, 1) is written as an 8-bit single-channel bitmap, the
    bitmap has a palette buffer, and the write path leaves that buffer as
    the allocation made it: entry 1 is not the quad (0, 1, 1, 1) in
    either byte order. *)
Lemma palette_skipped_for_unit_channel_axis :
  let r := _array_to_bitmap (api := Ref.api false) Scenario.grey_2x2x1
             Scenario.s0 in
  let pal := FreeImage_GetPalette (FreeImageAPI := Ref.api false) 1 (fi r.2) in
  r.1 = Ok (1, FI_TYPES.FIT_BITMAP) /\
  FreeImage_GetBPP (FreeImageAPI := Ref.api false) 1 (fi r.2) = 8 /\
  pal <> 0 /\
  load_elem (mem r.2) (pal + 4 * 1) 4 = [0; 0; 0; 0] /\
  load_elem (mem r.2) (pal + 4 * 1) 4 <> [0; 1; 1; 1] /\
  load_elem (mem r.2) (pal + 4 * 1) 4 <> [1; 1; 1; 0] /\
  (write (api := Ref.api false) Scenario.grey_2x2x1 "out.png" 0 Scenario.s0).1
    = Ok tt.
Proof. vm_compute. repeat split; congruence. Qed.

Lemma pair_eta {A B : Type} (p : A * B) (a : A) : p.1 = a -> p = (a, p.2).
Proof. intros <-. by destruct p. Qed.

Lemma write_then_read_roundtrip_witness :
  exists s2,
    read (api := Ref.api true) "out.png" 0
      (write (api := Ref.api true) Scenario.rgb_2x2 "out.png" 0 Scenario.s0).2
    = (Ok Scenario.rgb_2x2, s2).
Proof.
  apply (write_then_read_roundtrip (api := Ref.api true) Scenario.rgb_2x2
           "out.png" 0 Scenario.s0).
  - apply ref_allocation_law.
  - apply ref_lossless. vm_compute. lia.
  - repeat split; [repeat constructor; lia | repeat constructor].
  - right. exists 2, 2, 3. split; [reflexivity|lia].
  - apply pair_eta. vm_compute. reflexivity.
Defined.

(** C1 as stated fails for a registered pair written from a 3-D array
    with a one-element channel axis: (uint16, 1) is registered, the
    (2, 2, 1) array is written without loss, and [read] returns the same
    elements with shape (2, 2), which is not the array that was
    written. *)
Lemma roundtrip_drops_unit_channel_axis :
  let written := write (api := Ref.api true) Scenario.u16_2x2x1 "out.tif" 0
                   Scenario.s0 in
  let r := read (api := Ref.api true) "out.tif" 0 written.2 in
  FI_TYPES.fi_types !! (uint16, 1) = Some FI_TYPES.FIT_UINT16 /\
  written.1 = Ok tt /\
  r.1 = Ok (mk_ndarray uint16 [2; 2] [[1; 0]; [2; 0]; [3; 0]; [4; 0]]) /\
  r.1 <> Ok Scenario.u16_2x2x1.
Proof. vm_compute. repeat split. congruence. Qed.

Lemma read_channel_order_witness :
  exists a s',
    _array_from_bitmap (api := Ref.api true) 1 Scenario.s_rgb = (Ok a, s') /\
    a_shape a = [2; 2; 3] /\
    item a [0; 0; 0] = [1] /\ item a [0; 0; 1] = [2] /\ item a [0; 0; 2] = [3] /\
    item a [1; 1; 0] = [10] /\ item a [1; 1; 2] = [12].
Proof.
  exists Scenario.rgb_2x2,
         (_array_from_bitmap (api := Ref.api true) 1 Scenario.s_rgb).2.
  assert (Hrun : _array_from_bitmap (api := Ref.api true) 1 Scenario.s_rgb
                 = (Ok Scenario.rgb_2x2,
                    (_array_from_bitmap (api := Ref.api true) 1
                       Scenario.s_rgb).2)).
  { apply pair_eta. vm_compute. reflexivity. }
  split; [exact Hrun|].
  destruct (read_channel_order (api := Ref.api true) 1 Scenario.s_rgb)
    as [Hswap _].
  edestruct (Hswap 3) as (_ & Hshape & Hitem).
  - reflexivity.
  - reflexivity.
  - left. reflexivity.
  - vm_compute. discriminate.
  - exact Hrun.
  - split; [exact Hshape|].
    repeat split; (rewrite Hitem; [reflexivity | vm_compute; split; congruence ..]).
Defined.

Lemma wrap_view_layout_witness :
  exists v,
    _wrap_bitmap_bits_in_array (api := Ref.api true) 1 [2; 2; 3] uint8
      (fi Scenario.s_rgb) = Ok v /\
    v_offset v = 8 /\ v_strides v = [3; -8; 1] /\
    view_addr v [0; 0; 0] = 4294968328 /\
    view_addr v [0; 1; 0] = 4294968320 /\
    view_addr v [1; 0; 2] = 4294968333.
Proof.
  eexists. split; [reflexivity|].
  destruct (wrap_view_layout (api := Ref.api true) 1 uint8
              (fi Scenario.s_rgb) 2 2 3) as [H3 _].
  destruct (H3 _ eq_refl)
    as (_ & Hoff & Hstr & _ & _ & _ & Haddr & Hfirst & Hlast).
  split; [rewrite Hoff; vm_compute; reflexivity|].
  split; [rewrite Hstr; vm_compute; reflexivity|].
  split; [rewrite Hfirst; vm_compute; reflexivity|].
  split; [rewrite (Haddr 0 1 0); vm_compute; reflexivity|].
  rewrite (Haddr 1 0 2). vm_compute. reflexivity.
Defined.

(** The same read, evaluated: the logical red-green-blue order over the
    store's blue-green-red rows. *)
Example read_rgb_file :
  (read (api := Ref.api true) "rgb.png" 0 Scenario.s0).1 = Ok Scenario.rgb_2x2.
Proof. vm_compute. reflexivity. Qed.

Lemma grey_palette_installed_witness :
  let r := _array_to_bitmap (api := Ref.api true) Scenario.grey_2x2
             Scenario.s0 in
  let pal := FreeImage_GetPalette (FreeImageAPI := Ref.api true) 1 (fi r.2) in
  pal <> 0 /\
  load_elem (mem r.2) (pal + 4 * 200) 4 = [200; 200; 200; 0] /\
  fill_bitmap (api := Ref.api true) Scenario.rgb_2x2 1 1 Scenario.s_rgb
  = (d <~ get_fi;;
     wrapped_array <~
       lift (_wrap_bitmap_bits_in_array (api := Ref.api true) 1
               (a_shape Scenario.rgb_2x2) (a_dtype Scenario.rgb_2x2) d);;
     copy_into_bitmap (api := Ref.api true) wrapped_array Scenario.rgb_2x2;;;
     ret (1, 1)) Scenario.s_rgb.
Proof.
  destruct (grey_palette_installed (api := Ref.api true))
    as (Hinst & Honly & _).
  destruct (Hinst Scenario.grey_2x2 2 2 1 1 Scenario.s0
              (_array_to_bitmap (api := Ref.api true) Scenario.grey_2x2
                 Scenario.s0).2) as (Hpal & Hentries).
  - reflexivity.
  - reflexivity.
  - apply pair_eta. vm_compute. reflexivity.
  - destruct (Hentries 200) as (_ & _ & Hload); [lia|].
    split; [exact Hpal|]. split; [exact Hload|].
    apply Honly. vm_compute. intros [H _]. discriminate.
Defined.

Lemma wrapped_view_in_bounds_witness :
  exists v,
    _wrap_bitmap_bits_in_array (api := Ref.api true) 1 [2; 2; 3] uint8
      (fi Scenario.s_rgb) = Ok v /\
    apart v [0; 0; 0] [1; 1; 2].
Proof.
  eexists. split; [reflexivity|].
  destruct (wrapped_view_in_bounds (api := Ref.api true) 1 [2; 2; 3] uint8
              (fi Scenario.s_rgb) 3 _ eq_refl)
    as (_ & _ & Hapart).
  - reflexivity.
  - vm_compute. discriminate.
  - apply Hapart; [| |discriminate];
      apply in_range_3; vm_compute; repeat split; congruence.
Defined.

Lemma read_fails_only_on_pixel_type_witness :
  exists a s',
    _array_from_bitmap (api := Ref.api true) 1 Scenario.s_rgb = (Ok a, s') /\
    a_dtype a = uint8 /\ a_shape a = [2; 2; 3].
Proof.
  destruct (read_fails_only_on_pixel_type (api := Ref.api true) 1
              Scenario.s_rgb) as (_ & Hreturns & _).
  apply (Hreturns uint8 [2; 2; 3] 3).
  - reflexivity.
  - reflexivity.
  - vm_compute. discriminate.
  - reflexivity.
  - reflexivity.
  - vm_compute. discriminate.
Defined.

Lemma read_result_is_writable_witness :
  exists a s',
    _array_from_bitmap (api := Ref.api true) 1 Scenario.s_rgb = (Ok a, s') /\
    well_formed a /\ canonical (a_shape a).
Proof.
  exists Scenario.rgb_2x2,
         (_array_from_bitmap (api := Ref.api true) 1 Scenario.s_rgb).2.
  assert (Hrun : _array_from_bitmap (api := Ref.api true) 1 Scenario.s_rgb
                 = (Ok Scenario.rgb_2x2,
                    (_array_from_bitmap (api := Ref.api true) 1
                       Scenario.s_rgb).2)).
  { apply pair_eta. vm_compute. reflexivity. }
  split; [exact Hrun|].
  destruct (read_result_is_writable (api := Ref.api true) 1 Scenario.s_rgb
              (_array_from_bitmap (api := Ref.api true) 1 Scenario.s_rgb).2
              Scenario.rgb_2x2)
    as (Hwf & Hcan & _).
  - vm_compute. discriminate.
  - vm_compute. discriminate.
  - exact Hrun.
  - split; assumption.
Defined.

Lemma array_to_bitmap_rgb :
  _array_to_bitmap (api := Ref.api true) Scenario.rgb_2x2 Scenario.s0
  = (Ok (1, 1),
     (_array_to_bitmap (api := Ref.api true) Scenario.rgb_2x2 Scenario.s0).2).
Proof. apply pair_eta. vm_compute. reflexivity. Qed.

Lemma rgb_2x2_well_formed : well_formed Scenario.rgb_2x2.
Proof. repeat split; [repeat constructor; lia | repeat constructor]. Qed.

Lemma write_layout_witness :
  let sA := (_array_to_bitmap (api := Ref.api true) Scenario.rgb_2x2
               Scenario.s0).2 in
  let base := FreeImage_GetBits (FreeImageAPI := Ref.api true) 1 (fi sA) in
  let P := FreeImage_GetPitch (FreeImageAPI := Ref.api true) 1 (fi sA) in
  load_elem (mem sA) (base + (2 - 1 - 0) * P + (0 * 3 + 0) * 1) 1
  = item Scenario.rgb_2x2 [0; 0; 2].
Proof.
  destruct (write_layout (api := Ref.api true) Scenario.rgb_2x2 Scenario.s0
              (_array_to_bitmap (api := Ref.api true) Scenario.rgb_2x2
                 Scenario.s0).2 1 1)
    as [_ H3].
  - apply ref_allocation_law.
  - apply rgb_2x2_well_formed.
  - right. exists 2, 2, 3. split; [reflexivity|lia].
  - apply array_to_bitmap_rgb.
  - apply (H3 3 eq_refl 0 0 0); vm_compute; split; congruence.
Defined.

Lemma write_stays_inside_bitmap_witness :
  let sA := (_array_to_bitmap (api := Ref.api true) Scenario.rgb_2x2
               Scenario.s0).2 in
  exists n m0 d0,
    Ref.AllocateT 1 2 2 (8 * 1 * n) Scenario.memory0 Scenario.world0
      = (1, m0, d0) /\
    mem sA 7100 = m0 7100.
Proof.
  destruct (write_stays_inside_bitmap (api := Ref.api true) Scenario.rgb_2x2
              Scenario.s0
              (_array_to_bitmap (api := Ref.api true) Scenario.rgb_2x2
                 Scenario.s0).2 1 1)
    as (n & m0 & d0 & Halloc & Hframe).
  - apply ref_allocation_law.
  - apply rgb_2x2_well_formed.
  - apply array_to_bitmap_rgb.
  - exists n, m0, d0. split; [exact Halloc|].
    apply Hframe.
    + vm_compute. intros [H _]. by apply H.
    + intros Hlen. discriminate Hlen.
Defined.

Lemma write_multipage_keeps_page_bitmaps_witness :
  let r := write_multipage (api := Ref.api true)
             [Scenario.grey_2x2; Scenario.rgb_2x2] "out.tif" 0 Scenario.s0 in
  exists handles events,
    trace r.2
    = trace Scenario.s0 ++ Call_OpenMultiBitmap 18 "out.tif" 1 :: events
        ++ [Call_CloseMultiBitmap 1 0] /\
    appended 1 events = handles /\
    length handles = 2%nat /\
    outstanding (Call_OpenMultiBitmap 18 "out.tif" 1 :: events
                   ++ [Call_CloseMultiBitmap 1 0])
    = RBitmap <$> reverse handles.
Proof.
  intros r.
  destruct (write_multipage_keeps_page_bitmaps (api := Ref.api true)
              [Scenario.grey_2x2; Scenario.rgb_2x2] "out.tif" 0 Scenario.s0 1
              (Ref.OpenMultiBitmap 18 "out.tif" true false true 0
                 Scenario.world0).2)
    as (_ & handles & events & Htr & _ & Happ & Hheld & Hres).
  - vm_compute. discriminate.
  - reflexivity.
  - discriminate.
  - fold r in Htr, Hres.
    assert (Hr : r.1 = Ok tt) by (vm_compute; reflexivity).
    rewrite Hr in Hres. destruct Hres as [Hlen _].
    exists handles, events. split; [exact Htr|]. split; [exact Happ|].
    split; [exact Hlen|].
    unfold outstanding. rewrite Hheld. apply app_nil_r.
Defined.

Lemma decode_tag_failures_witness :
  decode_tag (api := Ref.api true) 100 Scenario.world0 Scenario.memory0
    = Raise (KeyError 0) /\
  decode_tag (api := Ref.api true) 107 Scenario.world_signed
      Scenario.memory_signed
    = Raise (TypeError msg_from_address) /\
  decode_tag (api := Ref.api true) 108 Scenario.world_signed
      Scenario.memory_signed
    = Raise (ValueError msg_array_length).
Proof.
  split; [|split].
  - destruct (decode_tag_failures (api := Ref.api true) 100 Scenario.world0
                Scenario.memory0) as (_ & _ & Hrest).
    destruct Hrest as (Hkey & _);
      [vm_compute; discriminate | vm_compute; discriminate
      | vm_compute; discriminate |].
    apply Hkey. vm_compute. intros [[H _]|[H _]]; by apply H.
  - destruct (decode_tag_failures (api := Ref.api true) 107
                Scenario.world_signed Scenario.memory_signed)
      as (_ & Hnull & _).
    apply Hnull; [vm_compute; discriminate | reflexivity].
  - destruct (decode_tag_failures (api := Ref.api true) 108
                Scenario.world_signed Scenario.memory_signed)
      as (Hneg & _).
    apply Hneg. reflexivity.
Defined.

Lemma read_metadata_cursor_balance_witness :
  let r := read_metadata (api := Ref.api true) 10 "mystery.tif"
             Scenario.s0 in
  exists events h,
    trace r.2
    = trace Scenario.s0
        ++ Call_Load 18 "mystery.tif" FIF_LOAD_NOPIXELS 1 :: events
        ++ [Call_Unload 1] /\
    h <> 0 /\ outstanding events = [RCursor h].
Proof.
  intros r.
  destruct (read_metadata_cursor_balance (api := Ref.api true) 10
              "mystery.tif" Scenario.s0 1
              (Ref.Load 18 "mystery.tif" FIF_LOAD_NOPIXELS Scenario.memory0
                 Scenario.world0).1.2
              (Ref.Load 18 "mystery.tif" FIF_LOAD_NOPIXELS Scenario.memory0
                 Scenario.world0).2)
    as (_ & events & Htr & Hres).
  - vm_compute. discriminate.
  - reflexivity.
  - discriminate.
  - vm_compute. discriminate.
  - fold r in Htr, Hres.
    assert (Hr : r.1 = Raise (KeyError 0)) by (vm_compute; reflexivity).
    rewrite Hr in Hres. destruct Hres as (h & Hh & Hheld).
    exists events, h. split; [exact Htr|]. split; [exact Hh|].
    apply Hheld.
Defined.

Lemma read_metadata_without_tags_witness :
  exists s',
    _read_metadata (api := Ref.api true) 0 1 Scenario.s_rgb = (Ok ∅, s') /\
    fi s' = fi Scenario.s_rgb.
Proof.
  destruct (read_metadata_without_tags (api := Ref.api true) 0 1
              Scenario.s_rgb) as (s' & Hrun & _ & Hfi & _).
  - intros model tag. exists tag. reflexivity.
  - exists s'. split; assumption.
Defined.

Lemma read_metadata_keys_witness :
  let r := _read_metadata (api := Ref.api true) 10 1 Scenario.s_tagged in
  exists md,
    r.1 = Ok md /\
    md !! ("EXIF_MAIN", "Orientation") = Some (Scalar (SInt 1)) /\
    "EXIF_MAIN" ∈ ["COMMENTS"; "EXIF_MAIN"; "EXIF_EXIF"; "EXIF_GPS";
                   "EXIF_MAKERNOTE"; "EXIF_INTEROP"; "IPTC"; "XMP";
                   "GEOTIFF"; "ANIMATION"].
Proof.
  intros r.
  assert (Hok : match r.1 with Ok _ => true | _ => false end = true)
    by (vm_compute; reflexivity).
  assert (H : (md0 ← match r.1 with Ok m => Some m | _ => None end;
               md0 !! ("EXIF_MAIN", "Orientation"))
              = Some (Scalar (SInt 1))) by (vm_compute; reflexivity).
  destruct r.1 as [md| |] eqn:Hr1; [|discriminate Hok ..].
  cbn in H.
  exists md. split; [reflexivity|]. split; [exact H|].
  apply (read_metadata_keys (api := Ref.api true) 10 1 Scenario.s_tagged r.2 md
           (pair_eta r (Ok md) Hr1) "EXIF_MAIN" "Orientation"
           (Scalar (SInt 1)) H).
Defined.

Lemma load_freeimage_failures_witness :
  load_freeimage Scenario.no_library ["_freeimage.so"]
  = (inl (ImportRuntimeError
            ("_freeimage.so" +:+ ":" +:+ nl
             +:+ "cannot open shared object file")),
     [Call_LoadLibrary "_freeimage.so"]) /\
  (load_freeimage Scenario.no_library []).1 = inl (ImportNameError "lib_dirs").
Proof.
  split.
  - destruct (load_freeimage_failures unit Scenario.no_library ["_freeimage.so"])
      as (Hcalls & _ & Hone & _).
    + repeat constructor. by eexists.
    + destruct (Hone "_freeimage.so" eq_refl) as [_ Hmsg].
      rewrite (surjective_pairing (load_freeimage Scenario.no_library _)).
      rewrite (Hmsg _ _ eq_refl), Hcalls. reflexivity.
  - destruct (load_freeimage_failures unit Scenario.no_library []) as (_ & Hnone & _).
    + constructor.
    + by apply Hnone.
Defined.

Lemma read_exchange_is_in_place_witness :
  exists a1 s1 a2 s2,
    _array_from_bitmap (api := Ref.api true) 1 Scenario.s_rgb = (Ok a1, s1) /\
    _array_from_bitmap (api := Ref.api true) 1 s1 = (Ok a2, s2) /\
    item a1 [0; 0; 0] = [1] /\ item a2 [0; 0; 0] = [3].
Proof.
  assert (Hts : get_type_and_shape (api := Ref.api true) 1
                  (fi Scenario.s_rgb) = Ok (uint8, [2; 2; 3]))
    by reflexivity.
  pose proof (array_from_bitmap_3d (api := Ref.api true) 1 Scenario.s_rgb
                uint8 2 2 3 Hts ltac:(lia)) as Hrun1.
  cbn zeta in Hrun1.
  change (FreeImage_IsLittleEndian && bool_decide (uint8 = uint8))
    with true in Hrun1.
  cbv iota in Hrun1.
  match type of Hrun1 with
  | _ = (Ok ?a, ?s) => set (a1 := a) in *; set (s1 := s) in *
  end.
  pose proof (array_from_bitmap_3d (api := Ref.api true) 1 s1
                uint8 2 2 3 Hts ltac:(lia)) as Hrun2.
  cbn zeta in Hrun2.
  change (FreeImage_IsLittleEndian && bool_decide (uint8 = uint8))
    with true in Hrun2.
  cbv iota in Hrun2.
  destruct (read_exchange_is_in_place (api := Ref.api true) 1 Scenario.s_rgb
              s1 3 a1) as (_ & Hfirst & Hsecond).
  - reflexivity.
  - reflexivity.
  - reflexivity.
  - by left.
  - vm_compute. discriminate.
  - exact Hrun1.
  - eexists a1, s1, _, _. split; [exact Hrun1|]. split; [exact Hrun2|].
    destruct (Hfirst 0 0 0) as (_ & H1); [vm_compute; split; congruence ..|].
    destruct (Hsecond _ _ Hrun2 0 0 0) as (H2 & _);
      [vm_compute; split; congruence ..|].
    split; [rewrite H1|rewrite H2]; reflexivity.
Defined.

Lemma load_freeimage_first_loadable_witness :
  load_freeimage Scenario.second_loads ["a.so"; "b.so"; "c.so"]
  = (inr 7, [Call_LoadLibrary "a.so"; Call_LoadLibrary "b.so";
             Call_SetOutputMessage]).
Proof.
  apply (load_freeimage_first_loadable Z Scenario.second_loads).
  exists ["a.so"], "b.so", ["c.so"].
  split; [reflexivity|]. split; [|split; reflexivity].
  repeat constructor. by eexists.
Defined.

Lemma read_accepts_what_write_registers_witness :
  FI_TYPES.fi_types !! (uint8, 3) = Some FI_TYPES.FIT_BITMAP /\
  get_type_and_shape (api := Ref.api true) 1 (fi Scenario.s_rgb)
  = Ok (uint8, [2; 2; 3]).
Proof.
  split; [reflexivity|].
  apply (read_accepts_what_write_registers (api := Ref.api true) 1
           (fi Scenario.s_rgb) uint8 [2; 2; 3]).
  exists 3. split; [reflexivity|]. split; reflexivity.
Defined.

Lemma read_multipage_page_order_witness :
  let r := read_multipage (api := Ref.api true) "stack.tif" 0 Scenario.s0 in
  exists handles i b,
    [0; 1; 2] !! length handles = Some i /\
    trace r.2
    = trace Scenario.s0 ++ Call_OpenMultiBitmap 18 "stack.tif" 1
        :: page_calls 1 (take (length handles) [0; 1; 2]) handles
        ++ Call_LockPage 1 i b
           :: (if bool_decide (b = 0) then []
               else [Call_UnlockPage 1 b false])
        ++ [Call_CloseMultiBitmap 1 0].
Proof.
  intros r.
  destruct (read_multipage_page_order (api := Ref.api true) "stack.tif" 0
              Scenario.s0 1
              (Ref.OpenMultiBitmap 18 "stack.tif" false true true 0
                 Scenario.world0).2)
    as (handles & Hnz & Hres).
  - vm_compute. discriminate.
  - reflexivity.
  - discriminate.
  - fold r in Hres.
    assert (Hr : r.1 = Raise (ValueError msg_bpp)) by (vm_compute; reflexivity).
    rewrite Hr in Hres. destruct Hres as (i & b & Hi & Htr).
    exists handles, i, b. split; [exact Hi|exact Htr].
Defined.

Lemma read_multipage_metadata_cursor_balance_witness :
  let r := read_multipage_metadata (api := Ref.api true) 10 "mystery.tif"
             Scenario.s0 in
  exists events h,
    trace r.2
    = trace Scenario.s0 ++ Call_OpenMultiBitmap 18 "mystery.tif" 1 :: events
        ++ [Call_CloseMultiBitmap 1 0] /\
    h <> 0 /\ outstanding events = [RCursor h].
Proof.
  intros r.
  destruct (read_multipage_metadata_cursor_balance (api := Ref.api true) 10
              "mystery.tif" Scenario.s0 1
              (Ref.OpenMultiBitmap 18 "mystery.tif" false true true
                 FIF_LOAD_NOPIXELS Scenario.world0).2)
    as (events & Htr & Hres).
  - vm_compute. discriminate.
  - reflexivity.
  - discriminate.
  - vm_compute. discriminate.
  - fold r in Htr, Hres.
    assert (Hr : r.1 = Raise (KeyError 0)) by (vm_compute; reflexivity).
    rewrite Hr in Hres.
    destruct Hres as [[Hne _] | (h & Hh & Hleak)]; [discriminate Hne|].
    exists events, h. split; [exact Htr|]. split; [exact Hh|]. apply Hleak.
Defined.

Lemma read_layout_witness :
  exists a s',
    _array_from_bitmap (api := Ref.api false) 1 Scenario.s_rgb = (Ok a, s') /\
    s' = Scenario.s_rgb /\ item a [0; 0; 0] = [3].
Proof.
  assert (Hts : get_type_and_shape (api := Ref.api false) 1
                  (fi Scenario.s_rgb) = Ok (uint8, [2; 2; 3]))
    by reflexivity.
  pose proof (array_from_bitmap_3d (api := Ref.api false) 1 Scenario.s_rgb
                uint8 2 2 3 Hts ltac:(lia)) as Hrun.
  cbn zeta in Hrun.
  change (FreeImage_IsLittleEndian && bool_decide (uint8 = uint8))
    with false in Hrun.
  eexists _, _. split; [exact Hrun|].
  destruct (read_layout (api := Ref.api false) 1 Scenario.s_rgb _ _ Hrun)
    as [_ H3].
  destruct (H3 3 eq_refl eq_refl) as [Hs Hitem].
  split; [exact Hs|].
  rewrite Hitem; [vm_compute; reflexivity | vm_compute; split; congruence ..].
Defined.

Lemma write_succeeds_witness :
  exists s1,
    write (api := Ref.api true) Scenario.rgb_2x2 "out.png" 0 Scenario.s0
    = (Ok tt, s1) /\
    trace s1 = [Call_AllocateT 1 2 2 24 1; Call_Save 13 1 "out.png" 0 true;
                Call_Unload 1].
Proof.
  apply (write_succeeds (api := Ref.api true) Scenario.rgb_2x2 "out.png" 0
           Scenario.s0 3 1 1
           (Ref.AllocateT 1 2 2 24 Scenario.memory0 Scenario.world0).1.2
           (Ref.AllocateT 1 2 2 24 Scenario.memory0 Scenario.world0).2).
  - vm_compute. discriminate.
  - right. exists 2, 2, 3. split; [reflexivity|lia].
  - reflexivity.
  - reflexivity.
  - reflexivity.
  - discriminate.
  - intros Hlen. discriminate Hlen.
  - reflexivity.
  - intros m. reflexivity.
Defined.
